(** * StreamHist.js: a streaming approximate histogram

    A shallow embedding of [src/index.js] (the [StreamHist] class and its
    helpers) together with the part of the [bintrees] red-black tree it
    relies on, and the properties of the sketch that are checked against it.

    Modelling conventions, fixed here once:

    - A finite JavaScript number is the rational it stands for ([Q]); the
      two infinities and NaN are kept as separate values of [num]. The
      sign of zero is not modelled.
    - The arithmetic is read in two ways. The methods of module
      [StreamHist] that build the bins ([_insert], [_compress], [push],
      [merge], with [diffBins] and [combineBins]) and the queries
      [quantile], [sum] and [median] compute on the rationals, without
      rounding and without overflow: this exact reading carries the
      properties that do not depend on rounding, or that hold up to it.
      Module [Rounded] gives the same methods in double precision, with
      the operations of module [Double] (IEEE 754 binary64, every result
      rounded, a large result an infinity): it carries the properties on
      counts, capacity and limits, which rounding and overflow can
      break. [mean], [variance] and [density] are in double precision
      in [StreamHist] itself. A property is about the reading whose
      methods it names.
    - The fields of a bin ([mean], [count], [tss]) are finite numbers. Where
      the code would store a NaN or an infinity in a bin (a division by a
      zero total count), the modelled run stops with [NotFinite].
    - The red-black tree is represented by its in-order sequence of items.
      References to bins held by the code (the result of [findNearest], the
      pair picked by [_compress], ...) are positions in that sequence, and
      an in-place update of a bin is an update at that position.
    - A sketch is a value. [merge] makes the receiver hold the bin
      objects of the other sketch; what is proved of a receiver holds
      for as long as the other sketch is not used again.
    - A method that mutates the sketch or can throw is a computation in the
      monad [M]: it takes the sketch and gives back an outcome and the
      sketch as the call leaves it (also when the call throws).
    - [math.sqrt] and [math.log] come from the mathjs package and are taken
      as parameters (class [Mathjs]). *)

From Stdlib Require Import List Bool ZArith QArith Qminmax Qabs Lia Lqa Permutation
  Sorted.
From Stdlib Require Strings.String.
From Stdlib Require SpecFloat.
Import ListNotations.

Local Open Scope Q_scope.

(** ** Numbers and values *)

(** A JavaScript number: a finite (rational) value, an infinity or NaN. *)
Inductive num : Type :=
| Fin (q : Q)
| PInf
| NInf
| NaN.

Module Num.

Definition neg (x : num) : num :=
  match x with
  | Fin q => Fin (- q)
  | PInf => NInf
  | NInf => PInf
  | NaN => NaN
  end.

Definition add (x y : num) : num :=
  match x, y with
  | NaN, _ | _, NaN => NaN
  | Fin a, Fin b => Fin (a + b)
  | PInf, NInf | NInf, PInf => NaN
  | PInf, _ | _, PInf => PInf
  | NInf, _ | _, NInf => NInf
  end.

Definition sub (x y : num) : num := add x (neg y).

(** The sign of a number: [Some Gt] positive, [Some Lt] negative,
    [Some Eq] zero, [None] for NaN. *)
Definition sign (x : num) : option comparison :=
  match x with
  | Fin q => Some (q ?= 0)
  | PInf => Some Gt
  | NInf => Some Lt
  | NaN => None
  end.

Definition inf_of (c : comparison) : num :=
  match c with
  | Gt => PInf
  | Lt => NInf
  | Eq => NaN
  end.

Definition mul (x y : num) : num :=
  match x, y with
  | Fin a, Fin b => Fin (a * b)
  | _, _ =>
      match sign x, sign y with
      | Some cx, Some cy =>
          match cx, cy with
          | Eq, _ | _, Eq => NaN
          | Gt, c | c, Gt => inf_of c
          | Lt, Lt => PInf
          end
      | _, _ => NaN
      end
  end.

Definition div (x y : num) : num :=
  match x, y with
  | NaN, _ | _, NaN => NaN
  | Fin a, Fin b =>
      if Qeq_bool b 0 then inf_of (a ?= 0) else Fin (a / b)
  | Fin _, _ => Fin 0
  | _, Fin b =>
      match b ?= 0 with
      | Lt => neg x
      | _ => x
      end
  | _, _ => NaN
  end.

(** [compare x y] is [None] when either side is NaN: every relational
    operator of JavaScript is then false. *)
Definition compare (x y : num) : option comparison :=
  match x, y with
  | NaN, _ | _, NaN => None
  | Fin a, Fin b => Some (a ?= b)
  | PInf, PInf | NInf, NInf => Some Eq
  | PInf, _ | _, NInf => Some Gt
  | NInf, _ | _, PInf => Some Lt
  end.

Definition ltb (x y : num) : bool :=
  match compare x y with Some Lt => true | _ => false end.
Definition leb (x y : num) : bool :=
  match compare x y with Some Lt | Some Eq => true | _ => false end.
Definition eqb (x y : num) : bool :=
  match compare x y with Some Eq => true | _ => false end.
Definition gtb (x y : num) : bool := ltb y x.
Definition geb (x y : num) : bool := leb y x.

(** [math.min] and [math.max] on two numbers. *)
Definition min (x y : num) : num :=
  match compare x y with
  | None => NaN
  | Some Gt => y
  | Some _ => x
  end.
Definition max (x y : num) : num :=
  match compare x y with
  | None => NaN
  | Some Lt => y
  | Some _ => x
  end.

End Num.

(** [x ** 2] as computed by [Math.pow(x, 2)]. *)
Definition pow2 (x : Q) : Q := x * x.

(** [x < y] on finite numbers. *)
Definition Qlt_bool (x y : Q) : bool :=
  match x ?= y with Lt => true | _ => false end.

(** [Number.isInteger] on a finite number, and the integer it then is. *)
Definition Q_is_integer (q : Q) : bool :=
  (Qnum q mod Zpos (Qden q) =? 0)%Z.
Definition Q_to_Z (q : Q) : Z := (Qnum q / Zpos (Qden q))%Z.

(** The remainder operator [x % y] on finite numbers, [y] not zero: the
    quotient is truncated towards zero. *)
Definition Qtrunc (q : Q) : Z := Z.quot (Qnum q) (Zpos (Qden q)).
Definition js_rem (x y : Q) : Q := x - y * inject_Z (Qtrunc (x / y)).

(** The JavaScript values a caller can pass where the code expects an
    optional number or flag. *)
Inductive jsval : Type :=
  | JUndefined
  | JNull
  | JBool (b : bool)
  | JNum (q : Q)
  | JNaN
  | JInfinity (negative : bool)
  | JStr (s : String.string).

Definition truthy (v : jsval) : bool :=
  match v with
  | JUndefined | JNull | JNaN => false
  | JBool b => b
  | JNum q => negb (Qeq_bool q 0)
  | JInfinity _ => true
  | JStr s => negb (String.eqb s String.EmptyString)
  end.

(** [v || d] *)
Definition js_or (v d : jsval) : jsval := if truthy v then v else d.

(** [v != null] *)
Definition not_nullish (v : jsval) : bool :=
  match v with
  | JUndefined | JNull => false
  | _ => true
  end.

(** [Number.isInteger(v)]: the integer when [v] is one. *)
Definition Number_isInteger (v : jsval) : option Z :=
  match v with
  | JNum q => if Q_is_integer q then Some (Q_to_Z q) else None
  | _ => None
  end.

(** What a query returns: [null], [undefined] or a number. *)
Inductive value : Type :=
  | Null
  | Undefined
  | Num (n : num).

(** ** Numbers in double precision *)

(** The arithmetic of IEEE 754 binary64 numbers, as the Standard Library
    specifies it ([SpecFloat], with a precision of 53 bits and infinities
    at the exponent 1024): an operation converts its operands, which are
    doubles, applies the specified operation, which rounds to the nearest
    double (ties to even), and converts the result back. The sign of a
    zero is dropped on the way back. *)
Module Double.

Definition prec : Z := 53.
Definition emax : Z := 1024.

(** The double nearest to a rational number: the quotient of its
    numerator by its denominator, rounded once. A double is a rational
    with a power of two as denominator and is left as it is. *)
Definition of_Q (q : Q) : SpecFloat.spec_float :=
  let d := SpecFloat.S754_finite false (Qden q) 0 in
  match Qnum q with
  | Z0 => SpecFloat.S754_zero false
  | Zpos n => SpecFloat.SFdiv prec emax (SpecFloat.S754_finite false n 0) d
  | Zneg n => SpecFloat.SFdiv prec emax (SpecFloat.S754_finite true n 0) d
  end.

Definition of_num (x : num) : SpecFloat.spec_float :=
  match x with
  | Fin q => of_Q q
  | PInf => SpecFloat.S754_infinity false
  | NInf => SpecFloat.S754_infinity true
  | NaN => SpecFloat.S754_nan
  end.

Definition to_num (f : SpecFloat.spec_float) : num :=
  match f with
  | SpecFloat.S754_zero _ => Fin 0
  | SpecFloat.S754_infinity s => if s then NInf else PInf
  | SpecFloat.S754_nan => NaN
  | SpecFloat.S754_finite s m e =>
      let v := match e with
               | Zneg p => Qred (Zpos m # 2 ^ p)
               | _ => inject_Z (Zpos m * 2 ^ e)
               end in
      Fin (if s then - v else v)
  end.

(** The double a numeral of the program text denotes. *)
Definition number (q : Q) : num := to_num (of_Q q).

Definition add (x y : num) : num :=
  to_num (SpecFloat.SFadd prec emax (of_num x) (of_num y)).
Definition sub (x y : num) : num :=
  to_num (SpecFloat.SFsub prec emax (of_num x) (of_num y)).
Definition mul (x y : num) : num :=
  to_num (SpecFloat.SFmul prec emax (of_num x) (of_num y)).
Definition div (x y : num) : num :=
  to_num (SpecFloat.SFdiv prec emax (of_num x) (of_num y)).

(** The same as a finite number, for the numerals of the examples. *)
Definition literal (q : Q) : Q :=
  match number q with
  | Fin d => d
  | _ => q
  end.

(** [Math.pow(x, 2)], taken to be the rounded product [x * x]. *)
Definition pow2 (x : num) : num := mul x x.

(** [math.abs(x)] *)
Definition abs (x : num) : num :=
  match x with
  | Fin q => Fin (Qabs q)
  | NInf => PInf
  | _ => x
  end.

(** The sum of two finite numbers is computed without rounding. *)
Definition exact_sum (x y : Q) : bool :=
  match add (Fin x) (Fin y) with
  | Fin r => Qeq_bool r (x + y)
  | _ => false
  end.

End Double.

(** ** Bins *)

Module Bin.
(** A histogram bin. [cumn] is absent until [_cumulate] has run over the
    bin. *)
Record t : Type := mk {
  mean : Q;
  count : Q;
  tss : Q;
  cumn : option Q
}.

Definition set_count (c : Q) (b : t) : t := mk (mean b) c (tss b) (cumn b).
Definition set_cumn (c : Q) (b : t) : t := mk (mean b) (count b) (tss b) (Some c).
End Bin.

(** The external mathjs functions used by the sketch. *)
Class Mathjs : Type := {
  math_sqrt : Q -> num;
  math_log : Q -> Q;
  math_E : Q
}.

(** [compareBins(a, b)]: the sign of the number the comparator returns. *)
Definition compareBins (a b : Bin.t) : comparison :=
  if Qlt_bool (Bin.mean b) (Bin.mean a) then Gt
  else if Qlt_bool (Bin.mean a) (Bin.mean b) then Lt
  else Eq.

(** [diffBins(a, b, weighted)], in exact arithmetic: the square is never
    an infinity. [Rounded.diffBins] is the same in double precision. *)
Definition diffBins `{Mathjs} (a b : Bin.t) (weighted : bool) : Q :=
  let diff := pow2 (Bin.mean b - Bin.mean a) in
  if weighted
  then diff * math_log (math_E + Qmin (Bin.count a) (Bin.count b))
  else diff.

(** [combineBins(a, b)], in exact arithmetic: the new contents of [a]
    (which the code updates in place and returns); [None] when the total
    count is zero, so that the mean is not a finite number. The mean is
    the exact quotient, strictly between the two means when the counts
    are positive. [Rounded.combineBins] is the same in double precision,
    where the quotient is rounded. *)
Definition combineBins (a b : Bin.t) : option Bin.t :=
  let numerator := Bin.mean b * Bin.count b + Bin.mean a * Bin.count a in
  let total := Bin.count a + Bin.count b in
  if Qeq_bool total 0 then None
  else
    let mean := numerator / total in
    let tss := pow2 (Bin.mean a - mean) * Bin.count a
               + pow2 (Bin.mean b - mean) * Bin.count b in
    Some (Bin.mk mean (Bin.count a + Bin.count b)
                 (Bin.tss a + (Bin.tss b + tss)) (Bin.cumn a)).

(** ** The ordered bin store

    The [RBTree] of the bintrees package, as the sketch uses it: a tree is
    represented by the sequence of its items in order, and a comparator by
    the sign of the number it returns. The balancing of the tree is not
    modelled. What each operation does to the sequence is what the
    package's source does to the tree:
    - [insert] descends by [cmp(node.data, data)], stops at a node that
      compares equal ("returns false if duplicate") and otherwise links
      the new item where the descent ends;
    - [remove] unlinks the node that compares equal to its argument;
    - [lowerBound] leaves the iterator on the node "at or immediately
      after the item", or on no node (the null iterator) when every node
      is before the item;
    - a null iterator moves to the first node on [next()] and to the
      last on [prev()]; stepping off either end makes it null again.
    The operations agree with the tree's whenever the sequence is ordered
    by the comparator in use, which is the tree's own invariant; when
    several items compare equal to a removed one, the first is taken. *)
Module RBTree.
Section Tree.
Context {A : Type}.

Definition t : Type := list A.

(** [tree.insert(data)]: a duplicate (comparator 0) is not inserted. *)
Fixpoint insert (cmp : A -> A -> comparison) (data : A) (tr : t) : t :=
  match tr with
  | [] => [data]
  | x :: tr' =>
      match cmp x data with
      | Eq => x :: tr'
      | Lt => x :: insert cmp data tr'
      | Gt => data :: x :: tr'
      end
  end.

(** [tree.remove(data)]: removes the item the comparator finds equal. *)
Fixpoint remove (cmp : A -> A -> comparison) (data : A) (tr : t) : t :=
  match tr with
  | [] => []
  | x :: tr' =>
      match cmp data x with
      | Eq => tr'
      | _ => x :: remove cmp data tr'
      end
  end.

Definition min (tr : t) : option A := hd_error tr.
Definition max (tr : t) : option A := nth_error tr (pred (length tr)).

(** An iterator is its cursor: a position, or [None] for the null
    iterator. *)
Definition iterator : Type := option nat.

Definition data (tr : t) (it : iterator) : option A :=
  match it with
  | None => None
  | Some i => nth_error tr i
  end.

(** [it.next()]: the cursor afterwards (the call returns its data). *)
Definition next (tr : t) (it : iterator) : iterator :=
  match it with
  | None => match tr with [] => None | _ :: _ => Some 0%nat end
  | Some i => if (S i <? length tr)%nat then Some (S i) else None
  end.

(** [it.prev()] *)
Definition prev (tr : t) (it : iterator) : iterator :=
  match it with
  | None => match length tr with O => None | S n => Some n end
  | Some O => None
  | Some (S i) => Some i
  end.

(** [tree.lowerBound(item)], the comparator applied to the item first:
    [c d] is the sign of [cmp(item, d)]. The iterator is left at the
    first node at or after the item. *)
Fixpoint lowerBound_from (c : A -> comparison) (tr : t) (i : nat) : iterator :=
  match tr with
  | [] => None
  | d :: tr' =>
      match c d with
      | Gt => lowerBound_from c tr' (S i)
      | _ => Some i
      end
  end.
Definition lowerBound (c : A -> comparison) (tr : t) : iterator :=
  lowerBound_from c tr 0.

(** [tree.upperBound(item)]: from the lower bound, step over the nodes
    equal to the item. Each step moves the cursor forward, so the loop
    runs at most once per node. *)
Fixpoint upperBound_loop (fuel : nat) (c : A -> comparison) (tr : t)
    (it : iterator) : iterator :=
  match fuel with
  | O => it
  | S fuel' =>
      match data tr it with
      | Some d =>
          match c d with
          | Eq => upperBound_loop fuel' c tr (next tr it)
          | _ => it
          end
      | None => it
      end
  end.
Definition upperBound (c : A -> comparison) (tr : t) : iterator :=
  upperBound_loop (S (length tr)) c tr (lowerBound c tr).

(** In-place update of the item at a position. *)
Fixpoint update (i : nat) (f : A -> A) (tr : t) : t :=
  match tr, i with
  | [], _ => []
  | x :: tr', O => f x :: tr'
  | x :: tr', S i' => x :: update i' f tr'
  end.

(** [RBTree.prototype.itemByIndex(i)], which [src/index.js] adds to the
    tree. The [each] of the tree calls the callback on every item in
    order and makes nothing of what it returns: once [j] is [i] the
    callback assigns the item and returns before its [j++], so that it
    assigns every later item as well. [item] is the variable of that
    name, [None] while it is [undefined]. *)
Fixpoint itemByIndex_each (tr : t) (j i : nat) (item : option A) : option A :=
  match tr with
  | [] => item
  | data :: tr' =>
      if (j =? i)%nat then itemByIndex_each tr' j i (Some data)
      else itemByIndex_each tr' (S j) i item
  end.
Definition itemByIndex (tr : t) (i : nat) : option A := itemByIndex_each tr 0 i None.

End Tree.
End RBTree.

(** A reference to a bin of the tree, as the iterator hands it out: its
    position and its contents when it was read. *)
Definition ref : Type := (nat * Bin.t)%type.

Definition deref (tr : RBTree.t) (it : RBTree.iterator) : option ref :=
  match it with
  | None => None
  | Some i =>
      match nth_error tr i with
      | Some b => Some (i, b)
      | None => None
      end
  end.

(** The search items [{mean: p}] and [{cumn: x}]: the comparators read no
    other field of them. *)
Definition key_mean (p : Q) : Bin.t := Bin.mk p 0 0 None.
Definition key_cumn (x : Q) : Bin.t := Bin.mk 0 0 0 (Some x).

(** [compareBinCumns(a, b)], the sign of [a.cumn - b.cumn]; [None] when a
    [cumn] is missing and the difference is NaN. *)
Definition compareBinCumns (a b : Bin.t) : option comparison :=
  match Bin.cumn a, Bin.cumn b with
  | Some x, Some y => Some (x - y ?= 0)
  | _, _ => None
  end.

(** ** The sketch *)

Record Sketch : Type := mkSketch {
  _bins : RBTree.t (A := Bin.t);
  _maxBins : Z;
  _weighted : bool;
  _freeze : Z;
  _warmUp : Z;
  _count : Q;
  _cumn : Q;
  _min : option num;
  _max : option num;
  _tss : Q
}.

Definition set_bins (v : RBTree.t) (s : Sketch) : Sketch :=
  mkSketch v (_maxBins s) (_weighted s) (_freeze s) (_warmUp s) (_count s)
           (_cumn s) (_min s) (_max s) (_tss s).
Definition set_maxBins (v : Z) (s : Sketch) : Sketch :=
  mkSketch (_bins s) v (_weighted s) (_freeze s) (_warmUp s) (_count s)
           (_cumn s) (_min s) (_max s) (_tss s).
Definition set_weighted (v : bool) (s : Sketch) : Sketch :=
  mkSketch (_bins s) (_maxBins s) v (_freeze s) (_warmUp s) (_count s)
           (_cumn s) (_min s) (_max s) (_tss s).
Definition set_freeze (v : Z) (s : Sketch) : Sketch :=
  mkSketch (_bins s) (_maxBins s) (_weighted s) v (_warmUp s) (_count s)
           (_cumn s) (_min s) (_max s) (_tss s).
Definition set_warmUp (v : Z) (s : Sketch) : Sketch :=
  mkSketch (_bins s) (_maxBins s) (_weighted s) (_freeze s) v (_count s)
           (_cumn s) (_min s) (_max s) (_tss s).
Definition set_count (v : Q) (s : Sketch) : Sketch :=
  mkSketch (_bins s) (_maxBins s) (_weighted s) (_freeze s) (_warmUp s) v
           (_cumn s) (_min s) (_max s) (_tss s).
Definition set_cumn (v : Q) (s : Sketch) : Sketch :=
  mkSketch (_bins s) (_maxBins s) (_weighted s) (_freeze s) (_warmUp s)
           (_count s) v (_min s) (_max s) (_tss s).
Definition set_min (v : option num) (s : Sketch) : Sketch :=
  mkSketch (_bins s) (_maxBins s) (_weighted s) (_freeze s) (_warmUp s)
           (_count s) (_cumn s) v (_max s) (_tss s).
Definition set_max (v : option num) (s : Sketch) : Sketch :=
  mkSketch (_bins s) (_maxBins s) (_weighted s) (_freeze s) (_warmUp s)
           (_count s) (_cumn s) (_min s) v (_tss s).
Definition set_tss (v : Q) (s : Sketch) : Sketch :=
  mkSketch (_bins s) (_maxBins s) (_weighted s) (_freeze s) (_warmUp s)
           (_count s) (_cumn s) (_min s) (_max s) v.

(** ** Computations on a sketch *)

Inductive error : Type :=
| TypeError      (* a property is read on [null] or [undefined] *)
| NotFinite      (* a NaN or an infinity would enter a bin or a comparator *)
| NoTermination. (* a loop did not finish within its bound *)

Inductive outcome (A : Type) : Type :=
| Ret (a : A)
| Err (e : error).
Arguments Ret {A} a.
Arguments Err {A} e.

Definition M (A : Type) : Type := Sketch -> outcome A * Sketch.

Definition ret {A : Type} (a : A) : M A := fun s => (Ret a, s).
Definition fail {A : Type} (e : error) : M A := fun s => (Err e, s).
Definition bind {A B : Type} (m : M A) (k : A -> M B) : M B :=
  fun s =>
    match m s with
    | (Ret a, s') => k a s'
    | (Err e, s') => (Err e, s')
    end.
Definition get : M Sketch := fun s => (Ret s, s).
Definition modify (f : Sketch -> Sketch) : M unit := fun s => (Ret tt, f s).

(** Reading a field of a reference that may be [null]. *)
Definition nonnull {A : Type} (o : option A) : M A :=
  match o with
  | Some a => ret a
  | None => fail TypeError
  end.

Declare Scope js_scope.
Delimit Scope js_scope with js.
Notation "x <- m ;; k" := (bind m (fun x => k))
  (at level 61, m at next level, right associativity) : js_scope.
Notation "m ;; k" := (bind m (fun _ => k))
  (at level 61, right associativity) : js_scope.
Notation "' pat <- m ;; k" := (bind m (fun x => match x with pat => k end))
  (at level 61, pat pattern, m at next level, right associativity) : js_scope.

(** [null] where a number is expected. *)
Definition or_else (d : num) (o : option num) : num :=
  match o with
  | Some n => n
  | None => d
  end.
(** A nullable number in a relational comparison: [null] counts as 0. *)
Definition to_number (o : option num) : num := or_else (Fin 0) o.
(** A nullable number as a returned value. *)
Definition of_null (o : option num) : value :=
  match o with
  | Some n => Num n
  | None => Null
  end.
(** A value used as an operand of arithmetic. *)
Definition as_num (v : value) : num :=
  match v with
  | Null => Fin 0
  | Undefined => NaN
  | Num n => n
  end.
(** A [cumn] field in arithmetic, and as a returned value. *)
Definition cumn_num (b : Bin.t) : num :=
  match Bin.cumn b with
  | Some c => Fin c
  | None => NaN
  end.
Definition cumn_value (b : Bin.t) : value :=
  match Bin.cumn b with
  | Some c => Num (Fin c)
  | None => Undefined
  end.

(** [Number.EPSILON] *)
Definition Number_EPSILON : Q := 1 # (2 ^ 52).

(** ** The methods of [StreamHist] *)

Module StreamHist.
Section Methods.
Context `{Mathjs}.
Local Open Scope js_scope.

Definition bins (s : Sketch) : RBTree.t := _bins s.
Definition count (s : Sketch) : Q := _count s.
Definition size (s : Sketch) : Z := Z.of_nat (length (_bins s)).
Definition min (s : Sketch) : option num := _min s.
Definition max (s : Sketch) : option num := _max s.
Definition limits (s : Sketch) : option num * option num := (min s, max s).

(** [isFrozen()]; [this.freeze()] read as a getter is [this._freeze || 0]. *)
Definition isFrozen (s : Sketch) : bool :=
  negb (_freeze s =? 0)%Z && Qlt_bool (inject_Z (_freeze s)) (count s).

(** [findNearest(p)], in exact arithmetic: the two distances it compares
    are not rounded. [Rounded.findNearest] is the same in double
    precision. *)
Definition findNearest (p : Q) : M (option ref) :=
  s <- get ;;
  if (size s =? 0)%Z then ret None
  else
    let tr := bins s in
    let iter := RBTree.lowerBound (compareBins (key_mean p)) tr in
    let iter := match RBTree.data tr iter with
                | None => RBTree.prev tr iter
                | Some _ => iter
                end in
    nearest <- nonnull (deref tr iter) ;;
    if Qeq_bool (Bin.mean (snd nearest)) p then ret (Some nearest)
    else
      match deref tr (RBTree.prev tr iter) with
      | Some prev =>
          if Qlt_bool (Qabs (Bin.mean (snd prev) - p))
                      (Qabs (Bin.mean (snd nearest) - p))
          then ret (Some prev)
          else ret (Some nearest)
      | None => ret (Some nearest)
      end.

(** [_newBin(p, count)] *)
Definition _newBin (p cnt : Q) : M unit :=
  modify (fun s => set_bins (RBTree.insert compareBins (Bin.mk p cnt 0 None) (bins s)) s).

(** [_insert(x, count)] *)
Definition _insert (x cnt : Q) : M unit :=
  modify (fun s => set_min (Some (Num.min (or_else PInf (_min s)) (Fin x))) s) ;;
  modify (fun s => set_max (Some (Num.max (or_else NInf (_max s)) (Fin x))) s) ;;
  modify (fun s => set_count (_count s + cnt) s) ;;
  modify (set_tss 0) ;;
  nearest <- findNearest x ;;
  s <- get ;;
  match nearest with
  | Some (i, b) =>
      if Qeq_bool (Bin.mean b) x || (isFrozen s && (size s =? _maxBins s)%Z)
      then modify (fun s =>
             set_bins (RBTree.update i (fun b => Bin.set_count (Bin.count b + cnt) b) (bins s)) s)
      else _newBin x cnt
  | None => _newBin x cnt
  end.

(** The inner loop of [_compress]: [a] is the bin last read, at position
    [i]; [rest] are the bins the iterator has still to give. [pick] holds
    the variables [bi] (by position) and [bi1]; they keep what they held
    before the scan unless a pair overwrites them. [maxDiff] is [None]
    for [Infinity]. *)
Fixpoint _compress_scan (w : bool) (a : Bin.t) (i : nat) (rest : list Bin.t)
    (maxDiff : option Q) (pick : option ref) : option ref :=
  match rest with
  | [] => pick
  | b :: rest' =>
      let diff := diffBins a b w in
      let smaller := match maxDiff with
                     | None => true
                     | Some m => Qlt_bool diff m
                     end in
      if smaller
      then _compress_scan w b (S i) rest' (Some diff) (Some (i, b))
      else _compress_scan w b (S i) rest' maxDiff pick
  end.

(** The [while] loop of [_compress]; [fuel] bounds the number of passes.
    A pass that finds a pair removes one bin, so a run that ends makes at
    most as many passes as there are bins, plus possibly one that throws.
    The variables [bi] and [bi1] are declared outside the loop: [pick]
    carries them from one pass to the next. *)
Fixpoint _compress_loop (fuel : nat) (pick : option ref) (s : Sketch)
    : outcome unit * Sketch :=
  if (size s >? _maxBins s)%Z then
    match fuel with
    | O => (Err NoTermination, s)
    | S fuel' =>
        let pick := match bins s with
                    | [] => pick
                    | a :: rest => _compress_scan (_weighted s) a 0 rest None pick
                    end in
        match pick with
        | None => (Err TypeError, s)
        | Some (i, bi1) =>
            match nth_error (bins s) i with
            | None => (Err NoTermination, s)
            | Some bi =>
                match combineBins bi bi1 with
                | None => (Err NotFinite, s)
                | Some merged =>
                    let tr := RBTree.update i (fun _ => merged) (bins s) in
                    let tr := RBTree.remove compareBins bi1 tr in
                    _compress_loop fuel' (Some (i, bi1)) (set_bins tr s)
                end
            end
        end
    end
  else (Ret tt, s).

(** [_compress()] *)
Definition _compress : M unit :=
  fun s => _compress_loop (S (length (bins s))) None s.

(** The accessor [maxBins(maxBins)]; called without an argument (or with
    [null]) it only reads. *)
Definition maxBins (v : jsval) : M Z :=
  (if not_nullish v then
     modify (set_maxBins (match Number_isInteger v with
                          | Some n => n
                          | None => 100%Z
                          end)) ;;
     s <- get ;;
     if (size s >? _maxBins s)%Z then _compress else ret tt
   else ret tt) ;;
  s <- get ;;
  ret (_maxBins s).

(** The accessor [weighted(weighted)] *)
Definition weighted (v : jsval) : M bool :=
  (if not_nullish v then
     modify (set_weighted (match v with JBool true => true | _ => false end))
   else ret tt) ;;
  s <- get ;;
  ret (_weighted s).

(** The accessor [freeze(freeze)] *)
Definition freeze (v : jsval) : M Z :=
  (if not_nullish v then
     modify (set_freeze (match Number_isInteger v with
                         | Some n => n
                         | None => 0%Z
                         end))
   else ret tt) ;;
  s <- get ;;
  ret (_freeze s).

(** The accessor [warmUp(warmUp)] *)
Definition warmUp (v : jsval) : M Z :=
  (if not_nullish v then
     modify (set_warmUp (match Number_isInteger v with
                         | Some n => n
                         | None => 0%Z
                         end))
   else ret tt) ;;
  s <- get ;;
  ret (_warmUp s).

(** [reset()] *)
Definition reset : M unit :=
  modify (fun s => set_bins [] s) ;;
  modify (set_count 0) ;;
  modify (set_cumn 0) ;;
  modify (set_min None) ;;
  modify (set_max None) ;;
  modify (set_tss 0).

(** The object as the constructor finds it, with an empty tree. Its other
    fields are still undefined and nothing reads them before they are set:
    the values given here are never observed. *)
Definition blank : Sketch :=
  mkSketch [] 0 false 0 0 0 0 None None 0.

(** [new StreamHist(maxbins, weighted, freeze, warmUp)] *)
Definition StreamHist (maxbins weighted_ freeze_ warmUp_ : jsval) : outcome unit * Sketch :=
  (maxBins (js_or maxbins (JNum 100)) ;;
   weighted (js_or weighted_ (JBool false)) ;;
   freeze (js_or freeze_ (JNum 0)) ;;
   warmUp (js_or warmUp_ (JNum 0)) ;;
   reset) blank.

(** One turn of the loop of [push]. *)
Definition push_point (x cnt : Q) : M unit :=
  _insert x cnt ;;
  _compress ;;
  s <- get ;;
  if Qeq_bool (count s) (inject_Z (_warmUp s))
  then modify (fun s =>
         set_bins (map (fun b => Bin.mk (Bin.mean b) 1 0 (Bin.cumn b)) (bins s)) s)
  else ret tt.

Fixpoint push_loop (p : list Q) (cnt : Q) : M unit :=
  match p with
  | [] => ret tt
  | x :: p' => push_point x cnt ;; push_loop p' cnt
  end.

(** [push(p, count)]. [p] is the array of points (a single point [x] is
    pushed as [[x]]); [count] is [None] when the argument is left out. *)
Definition push (p : list Q) (cnt : option Q) : M unit :=
  let cnt := match cnt with
             | Some c => if Qeq_bool c 0 then 1 else c
             | None => 1
             end in
  push_loop p cnt.

(** The first statements of [merge(that, maxBins)], up to the new capacity. *)
Definition merge_scalars (that : Sketch) (maxBins_ : jsval) : M unit :=
  modify (fun s => set_count (_count s + count that) s) ;;
  modify (fun s => set_min (Some (Num.min (or_else PInf (min s)) (or_else PInf (min that)))) s) ;;
  modify (fun s => set_max (Some (Num.max (or_else NInf (max s)) (or_else NInf (max that)))) s) ;;
  s <- get ;;
  let minBins := Z.min (_maxBins s) (_maxBins that) in
  let maxBins_ := match Number_isInteger maxBins_ with
                  | Some n => n
                  | None => minBins
                  end in
  maxBins (JNum (inject_Z (Z.min maxBins_ (_maxBins s + _maxBins that)))) ;;
  ret tt.

(** The loop of [merge] that inserts the bins of [that]. The code
    inserts the bin objects of [that] themselves, so that the receiver
    shares them with [that] from then on, and what [_insert] and
    [combineBins] later do to a shared bin shows in both sketches. A
    sketch is a value here: the definition gives the receiver as the
    loop leaves it, and says nothing of [that], nor of the receiver once
    [that] is used again. *)
Definition merge_bins (that : Sketch) : M unit :=
  modify (fun s =>
    set_bins (fold_left (fun tr item => RBTree.insert compareBins item tr) (bins that) (bins s)) s).

(** [merge(that, maxBins)] *)
Definition merge (that : Sketch) (maxBins_ : jsval) : M unit :=
  merge_scalars that maxBins_ ;;
  merge_bins that ;;
  _compress.

(** The pass of [_cumulate] over the bins: [cumn] is the running total. *)
Fixpoint cumulate_bins (cumn : Q) (tr : list Bin.t) : list Bin.t * Q :=
  match tr with
  | [] => ([], cumn)
  | c :: tr' =>
      let c' := Bin.set_cumn (cumn + Bin.count c / 2) c in
      let (tr'', total) := cumulate_bins (cumn + Bin.count c) tr' in
      (c' :: tr'', total)
  end.

(** [_cumulate()] *)
Definition _cumulate : M unit :=
  s <- get ;;
  if Qeq_bool (_count s) (_cumn s) then ret tt
  else
    let (tr, cumn) := cumulate_bins 0 (bins s) in
    modify (set_bins tr) ;;
    modify (set_cumn cumn) ;;
    modify (set_count cumn).

(** [_bound(x)] *)
Definition _bound (x : Q) : M (option ref * option ref) :=
  s <- get ;;
  let tr := bins s in
  let iter := RBTree.lowerBound (compareBins (key_mean x)) tr in
  let at_min := match iter, tr with
                | Some O, _ :: _ => true
                | None, [] => true
                | _, _ => false
                end in
  let iter := if at_min then iter else RBTree.prev tr iter in
  lo <- nonnull (deref tr iter) ;;
  let up := if Qeq_bool (Bin.mean (snd lo)) x || (S (fst lo) =? length tr)%nat
            then Some lo
            else deref tr (RBTree.next tr iter) in
  ret (Some lo, up).

(** [_boundCumn(x)]. The tree is searched with [compareBinCumns]; a bin
    without [cumn] would make the comparator return NaN. *)
Definition _boundCumn (x : Q) : M (option ref * option ref) :=
  s <- get ;;
  let tr := bins s in
  if negb (forallb (fun b => match Bin.cumn b with Some _ => true | None => false end) tr)
  then fail NotFinite
  else
    let c := fun d => match compareBinCumns (key_cumn x) d with
                      | Some c => c
                      | None => Eq
                      end in
    let iter := RBTree.upperBound c tr in
    let iter := RBTree.prev tr iter in
    let lo := deref tr iter in
    let same := match lo with
                | Some (i, b) => Qeq_bool (Bin.mean b) x || (S i =? length tr)%nat
                | None => match tr with [] => true | _ :: _ => false end
                end in
    let up := if same then lo else deref tr (RBTree.next tr iter) in
    ret (lo, up).

(** [_quantile(q)] *)
Definition _quantile (q : Q) : M value :=
  s <- get ;;
  if (size s =? 0)%Z then ret Null
  else if Qle_bool q 0 then ret (of_null (min s))
  else if Qle_bool 1 q then ret (of_null (max s))
  else
    let sv := count s * q in
    _cumulate ;;
    '(lower, upper) <- _boundCumn sv ;;
    lower <- nonnull lower ;;
    let lower := snd lower in
    let d := Num.sub (cumn_num lower) (Fin sv) in
    upper <- nonnull upper ;;
    let upper := snd upper in
    let a := Bin.count upper - Bin.count lower in
    let z :=
      if Qeq_bool a 0 then
        let b := Num.sub (cumn_num upper) (cumn_num lower) in
        if Num.eqb b (Fin 0) then Fin 0
        else Num.div (Num.sub (Fin sv) (cumn_num lower)) b
      else
        let b := 2 * Bin.count lower in
        let c := Num.mul (Fin 2) d in
        let disc := Num.sub (Fin (b * b)) (Num.mul (Fin (4 * a)) c) in
        let root := match disc with
                    | Fin x => math_sqrt x
                    | PInf => PInf
                    | _ => NaN
                    end in
        Num.div (Num.add (Fin (- b)) root) (Fin (2 * a)) in
    ret (Num (Num.add (Fin (Bin.mean lower))
                      (Num.mul (Fin (Bin.mean upper - Bin.mean lower)) z))).

(** [quantile(p)] for a single quantile. *)
Definition quantile (p : Q) : M value := _quantile p.

(** [quantile(plist)] for an array of quantiles. *)
Fixpoint quantile_list (ps : list Q) : M (list value) :=
  match ps with
  | [] => ret []
  | p :: ps' => v <- _quantile p ;; vs <- quantile_list ps' ;; ret (v :: vs)
  end.

(** [_sum(b)] *)
Definition _sum (b : Q) : M value :=
  s <- get ;;
  if (size s =? 0)%Z then ret Null
  else if Num.ltb (Fin b) (to_number (min s)) then ret (Num (Fin 0))
  else if Num.geb (Fin b) (to_number (max s)) then ret (Num (Fin (count s)))
  else
    _cumulate ;;
    '(lower, upper) <- _bound b ;;
    lower <- nonnull lower ;;
    upper <- nonnull upper ;;
    let at_min := (fst lower =? 0)%nat in
    let lower := snd lower in
    let upper := snd upper in
    let pdiff := Bin.mean upper - Bin.mean lower in
    let bdiff := b - Bin.mean lower in
    if Qeq_bool bdiff 0 then ret (cumn_value lower)
    else
      let mdiff := Bin.count upper - Bin.count lower in
      let mb := Num.add (Fin (Bin.count lower))
                        (Num.mul (Num.div (Fin mdiff) (Fin pdiff)) (Fin bdiff)) in
      let sv := if at_min then Fin (Bin.count lower / 2) else cumn_num lower in
      ret (Num (Num.add sv
                  (Num.mul (Num.div (Num.add (Fin (Bin.count lower)) mb) (Fin 2))
                           (Num.div (Fin bdiff) (Fin pdiff))))).

(** [sum(p)] for a single value. *)
Definition sum (p : Q) : M value := _sum p.

(** [sum(plist)] for an array of values. *)
Fixpoint sum_list (ps : list Q) : M (list value) :=
  match ps with
  | [] => ret []
  | p :: ps' => v <- _sum p ;; vs <- sum_list ps' ;; ret (v :: vs)
  end.

(** [density(b)], in double precision. The function calls itself when [b]
    is exactly a bin mean, on [b - Number.EPSILON*10] and on
    [b + Number.EPSILON*10], which are [b] again when [b] is large; [fuel]
    bounds the depth of these calls. *)
Fixpoint density (fuel : nat) (b : Q) : M value :=
  s <- get ;;
  if (size s =? 0)%Z then ret Null
  else if Num.ltb (Fin b) (to_number (min s)) || Num.gtb (Fin b) (to_number (max s))
  then ret (Num (Fin 0))
  else if match min s, max s with
          | Some lo, Some hi => Num.eqb (Fin b) lo && Num.eqb (Fin b) hi
          | _, _ => false
          end
  then ret (Num PInf)
  else
    '(lower, upper) <- _bound b ;;
    lower <- nonnull lower ;;
    upper <- nonnull upper ;;
    let lower := snd lower in
    let upper := snd upper in
    res <-
      (if Qeq_bool (Bin.mean lower) b && Qeq_bool (Bin.mean upper) b then
         match fuel with
         | O => fail NoTermination
         | S fuel' =>
             let step := Double.mul (Fin Number_EPSILON) (Fin 10) in
             match Double.sub (Fin b) step, Double.add (Fin b) step with
             | Fin lo, Fin hi =>
                 dlo <- density fuel' lo ;;
                 dhi <- density fuel' hi ;;
                 ret (Double.div (Double.add (as_num dlo) (as_num dhi)) (Fin 2))
             | _, _ => fail NotFinite
             end
         end
       else
         let pdiff := Double.sub (Fin (Bin.mean upper)) (Fin (Bin.mean lower)) in
         let bdiff := Double.sub (Fin b) (Fin (Bin.mean lower)) in
         let mdiff := Double.sub (Fin (Bin.count upper)) (Fin (Bin.count lower)) in
         let ratio := Double.div bdiff pdiff in
         let mb := Double.mul mdiff ratio in
         ret (Double.div (Double.add (Fin (Bin.count lower)) mb) pdiff)) ;;
    if Num.geb res (Fin 0) then ret (Num (Double.div res (Fin (count s))))
    else ret (Num (Fin 0)).

(** [mean()], in double precision *)
Definition mean : M value :=
  s <- get ;;
  if Qeq_bool (count s) 0 then ret Null
  else
    let sum := fold_left
                 (fun sum item =>
                    Double.add sum (Double.mul (Fin (Bin.mean item)) (Fin (Bin.count item))))
                 (bins s) (Fin 0) in
    ret (Num (Double.div sum (Fin (count s)))).

(** [variance()], in double precision: a square that overflows makes
    the sum, and the result, an infinity. *)
Definition variance : M value :=
  s <- get ;;
  if Qlt_bool (count s) 2 then ret Null
  else
    m <- mean ;;
    let sum := fold_left
                 (fun sum item =>
                    Double.add sum
                      (Double.mul (Double.pow2 (Double.sub (Fin (Bin.mean item)) (as_num m)))
                                  (Fin (Bin.count item))))
                 (bins s) (Fin 0) in
    ret (Num (Double.div sum (Fin (count s)))).

(** [median()] *)
Definition median : M value :=
  s <- get ;;
  if Qlt_bool (inject_Z (size s)) (count s) then quantile (1 # 2)
  else
    let tr := bins s in
    let iter := RBTree.lowerBound (compareBins (key_mean (count s / 2))) tr in
    if Qeq_bool (js_rem (count s) 2) 0 then
      let upper := deref tr iter in
      let lower := deref tr (RBTree.prev tr iter) in
      (* combineBins(lower, upper) reads [b.mean] first, then [a.mean] *)
      upper <- nonnull upper ;;
      lower <- nonnull lower ;;
      match combineBins (snd lower) (snd upper) with
      | None => fail NotFinite
      | Some merged =>
          modify (fun s => set_bins (RBTree.update (fst lower) (fun _ => merged) (bins s)) s) ;;
          ret (Num (Fin (Bin.mean merged)))
      end
    else
      lower <- nonnull (deref tr (RBTree.prev tr iter)) ;;
      ret (Num (Fin (Bin.mean (snd lower)))).

(** [toArray()]: fresh objects holding [mean], [count] and [tss]. *)
Definition toArray (s : Sketch) : list Bin.t :=
  map (fun b => Bin.mk (Bin.mean b) (Bin.count b) (Bin.tss b) None) (bins s).

(** [tss()]: the cached total is recomputed from the bins when it is
    falsy, that is 0. *)
Definition tss : M Q :=
  s <- get ;;
  (if Qeq_bool (_tss s) 0
   then modify (set_tss (fold_left (fun tss b => tss + Bin.tss b) (bins s) 0))
   else ret tt) ;;
  s <- get ;;
  ret (_tss s).

(** [std()]: [null] when the variance is falsy ([null], 0 or NaN). *)
Definition std : M value :=
  variance <- variance ;;
  match variance with
  | Num (Fin v) => if Qeq_bool v 0 then ret Null else ret (Num (math_sqrt v))
  | Num PInf => ret (Num PInf)
  | Num NInf => ret (Num NaN)
  | Num NaN | Null | Undefined => ret Null
  end.

(** The object [summary()] returns; its properties are evaluated in the
    order in which the object literal lists them. *)
Record Summary : Type := mkSummary {
  summary_count : Q;
  summary_mean : value;
  summary_std : value;
  summary_min : option num;
  summary_Q1 : value;
  summary_Q2 : value;
  summary_Q3 : value;
  summary_max : option num
}.

(** [summary()] *)
Definition summary : M Summary :=
  s <- get ;;
  let count_ := count s in
  mean_ <- mean ;;
  std_ <- std ;;
  s <- get ;;
  let min_ := min s in
  Q1 <- quantile (1 # 4) ;;
  Q2 <- median ;;
  Q3 <- quantile (3 # 4) ;;
  s <- get ;;
  ret (mkSummary count_ mean_ std_ min_ Q1 Q2 Q3 (max s)).


End Methods.
End StreamHist.

(** The object [toJSON] builds: the array of bins and every own property
    of the sketch except [_bins] and [_cumn]. *)
Module JSON.
Record t : Type := mk {
  _bins : list Bin.t;
  _maxBins : Z;
  _weighted : bool;
  _freeze : Z;
  _warmUp : Z;
  _count : Q;
  _min : option num;
  _max : option num;
  _tss : Q
}.
End JSON.

(** [toJSON()] *)
Definition toJSON (s : Sketch) : JSON.t :=
  JSON.mk (StreamHist.toArray s) (_maxBins s) (_weighted s) (_freeze s)
          (_warmUp s) (_count s) (_min s) (_max s) (_tss s).

(** [StreamHist.fromJSON(json)]: a sketch built with the defaults, every
    property of [json] but [_bins] assigned to it, and the bins inserted
    into its tree one by one. *)
Definition fromJSON `{Mathjs} (json : JSON.t) : outcome unit * Sketch :=
  match StreamHist.StreamHist JUndefined JUndefined JUndefined JUndefined with
  | (Ret _, obj) =>
      let obj := set_maxBins (JSON._maxBins json) obj in
      let obj := set_weighted (JSON._weighted json) obj in
      let obj := set_freeze (JSON._freeze json) obj in
      let obj := set_warmUp (JSON._warmUp json) obj in
      let obj := set_count (JSON._count json) obj in
      let obj := set_min (JSON._min json) obj in
      let obj := set_max (JSON._max json) obj in
      let obj := set_tss (JSON._tss json) obj in
      (Ret tt,
       set_bins (fold_left (fun tr bin => RBTree.insert compareBins bin tr)
                           (JSON._bins json) (_bins obj)) obj)
  | failed => failed
  end.

(** [fastHist(input, k)]: [new StreamHist(k).push(input).toArray()] *)
Definition fastHist `{Mathjs} (input : list Q) (k : jsval) : outcome (list Bin.t) :=
  match StreamHist.StreamHist k JUndefined JUndefined JUndefined with
  | (Ret _, h) =>
      match StreamHist.push input None h with
      | (Ret _, h') => Ret (StreamHist.toArray h')
      | (Err e, _) => Err e
      end
  | (Err e, _) => Err e
  end.

(** ** The sketch in double precision

    The methods that compute with the means and the counts of the bins,
    read with the arithmetic of doubles: every sum, difference, product
    and quotient is rounded. Comparisons are exact, as they are on
    doubles. The methods that do no arithmetic are those of [StreamHist]
    above. As there, the fields of a bin and the count of the sketch are
    finite numbers, and a run stops with [NotFinite] where an infinity or
    a NaN would be stored in one of them. The points and the weights
    passed to these methods are doubles. *)
Module Rounded.
Section Methods.
Context `{Mathjs}.
Local Open Scope js_scope.

(** A computed number that is stored in a field. *)
Definition finite (x : num) : M Q :=
  match x with
  | Fin q => ret q
  | _ => fail NotFinite
  end.

(** [math.log(x)]: the parameter on a finite number. *)
Definition log (x : num) : num :=
  match x with
  | Fin q => Fin (math_log q)
  | PInf => PInf
  | _ => NaN
  end.

(** [diffBins(a, b, weighted)] *)
Definition diffBins (a b : Bin.t) (weighted : bool) : num :=
  let diff := Double.pow2 (Double.sub (Fin (Bin.mean b)) (Fin (Bin.mean a))) in
  if weighted
  then Double.mul diff
         (log (Double.add (Fin math_E) (Fin (Qmin (Bin.count a) (Bin.count b)))))
  else diff.

(** [combineBins(a, b)]: the new contents of [a], which the code updates
    in place and returns; [None] when one of them is not finite. *)
Definition combineBins (a b : Bin.t) : option Bin.t :=
  let am := Fin (Bin.mean a) in
  let ac := Fin (Bin.count a) in
  let bm := Fin (Bin.mean b) in
  let bc := Fin (Bin.count b) in
  let numerator := Double.add (Double.mul bm bc) (Double.mul am ac) in
  let mean := Double.div numerator (Double.add ac bc) in
  let tss := Double.add (Double.mul (Double.pow2 (Double.sub am mean)) ac)
                        (Double.mul (Double.pow2 (Double.sub bm mean)) bc) in
  match mean, Double.add ac bc,
        Double.add (Fin (Bin.tss a)) (Double.add (Fin (Bin.tss b)) tss) with
  | Fin mean, Fin count, Fin tss => Some (Bin.mk mean count tss (Bin.cumn a))
  | _, _, _ => None
  end.

(** [findNearest(p)] *)
Definition findNearest (p : Q) : M (option ref) :=
  s <- get ;;
  if (StreamHist.size s =? 0)%Z then ret None
  else
    let tr := StreamHist.bins s in
    let iter := RBTree.lowerBound (compareBins (key_mean p)) tr in
    let iter := match RBTree.data tr iter with
                | None => RBTree.prev tr iter
                | Some _ => iter
                end in
    nearest <- nonnull (deref tr iter) ;;
    if Qeq_bool (Bin.mean (snd nearest)) p then ret (Some nearest)
    else
      match deref tr (RBTree.prev tr iter) with
      | Some prev =>
          if Num.ltb (Double.abs (Double.sub (Fin (Bin.mean (snd prev))) (Fin p)))
                     (Double.abs (Double.sub (Fin (Bin.mean (snd nearest))) (Fin p)))
          then ret (Some prev)
          else ret (Some nearest)
      | None => ret (Some nearest)
      end.

(** The test of [_insert] on the bin [findNearest] returned: whether the
    weight is added to that bin. *)
Definition joins (x : Q) (nearest : Bin.t) (s : Sketch) : bool :=
  Qeq_bool (Bin.mean nearest) x
  || (StreamHist.isFrozen s && (StreamHist.size s =? _maxBins s)%Z).

(** [_insert(x, count)] *)
Definition _insert (x cnt : Q) : M unit :=
  modify (fun s => set_min (Some (Num.min (or_else PInf (_min s)) (Fin x))) s) ;;
  modify (fun s => set_max (Some (Num.max (or_else NInf (_max s)) (Fin x))) s) ;;
  s <- get ;;
  count <- finite (Double.add (Fin (_count s)) (Fin cnt)) ;;
  modify (set_count count) ;;
  modify (set_tss 0) ;;
  nearest <- findNearest x ;;
  s <- get ;;
  match nearest with
  | Some (i, b) =>
      if joins x b s
      then
        count <- finite (Double.add (Fin (Bin.count b)) (Fin cnt)) ;;
        modify (fun s =>
          set_bins (RBTree.update i (Bin.set_count count) (StreamHist.bins s)) s)
      else StreamHist._newBin x cnt
  | None => StreamHist._newBin x cnt
  end.

(** The inner loop of [_compress], as in [StreamHist._compress_scan];
    [maxDiff] starts at [Infinity]. *)
Fixpoint _compress_scan (w : bool) (a : Bin.t) (i : nat) (rest : list Bin.t)
    (maxDiff : num) (pick : option ref) : option ref :=
  match rest with
  | [] => pick
  | b :: rest' =>
      let diff := diffBins a b w in
      if Num.ltb diff maxDiff
      then _compress_scan w b (S i) rest' diff (Some (i, b))
      else _compress_scan w b (S i) rest' maxDiff pick
  end.

(** One pass of the [while] loop of [_compress]: the scan, then
    [combineBins(bi, bi1)] and [remove(bi1)]. [pick] holds [bi] (by
    position) and [bi1] as the pass before left them. *)
Definition _compress_pass (pick : option ref) (s : Sketch)
    : outcome (option ref) * Sketch :=
  let pick := match StreamHist.bins s with
              | [] => pick
              | a :: rest => _compress_scan (_weighted s) a 0 rest PInf pick
              end in
  match pick with
  | None => (Err TypeError, s)
  | Some (i, bi1) =>
      match nth_error (StreamHist.bins s) i with
      | None => (Err NoTermination, s)
      | Some bi =>
          match combineBins bi bi1 with
          | None => (Err NotFinite, s)
          | Some merged =>
              let tr := RBTree.update i (fun _ => merged) (StreamHist.bins s) in
              let tr := RBTree.remove compareBins bi1 tr in
              (Ret (Some (i, bi1)), set_bins tr s)
          end
      end
  end.

(** The [while] loop of [_compress]; [fuel] bounds the number of passes. *)
Fixpoint _compress_loop (fuel : nat) (pick : option ref) (s : Sketch)
    : outcome unit * Sketch :=
  if (StreamHist.size s >? _maxBins s)%Z then
    match fuel with
    | O => (Err NoTermination, s)
    | S fuel' =>
        match _compress_pass pick s with
        | (Ret pick', s') => _compress_loop fuel' pick' s'
        | (Err e, s') => (Err e, s')
        end
    end
  else (Ret tt, s).

(** [_compress()] *)
Definition _compress : M unit :=
  fun s => _compress_loop (S (length (StreamHist.bins s))) None s.

(** The accessor [maxBins(maxBins)] *)
Definition maxBins (v : jsval) : M Z :=
  (if not_nullish v then
     modify (set_maxBins (match Number_isInteger v with
                          | Some n => n
                          | None => 100%Z
                          end)) ;;
     s <- get ;;
     if (StreamHist.size s >? _maxBins s)%Z then _compress else ret tt
   else ret tt) ;;
  s <- get ;;
  ret (_maxBins s).

(** [new StreamHist(maxbins, weighted, freeze, warmUp)] *)
Definition StreamHist (maxbins weighted_ freeze_ warmUp_ : jsval) : outcome unit * Sketch :=
  (maxBins (js_or maxbins (JNum 100)) ;;
   StreamHist.weighted (js_or weighted_ (JBool false)) ;;
   StreamHist.freeze (js_or freeze_ (JNum 0)) ;;
   StreamHist.warmUp (js_or warmUp_ (JNum 0)) ;;
   StreamHist.reset) StreamHist.blank.

(** One turn of the loop of [push]. *)
Definition push_point (x cnt : Q) : M unit :=
  _insert x cnt ;;
  _compress ;;
  s <- get ;;
  if Qeq_bool (StreamHist.count s) (inject_Z (_warmUp s))
  then modify (fun s =>
         set_bins (map (fun b => Bin.mk (Bin.mean b) 1 0 (Bin.cumn b)) (StreamHist.bins s)) s)
  else ret tt.

Fixpoint push_loop (p : list Q) (cnt : Q) : M unit :=
  match p with
  | [] => ret tt
  | x :: p' => push_point x cnt ;; push_loop p' cnt
  end.

(** [count || 1], [count] being [None] when the argument is left out. *)
Definition weight (cnt : option Q) : Q :=
  match cnt with
  | Some c => if Qeq_bool c 0 then 1 else c
  | None => 1
  end.

(** [push(p, count)] *)
Definition push (p : list Q) (cnt : option Q) : M unit :=
  push_loop p (weight cnt).

(** The first statements of [merge(that, maxBins)]: the count and the
    limits. *)
Definition merge_totals (that : Sketch) : M unit :=
  s <- get ;;
  count <- finite (Double.add (Fin (_count s)) (Fin (StreamHist.count that))) ;;
  modify (set_count count) ;;
  modify (fun s => set_min (Some (Num.min (or_else PInf (StreamHist.min s))
                                          (or_else PInf (StreamHist.min that)))) s) ;;
  modify (fun s => set_max (Some (Num.max (or_else NInf (StreamHist.max s))
                                          (or_else NInf (StreamHist.max that)))) s).

(** The capacity [merge(that, maxBins)] passes to the accessor. *)
Definition merge_capacity (that : Sketch) (maxBins_ : jsval) (s : Sketch) : Z :=
  let minBins := Z.min (_maxBins s) (_maxBins that) in
  let maxBins_ := match Number_isInteger maxBins_ with
                  | Some n => n
                  | None => minBins
                  end in
  Z.min maxBins_ (_maxBins s + _maxBins that).

(** The first statements of [merge(that, maxBins)], up to the new capacity. *)
Definition merge_scalars (that : Sketch) (maxBins_ : jsval) : M unit :=
  merge_totals that ;;
  s <- get ;;
  maxBins (JNum (inject_Z (merge_capacity that maxBins_ s))) ;;
  ret tt.

(** [merge(that, maxBins)]. The bins of [that] are inserted as they are:
    the receiver shares them with [that] from then on, and only the
    receiver is followed here. *)
Definition merge (that : Sketch) (maxBins_ : jsval) : M unit :=
  merge_scalars that maxBins_ ;;
  StreamHist.merge_bins that ;;
  _compress.

(** The pass of [_cumulate] over the bins; [None] when a cumulative count
    is not finite. *)
Fixpoint cumulate_bins (cumn : Q) (tr : list Bin.t) : option (list Bin.t * Q) :=
  match tr with
  | [] => Some ([], cumn)
  | c :: tr' =>
      match Double.add (Fin cumn) (Double.div (Fin (Bin.count c)) (Fin 2)),
            Double.add (Fin cumn) (Fin (Bin.count c)) with
      | Fin half, Fin cumn' =>
          match cumulate_bins cumn' tr' with
          | Some (tr'', total) => Some (Bin.set_cumn half c :: tr'', total)
          | None => None
          end
      | _, _ => None
      end
  end.

(** [_cumulate()] *)
Definition _cumulate : M unit :=
  s <- get ;;
  if Qeq_bool (_count s) (_cumn s) then ret tt
  else
    match cumulate_bins 0 (StreamHist.bins s) with
    | Some (tr, cumn) =>
        modify (set_bins tr) ;;
        modify (set_cumn cumn) ;;
        modify (set_count cumn)
    | None => fail NotFinite
    end.

(** [_quantile(q)] *)
Definition _quantile (q : Q) : M value :=
  s <- get ;;
  if (StreamHist.size s =? 0)%Z then ret Null
  else if Qle_bool q 0 then ret (of_null (StreamHist.min s))
  else if Qle_bool 1 q then ret (of_null (StreamHist.max s))
  else
    sv <- finite (Double.mul (Fin (StreamHist.count s)) (Fin q)) ;;
    _cumulate ;;
    '(lower, upper) <- StreamHist._boundCumn sv ;;
    lower <- nonnull lower ;;
    let lower := snd lower in
    let d := Double.sub (cumn_num lower) (Fin sv) in
    upper <- nonnull upper ;;
    let upper := snd upper in
    let a := Double.sub (Fin (Bin.count upper)) (Fin (Bin.count lower)) in
    let z :=
      if Num.eqb a (Fin 0) then
        let b := Double.sub (cumn_num upper) (cumn_num lower) in
        if Num.eqb b (Fin 0) then Fin 0
        else Double.div (Double.sub (Fin sv) (cumn_num lower)) b
      else
        let b := Double.mul (Fin 2) (Fin (Bin.count lower)) in
        let c := Double.mul (Fin 2) d in
        let disc := Double.sub (Double.mul b b) (Double.mul (Double.mul (Fin 4) a) c) in
        let root := match disc with
                    | Fin x => math_sqrt x
                    | PInf => PInf
                    | _ => NaN
                    end in
        Double.div (Double.add (Num.neg b) root) (Double.mul (Fin 2) a) in
    ret (Num (Double.add (Fin (Bin.mean lower))
                (Double.mul (Double.sub (Fin (Bin.mean upper)) (Fin (Bin.mean lower))) z))).

(** [quantile(p)] for a single quantile. *)
Definition quantile (p : Q) : M value := _quantile p.

(** [median()] *)
Definition median : M value :=
  s <- get ;;
  if Qlt_bool (inject_Z (StreamHist.size s)) (StreamHist.count s) then quantile (1 # 2)
  else
    let tr := StreamHist.bins s in
    half <- finite (Double.div (Fin (StreamHist.count s)) (Fin 2)) ;;
    let iter := RBTree.lowerBound (compareBins (key_mean half)) tr in
    if Qeq_bool (js_rem (StreamHist.count s) 2) 0 then
      let upper := deref tr iter in
      let lower := deref tr (RBTree.prev tr iter) in
      (* combineBins(lower, upper) reads [b.mean] first, then [a.mean] *)
      upper <- nonnull upper ;;
      lower <- nonnull lower ;;
      match combineBins (snd lower) (snd upper) with
      | None => fail NotFinite
      | Some merged =>
          modify (fun s =>
            set_bins (RBTree.update (fst lower) (fun _ => merged) (StreamHist.bins s)) s) ;;
          ret (Num (Fin (Bin.mean merged)))
      end
    else
      lower <- nonnull (deref tr (RBTree.prev tr iter)) ;;
      ret (Num (Fin (Bin.mean (snd lower)))).

End Methods.
End Rounded.

(** ** The sketches of the examples *)

(** [new StreamHist()] *)
Definition new_default `{Mathjs} : Sketch :=
  snd (StreamHist.StreamHist JUndefined JUndefined JUndefined JUndefined).

(** [new StreamHist().push(p)] *)
Definition pushed `{Mathjs} (p : list Q) : Sketch :=
  snd (StreamHist.push p None new_default).

(** A fixed choice of the mathjs functions for the closed examples. The
    examples run unweighted sketches and stay on the linear branch of
    [_quantile]: none of them calls [math.log] or [math.sqrt], and each
    holds as stated for any other choice. *)
Definition example_math : Mathjs :=
  {| math_sqrt := fun _ => NaN; math_log := fun _ => 0; math_E := 0 |}.

(** [new StreamHist(maxbins, false, 0, warmUp)] in the examples. *)
Definition example_new (maxbins warmUp_ : jsval) : Sketch :=
  snd (StreamHist.StreamHist (H := example_math) maxbins JUndefined JUndefined warmUp_).

(** [new StreamHist(2).push([1, 2, 3])] *)
Definition example_a : Sketch :=
  snd (StreamHist.push (H := example_math) [1; 2; 3] None (example_new (JNum 2) JUndefined)).
(** [new StreamHist(5).push([10, 20])] *)
Definition example_b : Sketch :=
  snd (StreamHist.push (H := example_math) [10; 20] None (example_new (JNum 5) JUndefined)).
(** [example_a.merge(example_b)] *)
Definition example_ab : Sketch :=
  snd (StreamHist.merge (H := example_math) example_b JUndefined example_a).

(** [new StreamHist(100, false, 0, 3).push([1, 1, 5])]: the third point
    brings [count()] to [warmUp()], and the two bins are set back to a
    count of 1. *)
Definition example_warm : Sketch :=
  snd (StreamHist.push (H := example_math) [1; 1; 5] None
         (example_new (JNum 100) (JNum 3))).

(** [h = new StreamHist().push([0, 1, 2, 3]); h.quantile(0.5); h.median()]:
    [quantile] runs the cumulative pass, which sets [_cumn] to [count()],
    and [median()] then combines the bins of means 1 and 2 in place. *)
Definition example_median : Sketch :=
  let h := pushed (H := example_math) [0; 1; 2; 3] in
  let h := snd (StreamHist.quantile (H := example_math) (1 # 2) h) in
  snd (StreamHist.median (H := example_math) h).

(** [new StreamHist(2, false, 1).push([1, 2, 3])]: frozen from the second
    point on and full after it, so that the third point goes to the bin
    of mean 2. *)
Definition example_frozen : Sketch :=
  snd (StreamHist.push (H := example_math) [1; 2; 3] None
         (snd (StreamHist.StreamHist (H := example_math)
                 (JNum 2) JUndefined (JNum 1) JUndefined))).

(** ** The sketches of the examples in double precision *)

(** [new StreamHist(2).push([0.1, 0.2, 0.4])]: the third point makes the
    sketch combine the bins of 0.1 and 0.2, whose sum is rounded. *)
Definition rounded_a : Sketch :=
  snd (Rounded.push (H := example_math)
         [Double.literal 0.1; Double.literal 0.2; Double.literal 0.4] None
         (example_new (JNum 2) JUndefined)).
(** [new StreamHist(5).push([10.5, 20.7])] *)
Definition rounded_b : Sketch :=
  snd (Rounded.push (H := example_math) [Double.literal 10.5; Double.literal 20.7] None
         (example_new (JNum 5) JUndefined)).
(** [rounded_a.merge(rounded_b)] *)
Definition rounded_ab : Sketch :=
  snd (Rounded.merge (H := example_math) rounded_b JUndefined rounded_a).


(** [new StreamHist(1).push([1.1, 1.3])], and the sketch when the
    [_insert(1.2, 1)] of a following [push(1.2)] has returned: two bins,
    of means 1.2 and 1.2000000000000002, for a capacity of one. *)
Definition rounded_one : Sketch :=
  snd (Rounded.push (H := example_math) [Double.literal 1.1; Double.literal 1.3] None
         (example_new (JNum 1) JUndefined)).
Definition rounded_full : Sketch :=
  snd (Rounded._insert (Double.literal 1.2) 1 rounded_one).

(** [new StreamHist().push([0.9999999999999999, 1])] after [median()],
    which has combined the two bins in place: both have the mean 1. *)
Definition rounded_twins : Sketch :=
  snd (Rounded.median (H := example_math)
         (snd (Rounded.push (H := example_math)
                 [Double.literal 0.9999999999999999; 1] None
                 (example_new JUndefined JUndefined)))).

(** ** Predicates on bins and sketches *)

(** Bins in strictly increasing order of their means: the order of the
    tree, which holds no two bins of the same mean. *)
Definition bin_lt (a b : Bin.t) : Prop := Bin.mean a < Bin.mean b.
Definition ordered (tr : list Bin.t) : Prop := StronglySorted bin_lt tr.
(** Every bin has a positive count. *)
Definition positive_counts (tr : list Bin.t) : Prop :=
  Forall (fun b => 0 < Bin.count b) tr.
(** The sum of the [count] fields of the bins. *)
Definition sum_counts (tr : list Bin.t) : Q :=
  fold_right (fun b acc => Bin.count b + acc) 0 tr.
(** No bin of the tree has the mean [m]. *)
Definition mean_free (m : Q) (tr : list Bin.t) : Prop :=
  Forall (fun b => ~ Bin.mean b == m) tr.

(** The configuration of a sketch: what [push] never changes. *)
Definition same_config (s s' : Sketch) : Prop :=
  _maxBins s' = _maxBins s /\ _weighted s' = _weighted s /\
  _freeze s' = _freeze s /\ _warmUp s' = _warmUp s.

(** What stays as it is across a compression. *)
Definition same_scalars (s s' : Sketch) : Prop :=
  _count s' = _count s /\ _cumn s' = _cumn s /\ _min s' = _min s /\
  _max s' = _max s /\ _tss s' = _tss s /\ same_config s s'.

(** A well-formed sketch: the tree is ordered by mean without duplicates,
    every bin has a positive count, and the capacity is at least one
    bin. *)
Definition well_formed (s : Sketch) : Prop :=
  ordered (_bins s) /\ positive_counts (_bins s) /\ (1 <= _maxBins s)%Z.

(** The weight argument of [push]: left out, or not negative (zero is
    replaced by one). *)
Definition weight_ok (cnt : option Q) : Prop :=
  match cnt with
  | Some c => 0 <= c
  | None => True
  end.

(** [count()] is the total count of the bins. *)
Definition counted (s : Sketch) : Prop :=
  _count s == sum_counts (_bins s).

(** A computation that leaves the sketch as it found it, whatever its
    outcome. *)
Definition readonly {A : Type} (m : M A) : Prop :=
  forall s, snd (m s) = s.

(** ** Runs without rounding effects

    The conditions under which the rounding of the arithmetic does not
    show in the bookkeeping of a run in double precision: the sums of
    counts it computes are exact, and a pass of [_compress] gives the bin
    it combines a mean at or above that of the first bin of the pair and
    below that of the second, so that the tree stays in order and
    [remove] unlinks the second bin. A call that meets them is called
    clean; each condition is a computation on the sketch and the
    arguments of the call. *)

(** The pair of bins a pass of [_compress] on [s] finds, if any: the
    position of [bi] and the bin [bi1]. *)
Definition picked_pair `{Mathjs} (s : Sketch) : option ref :=
  match StreamHist.bins s with
  | [] => None
  | a :: rest => Rounded._compress_scan (_weighted s) a 0 rest PInf None
  end.

(** A pass of [_compress] on [s] finds a pair and combines it so. *)
Definition clean_pass `{Mathjs} (s : Sketch) : bool :=
  match picked_pair s with
  | Some (i, bi1) =>
      match nth_error (StreamHist.bins s) i with
      | Some bi =>
          match Rounded.combineBins bi bi1 with
          | Some merged =>
              Qeq_bool (Bin.count merged) (Bin.count bi + Bin.count bi1)
              && Qle_bool (Bin.mean bi) (Bin.mean merged)
              && Qlt_bool (Bin.mean merged) (Bin.mean bi1)
          | None => false
          end
      | None => false
      end
  | None => false
  end.

(** Every pass of the loop of [_compress] from [s] on does. *)
Fixpoint clean_loop `{Mathjs} (fuel : nat) (s : Sketch) : bool :=
  if (StreamHist.size s >? _maxBins s)%Z then
    match fuel with
    | O => false
    | S fuel' =>
        clean_pass s && clean_loop fuel' (snd (Rounded._compress_pass None s))
    end
  else true.

Definition clean_compress `{Mathjs} (s : Sketch) : bool :=
  clean_loop (S (length (StreamHist.bins s))) s.

(** [_insert(x, count)] on [s] adds [count] to [count()] and, when it
    goes to an existing bin, to the count of that bin without rounding. *)
Definition clean_insert `{Mathjs} (x cnt : Q) (s : Sketch) : bool :=
  match Double.add (Fin (_count s)) (Fin cnt) with
  | Fin count =>
      Qeq_bool count (_count s + cnt)
      && match fst (Rounded.findNearest x s) with
         | Ret (Some (i, b)) =>
             if Rounded.joins x b (set_count count s)
             then Double.exact_sum (Bin.count b) cnt
             else true
         | _ => true
         end
  | _ => false
  end.

(** One turn of the loop of [push]. *)
Definition clean_point `{Mathjs} (x cnt : Q) (s : Sketch) : bool :=
  clean_insert x cnt s && clean_compress (snd (Rounded._insert x cnt s)).

Fixpoint clean_push_loop `{Mathjs} (p : list Q) (cnt : Q) (s : Sketch) : bool :=
  match p with
  | [] => true
  | x :: p' =>
      clean_point x cnt s
      && clean_push_loop p' cnt (snd (Rounded.push_point x cnt s))
  end.

(** [push(p, count)] on [s]. *)
Definition clean_push `{Mathjs} (p : list Q) (cnt : option Q) (s : Sketch) : bool :=
  clean_push_loop p (Rounded.weight cnt) s.

(** No bin of [tr] has the mean of a bin of [that]. *)
Definition disjoint_means (that tr : list Bin.t) : bool :=
  forallb (fun b => forallb (fun a => negb (Qeq_bool (Bin.mean a) (Bin.mean b))) tr) that.

(** [merge(that, maxBins)] on [s]: the two counts add up without
    rounding, the capacity the call settles on is at least one bin, both
    compressions (in the accessor, then after the insertion) are clean,
    and no bin of [that] has the mean of a bin of the receiver when it is
    inserted. *)
Definition clean_merge `{Mathjs} (that : Sketch) (maxBins_ : jsval) (s : Sketch) : bool :=
  Double.exact_sum (_count s) (StreamHist.count that)
  && let s0 := snd (Rounded.merge_totals that s) in
     let n := Rounded.merge_capacity that maxBins_ s0 in
     (1 <=? n)%Z
     && clean_compress (set_maxBins n s0)
     && let s1 := snd (Rounded.merge_scalars that maxBins_ s) in
        disjoint_means (StreamHist.bins that) (StreamHist.bins s1)
        && clean_compress (snd (StreamHist.merge_bins that s1)).


(** [b], at position [i] of [tr], is next to [p] in the order of the
    tree: every bin before it is below [p], and every bin after it, the
    next one excepted, is above [p]. *)
Definition beside (p : Q) (i : nat) (tr : list Bin.t) : Prop :=
  (forall j a, (j < i)%nat -> nth_error tr j = Some a -> Bin.mean a < p) /\
  (forall j a, (S i < j)%nat -> nth_error tr j = Some a -> p < Bin.mean a).

(** [b] is a bin of [tr] nearest to [p]: no bin of [tr] has its mean
    closer to [p]. *)
Definition nearest_to (p : Q) (b : Bin.t) (tr : list Bin.t) : Prop :=
  Forall (fun b' => Qabs (Bin.mean b - p) <= Qabs (Bin.mean b' - p)) tr.



(** The limits of a sketch are both [null] and it has no bin, or they are
    finite numbers and every bin mean lies between them. *)
Definition finite_limits (s : Sketch) : Prop :=
  match _min s, _max s with
  | None, None => _bins s = []
  | Some (Fin lo), Some (Fin hi) =>
      Forall (fun b => lo <= Bin.mean b /\ Bin.mean b <= hi) (_bins s)
  | _, _ => False
  end.

(** The sketch as [_insert(x, count)] leaves it, but for its bins. *)
Definition inserted (x cnt : Q) (s : Sketch) : Sketch :=
  set_tss 0
    (set_count (_count s + cnt)
       (set_max (Some (Num.max (or_else NInf (_max s)) (Fin x)))
          (set_min (Some (Num.min (or_else PInf (_min s)) (Fin x))) s))).

(** What the warm-up reset of [push] makes of a bin. *)
Definition warmed (b : Bin.t) : Bin.t := Bin.mk (Bin.mean b) 1 0 (Bin.cumn b).

(** * Properties *)

(** ** Comparisons on finite numbers *)

Lemma Qlt_bool_iff (x y : Q) : Qlt_bool x y = true <-> x < y.
Proof.
  unfold Qlt_bool. rewrite Qlt_alt. destruct (x ?= y); split; congruence.
Qed.

Lemma Qlt_bool_false (x y : Q) : Qlt_bool x y = false <-> y <= x.
Proof.
  split; intro Hxy.
  - apply Qnot_lt_le. rewrite <- Qlt_bool_iff. congruence.
  - destruct (Qlt_bool x y) eqn:E; [|reflexivity].
    apply Qlt_bool_iff in E. exfalso. apply (Qlt_not_le _ _ E Hxy).
Qed.

Lemma compareBins_Gt (a b : Bin.t) :
  compareBins a b = Gt <-> Bin.mean b < Bin.mean a.
Proof.
  unfold compareBins.
  destruct (Qlt_bool (Bin.mean b) (Bin.mean a)) eqn:E1.
  - apply Qlt_bool_iff in E1. tauto.
  - apply Qlt_bool_false in E1.
    destruct (Qlt_bool (Bin.mean a) (Bin.mean b)); split; try discriminate;
      intro Hlt; exfalso; apply (Qlt_not_le _ _ Hlt E1).
Qed.

Lemma compareBins_Lt (a b : Bin.t) :
  compareBins a b = Lt <-> Bin.mean a < Bin.mean b.
Proof.
  unfold compareBins.
  destruct (Qlt_bool (Bin.mean b) (Bin.mean a)) eqn:E1.
  - apply Qlt_bool_iff in E1. split; [discriminate|].
    intro Hlt. exfalso. apply (Qlt_irrefl (Bin.mean a)).
    apply (Qlt_trans _ _ _ Hlt E1).
  - destruct (Qlt_bool (Bin.mean a) (Bin.mean b)) eqn:E2.
    + apply Qlt_bool_iff in E2. tauto.
    + apply Qlt_bool_false in E2. split; [discriminate|].
      intro Hlt. exfalso. apply (Qlt_not_le _ _ Hlt E2).
Qed.

Lemma compareBins_Eq (a b : Bin.t) :
  compareBins a b = Eq <-> Bin.mean a == Bin.mean b.
Proof.
  unfold compareBins.
  destruct (Qlt_bool (Bin.mean b) (Bin.mean a)) eqn:E1.
  - apply Qlt_bool_iff in E1. split; [discriminate|].
    intro Heq. rewrite Heq in E1. exfalso. apply (Qlt_irrefl _ E1).
  - apply Qlt_bool_false in E1.
    destruct (Qlt_bool (Bin.mean a) (Bin.mean b)) eqn:E2.
    + apply Qlt_bool_iff in E2. split; [discriminate|].
      intro Heq. rewrite Heq in E2. exfalso. apply (Qlt_irrefl _ E2).
    + apply Qlt_bool_false in E2. split; [|reflexivity].
      intros _. apply Qle_antisym; assumption.
Qed.

(** ** The invariant of the bin store *)

Lemma ordered_app_inv (l1 l2 : list Bin.t) :
  ordered (l1 ++ l2) ->
  ordered l1 /\ ordered l2 /\
  forall a b, In a l1 -> In b l2 -> bin_lt a b.
Proof.
  induction l1 as [|x l1 IH]; simpl; intro Hs.
  - repeat split; [constructor | assumption | intros a b []].
  - apply StronglySorted_inv in Hs. destruct Hs as [Hs Hx].
    destruct (IH Hs) as (H1 & H2 & H3).
    rewrite Forall_app in Hx. destruct Hx as [Hx1 Hx2].
    repeat split; [constructor; assumption | assumption |].
    intros a b [<-|Ha] Hb.
    + rewrite Forall_forall in Hx2. apply Hx2, Hb.
    + apply H3; assumption.
Qed.

Lemma ordered_app (l1 l2 : list Bin.t) :
  ordered l1 -> ordered l2 ->
  (forall a b, In a l1 -> In b l2 -> bin_lt a b) ->
  ordered (l1 ++ l2).
Proof.
  induction l1 as [|x l1 IH]; simpl; intros H1 H2 H3; [assumption|].
  apply StronglySorted_inv in H1. destruct H1 as [H1 Hx].
  constructor.
  - apply IH; auto.
  - rewrite Forall_app. split; [assumption|].
    rewrite Forall_forall. intros b Hb. apply H3; auto.
Qed.

Lemma sum_counts_app (l1 l2 : list Bin.t) :
  sum_counts (l1 ++ l2) == sum_counts l1 + sum_counts l2.
Proof.
  induction l1 as [|x l1 IH]; simpl; [ring | rewrite IH; ring].
Qed.

Lemma sum_counts_perm (l1 l2 : list Bin.t) :
  Permutation l1 l2 -> sum_counts l1 == sum_counts l2.
Proof.
  induction 1; simpl.
  - reflexivity.
  - rewrite IHPermutation. reflexivity.
  - ring.
  - etransitivity; eassumption.
Qed.

(** ** The bin store: insertion, removal, update and search *)

Lemma insert_In (d y : Bin.t) (l : list Bin.t) :
  In y (RBTree.insert compareBins d l) -> y = d \/ In y l.
Proof.
  induction l as [|x l IH]; simpl.
  - intros [<-|[]]. now left.
  - destruct (compareBins x d); simpl; intros Hy.
    + now right.
    + destruct Hy as [<-|Hy]; [right; now left|].
      destruct (IH Hy); [now left | right; now right].
    + destruct Hy as [<-|Hy]; [now left | now right].
Qed.

Lemma insert_length_le (d : Bin.t) (l : list Bin.t) :
  (length (RBTree.insert compareBins d l) <= S (length l))%nat.
Proof.
  induction l as [|x l IH]; simpl; [lia|].
  destruct (compareBins x d); simpl; lia.
Qed.

Lemma insert_ordered (d : Bin.t) (l : list Bin.t) :
  ordered l -> ordered (RBTree.insert compareBins d l).
Proof.
  induction l as [|x l IH]; simpl; intro Hs.
  - repeat constructor.
  - pose proof (StronglySorted_inv Hs) as [Hl Hx].
    destruct (compareBins x d) eqn:E.
    + assumption.
    + apply compareBins_Lt in E. constructor; [apply IH, Hl|].
      rewrite Forall_forall in Hx |- *. intros y Hy.
      destruct (insert_In _ _ _ Hy) as [->|Hy']; [exact E | apply Hx, Hy'].
    + apply compareBins_Gt in E. constructor; [assumption|].
      constructor; [exact E|].
      rewrite Forall_forall in Hx |- *. intros y Hy.
      unfold bin_lt in *. apply Qlt_trans with (Bin.mean x); auto.
Qed.

Lemma insert_positive (d : Bin.t) (l : list Bin.t) :
  0 < Bin.count d -> positive_counts l ->
  positive_counts (RBTree.insert compareBins d l).
Proof.
  unfold positive_counts. rewrite !Forall_forall. intros Hd Hl y Hy.
  destruct (insert_In _ _ _ Hy) as [->|Hy']; auto.
Qed.

Lemma insert_fresh (d : Bin.t) (l : list Bin.t) :
  mean_free (Bin.mean d) l ->
  Permutation (d :: l) (RBTree.insert compareBins d l).
Proof.
  induction l as [|x l IH]; simpl; intro Hf.
  - reflexivity.
  - inversion Hf as [|? ? Hx Hl]; subst.
    destruct (compareBins x d) eqn:E.
    + apply compareBins_Eq in E. contradiction.
    + rewrite perm_swap. apply perm_skip, IH, Hl.
    + reflexivity.
Qed.

Lemma insert_last (d : Bin.t) (l : list Bin.t) :
  Forall (fun x => bin_lt x d) l ->
  RBTree.insert compareBins d l = l ++ [d].
Proof.
  induction l as [|x l IH]; simpl; intro Hl; [reflexivity|].
  inversion Hl as [|? ? Hx Hl']; subst.
  apply compareBins_Lt in Hx. rewrite Hx, IH; auto.
Qed.

Lemma remove_after_merge (b m : Bin.t) (l1 l2 : list Bin.t) :
  Forall (fun x => bin_lt x b) l1 -> bin_lt m b ->
  RBTree.remove compareBins b (l1 ++ m :: b :: l2) = l1 ++ m :: l2.
Proof.
  intros Hl Hm.
  assert (Hne : forall x, bin_lt x b -> compareBins b x = Gt)
    by (intros x Hx; apply compareBins_Gt, Hx).
  induction l1 as [|x l1 IH]; simpl.
  - rewrite (Hne _ Hm).
    assert (E : compareBins b b = Eq) by (apply compareBins_Eq; reflexivity).
    now rewrite E.
  - inversion Hl as [|? ? Hx Hl']; subst.
    rewrite (Hne _ Hx), IH; auto.
Qed.

Lemma update_app (f : Bin.t -> Bin.t) (x : Bin.t) (l1 l2 : list Bin.t) :
  RBTree.update (length l1) f (l1 ++ x :: l2) = l1 ++ f x :: l2.
Proof.
  induction l1 as [|y l1 IH]; simpl; [reflexivity | now rewrite IH].
Qed.

Lemma nth_error_app_mid (l1 l2 : list Bin.t) (x : Bin.t) :
  nth_error (l1 ++ x :: l2) (length l1) = Some x.
Proof.
  induction l1; simpl; auto.
Qed.

(** Replacing a bin by one of the same rank keeps the order. *)
Lemma ordered_replace (l1 l2 : list Bin.t) (x y : Bin.t) :
  ordered (l1 ++ x :: l2) ->
  (forall a, In a l1 -> bin_lt a x -> bin_lt a y) ->
  (forall b, In b l2 -> bin_lt x b -> bin_lt y b) ->
  ordered (l1 ++ y :: l2).
Proof.
  intros Hs H1 H2.
  apply ordered_app_inv in Hs. destruct Hs as (Hl1 & Hxl2 & Hcross).
  apply StronglySorted_inv in Hxl2. destruct Hxl2 as [Hl2 Hx].
  rewrite Forall_forall in Hx.
  apply ordered_app; [assumption | |].
  - constructor; [assumption|]. rewrite Forall_forall. intros b Hb.
    apply H2; auto.
  - intros a b Ha [<-|Hb].
    + apply H1; [assumption|]. apply Hcross; [assumption | now left].
    + apply Hcross; [assumption | now right].
Qed.

(** What [lowerBound] finds on the in-order sequence. *)
Lemma lowerBound_from_None (c : Bin.t -> comparison) (l : list Bin.t) (k : nat) :
  RBTree.lowerBound_from c l k = None -> Forall (fun d => c d = Gt) l.
Proof.
  revert k. induction l as [|x l IH]; simpl; intros k Hk; [constructor|].
  destruct (c x) eqn:E; try discriminate.
  constructor; [assumption | eapply IH, Hk].
Qed.

Lemma lowerBound_from_Some (c : Bin.t -> comparison) (l : list Bin.t) (k j : nat) :
  RBTree.lowerBound_from c l k = Some j ->
  exists l1 d l2,
    l = l1 ++ d :: l2 /\ j = (k + length l1)%nat /\
    Forall (fun d => c d = Gt) l1 /\ c d <> Gt.
Proof.
  revert k. induction l as [|x l IH]; simpl; intros k Hk; [discriminate|].
  destruct (c x) eqn:E.
  - injection Hk as <-. exists [], x, l. simpl.
    repeat split; [lia | constructor | congruence].
  - injection Hk as <-. exists [], x, l. simpl.
    repeat split; [lia | constructor | congruence].
  - destruct (IH _ Hk) as (l1 & d & l2 & -> & -> & Hl1 & Hd).
    exists (x :: l1), d, l2. simpl.
    repeat split; [lia | constructor; assumption | assumption].
Qed.

(** ** Insertion of a point *)

Lemma compare_key_mean_Gt (p : Q) (d : Bin.t) :
  compareBins (key_mean p) d = Gt <-> Bin.mean d < p.
Proof. apply compareBins_Gt. Qed.

Lemma deref_Some (l : list Bin.t) (i : nat) (b : Bin.t) :
  nth_error l i = Some b -> deref l (Some i) = Some (i, b).
Proof. simpl. now intros ->. Qed.

Lemma nth_error_last (l : list Bin.t) (x : Bin.t) :
  nth_error (l ++ [x]) (length l) = Some x.
Proof. apply nth_error_app_mid. Qed.

(** [findNearest] leaves the sketch as it is and returns [null] on an empty
    tree only; a bin it returns is a bin of the tree, and when its mean is
    not [p] no bin of the tree has the mean [p]. *)
Lemma findNearest_spec (p : Q) (s : Sketch) :
  ordered (_bins s) ->
  exists r, StreamHist.findNearest p s = (Ret r, s) /\
    match r with
    | None => _bins s = []
    | Some (i, b) =>
        nth_error (_bins s) i = Some b /\
        (Bin.mean b == p \/ mean_free p (_bins s))
    end.
Proof.
  intro Hs. unfold StreamHist.findNearest, bind, get, ret.
  unfold StreamHist.size, StreamHist.bins.
  destruct (_bins s) as [|b0 l0] eqn:El; [exists None; split; reflexivity|].
  rewrite <- El in *.
  replace (Z.of_nat (length (_bins s)) =? 0)%Z with false
    by (rewrite El; reflexivity).
  unfold RBTree.lowerBound.
  destruct (RBTree.lowerBound_from (compareBins (key_mean p)) (_bins s) 0)
    as [j|] eqn:Elb.
  - (* the iterator stands on a bin at or after [p] *)
    destruct (lowerBound_from_Some _ _ _ _ Elb) as (l1 & d & l2 & Hl & -> & Hl1 & Hd).
    change (0 + length l1)%nat with (length l1) in *.
    assert (Hnear : nth_error (_bins s) (length l1) = Some d)
      by (rewrite Hl; apply nth_error_app_mid).
    replace (RBTree.data (_bins s) (Some (length l1))) with (Some d)
      by (symmetry; exact Hnear).
    rewrite (deref_Some _ _ _ Hnear). simpl nonnull. unfold ret. cbn [snd].
    assert (Hfree : Qeq_bool (Bin.mean d) p = false -> mean_free p (_bins s)).
    { intro Hne. apply Qeq_bool_neq in Hne.
      assert (Hpd : p < Bin.mean d).
      { rewrite compare_key_mean_Gt in Hd. apply Qnot_lt_le in Hd.
        apply Qle_lteq in Hd. destruct Hd as [Hd|Hd]; [exact Hd|].
        exfalso. apply Hne. symmetry. exact Hd. }
      rewrite Hl in Hs |- *. apply ordered_app_inv in Hs.
      destruct Hs as (_ & Hs2 & _). apply StronglySorted_inv in Hs2.
      destruct Hs2 as [_ Hd2]. unfold mean_free. rewrite Forall_app. split.
      - eapply Forall_impl; [|exact Hl1]. intros a Ha.
        apply compare_key_mean_Gt in Ha. apply Qlt_not_eq, Ha.
      - constructor; [exact Hne|].
        eapply Forall_impl; [|exact Hd2]. unfold bin_lt. intros a Ha Heq.
        rewrite Heq in Ha. apply (Qlt_irrefl p).
        apply Qlt_trans with (Bin.mean d); assumption. }
    destruct (Qeq_bool (Bin.mean d) p) eqn:Eq.
    + eexists. split; [reflexivity|]. split; [exact Hnear|].
      left. apply Qeq_bool_iff, Eq.
    + destruct (deref (_bins s) (RBTree.prev (_bins s) (Some (length l1))))
        as [[i' b']|] eqn:Ep.
      * assert (Hprev : nth_error (_bins s) i' = Some b').
        { unfold deref in Ep.
          destruct (RBTree.prev (_bins s) (Some (length l1))) as [k|]; [|discriminate].
          destruct (nth_error (_bins s) k) eqn:En; [|discriminate].
          now injection Ep as <- <-. }
        destruct (Qlt_bool _ _); eexists; (split; [reflexivity|]);
          (split; [eassumption | right; auto]).
      * eexists. split; [reflexivity|]. split; [exact Hnear | right; auto].
  - (* every bin is below [p]: the iterator is stepped back to the last *)
    pose proof (lowerBound_from_None _ _ _ Elb) as Hall.
    assert (Hfree : mean_free p (_bins s)).
    { eapply Forall_impl; [|exact Hall]. intros a Ha.
      apply compare_key_mean_Gt in Ha. apply Qlt_not_eq, Ha. }
    destruct (exists_last (l:=_bins s)) as (l' & d & Hl);
      [rewrite El; discriminate|].
    assert (Hlen : length (_bins s) = S (length l'))
      by (rewrite Hl, length_app; simpl; lia).
    assert (Hit : RBTree.prev (_bins s) None = Some (length l'))
      by (simpl; rewrite Hlen; reflexivity).
    cbn [RBTree.data]. rewrite !Hit.
    assert (Hnear : nth_error (_bins s) (length l') = Some d)
      by (rewrite Hl; apply nth_error_last).
    rewrite (deref_Some _ _ _ Hnear). simpl nonnull. unfold ret. cbn [snd].
    destruct (Qeq_bool (Bin.mean d) p) eqn:Eq.
    + eexists. split; [reflexivity|]. split; [exact Hnear | right; exact Hfree].
    + destruct (deref (_bins s) (RBTree.prev (_bins s) (Some (length l'))))
        as [[i' b']|] eqn:Ep.
      * assert (Hprev : nth_error (_bins s) i' = Some b').
        { unfold deref in Ep.
          destruct (RBTree.prev (_bins s) (Some (length l'))) as [k|]; [|discriminate].
          destruct (nth_error (_bins s) k) eqn:En; [|discriminate].
          now injection Ep as <- <-. }
        destruct (Qlt_bool _ _); eexists; (split; [reflexivity|]);
          (split; [eassumption | right; auto]).
      * eexists. split; [reflexivity|]. split; [exact Hnear | right; auto].
Qed.

Lemma same_config_refl (s : Sketch) : same_config s s.
Proof. repeat split. Qed.

Lemma same_config_trans (s1 s2 s3 : Sketch) :
  same_config s1 s2 -> same_config s2 s3 -> same_config s1 s3.
Proof.
  unfold same_config. intros (-> & -> & -> & ->) (-> & -> & -> & ->).
  repeat split.
Qed.

Lemma sum_counts_replace (l1 l2 : list Bin.t) (x y : Bin.t) (c : Q) :
  Bin.count y == Bin.count x + c ->
  sum_counts (l1 ++ y :: l2) == sum_counts (l1 ++ x :: l2) + c.
Proof.
  intro Hy. rewrite !sum_counts_app. simpl. rewrite Hy. ring.
Qed.

Lemma positive_counts_replace (l1 l2 : list Bin.t) (x y : Bin.t) :
  positive_counts (l1 ++ x :: l2) -> 0 < Bin.count y ->
  positive_counts (l1 ++ y :: l2).
Proof.
  unfold positive_counts. rewrite !Forall_app. intros [H1 H2] Hy.
  inversion H2; subst. split; [assumption | constructor; assumption].
Qed.

(** [_insert] adds the weight [c] to the bins: to the bin whose mean is
    [x] (or, in a frozen, full sketch, to the nearest one) or as a new
    bin. The order of the bins and the sign of their counts are kept. *)
Lemma _insert_spec (x c : Q) (s : Sketch) :
  ordered (_bins s) -> positive_counts (_bins s) -> 0 < c ->
  exists s', StreamHist._insert x c s = (Ret tt, s') /\
    ordered (_bins s') /\ positive_counts (_bins s') /\
    (length (_bins s') <= S (length (_bins s)))%nat /\
    sum_counts (_bins s') == sum_counts (_bins s) + c /\
    _count s' = _count s + c /\ _cumn s' = _cumn s /\ same_config s s'.
Proof.
  intros Hs Hp Hc.
  unfold StreamHist._insert, bind at 1 2 3 4, modify.
  set (s1 := set_tss 0 _).
  assert (Hbins : _bins s1 = _bins s) by reflexivity.
  assert (Hs1 : ordered (_bins s1)) by (rewrite Hbins; exact Hs).
  destruct (findNearest_spec x s1 Hs1) as (r & Hr & Hspec).
  unfold bind at 1. rewrite Hr. unfold bind, get.
  assert (Hnew : mean_free x (_bins s) ->
    exists s', StreamHist._newBin x c s1 = (Ret tt, s') /\
      ordered (_bins s') /\ positive_counts (_bins s') /\
      (length (_bins s') <= S (length (_bins s)))%nat /\
      sum_counts (_bins s') == sum_counts (_bins s) + c /\
      _count s' = _count s + c /\ _cumn s' = _cumn s /\ same_config s s').
  { intro Hfree. eexists. split; [reflexivity|].
    unfold StreamHist.bins. rewrite Hbins. cbn [_bins set_bins].
    split; [apply insert_ordered, Hs|].
    split; [apply insert_positive; assumption|].
    split; [apply insert_length_le|].
    split; [|repeat split].
    rewrite <- (sum_counts_perm _ _ (insert_fresh (Bin.mk x c 0 None) (_bins s) Hfree)).
    simpl. ring. }
  destruct r as [[i b]|].
  - destruct Hspec as [Hnth Hmean]. rewrite Hbins in Hnth, Hmean.
    destruct (Qeq_bool (Bin.mean b) x ||
              StreamHist.isFrozen s1 && (StreamHist.size s1 =? _maxBins s1)%Z) eqn:Econd.
    + (* the weight goes to an existing bin *)
      eexists. split; [reflexivity|].
      unfold StreamHist.bins. rewrite Hbins. cbn [_bins set_bins].
      destruct (nth_error_split _ _ Hnth) as (l1 & l2 & Hl & Hi).
      rewrite Hl, <- Hi, update_app.
      rewrite Hl in Hs, Hp.
      split; [|split; [|split; [|split; [|repeat split]]]].
      * eapply ordered_replace; [exact Hs | |]; unfold bin_lt; simpl; auto.
      * eapply positive_counts_replace; [exact Hp|]. simpl.
        unfold positive_counts in Hp. rewrite Forall_app in Hp.
        destruct Hp as [_ Hp]. inversion Hp; subst.
        apply Qlt_trans with (Bin.count b); [assumption|].
        rewrite <- (Qplus_0_r (Bin.count b)) at 1.
        apply Qplus_lt_r. exact Hc.
      * rewrite !length_app. simpl. lia.
      * apply sum_counts_replace. simpl. reflexivity.
    + apply orb_false_iff in Econd. destruct Econd as [Ene _].
      apply Hnew. destruct Hmean as [Heq|Hfree]; [|exact Hfree].
      apply Qeq_bool_iff in Heq. congruence.
  - rewrite Hbins in Hspec. apply Hnew. rewrite Hspec. constructor.
Qed.

(** ** Compression *)

(** Two bins with positive counts combine into a bin strictly between
    them that carries both counts. *)
Lemma combineBins_between (a b : Bin.t) :
  0 < Bin.count a -> 0 < Bin.count b -> Bin.mean a < Bin.mean b ->
  exists m, combineBins a b = Some m /\
    Bin.mean a < Bin.mean m /\ Bin.mean m < Bin.mean b /\
    Bin.count m = Bin.count a + Bin.count b.
Proof.
  intros Ha Hb Hab. unfold combineBins.
  assert (Htot : 0 < Bin.count a + Bin.count b) by lra.
  destruct (Qeq_bool (Bin.count a + Bin.count b) 0) eqn:E.
  - apply Qeq_bool_iff in E. lra.
  - eexists. split; [reflexivity|]. simpl. repeat split.
    + apply Qlt_shift_div_l; [exact Htot|]. nra.
    + apply Qlt_shift_div_r; [exact Htot|]. nra.
Qed.

Lemma ordered_merge_pair (l1 l2 : list Bin.t) (x y m : Bin.t) :
  ordered (l1 ++ x :: y :: l2) ->
  Bin.mean x < Bin.mean m -> Bin.mean m < Bin.mean y ->
  ordered (l1 ++ m :: l2) /\ Forall (fun a => bin_lt a y) l1.
Proof.
  intros Hs Hxm Hmy.
  apply ordered_app_inv in Hs. destruct Hs as (Hl1 & Hxy & Hcross).
  apply StronglySorted_inv in Hxy. destruct Hxy as [Hyl2 Hx].
  apply StronglySorted_inv in Hyl2. destruct Hyl2 as [Hl2 Hy].
  rewrite Forall_forall in Hy. split.
  - apply ordered_app; [assumption | |].
    + constructor; [assumption|]. rewrite Forall_forall. intros b Hb.
      unfold bin_lt in *. apply Qlt_trans with (Bin.mean y); auto.
    + intros a b Ha [<-|Hb].
      * unfold bin_lt. apply Qlt_trans with (Bin.mean x); [|assumption].
        apply Hcross; [assumption | now left].
      * apply Hcross; [assumption | right; now right].
  - rewrite Forall_forall. intros a Ha.
    apply Hcross; [assumption | right; now left].
Qed.

Section Compression.
Context `{Mathjs}.

(** The scan leaves [bi] and [bi1] as they were, or on two neighbours of
    the tree. *)
Lemma _compress_scan_spec (w : bool) (rest : list Bin.t) :
  forall (a : Bin.t) (k : nat) (md : option Q) (pick : option ref),
    let r := StreamHist._compress_scan w a k rest md pick in
    r = pick \/
    exists l1 x y l2,
      a :: rest = l1 ++ x :: y :: l2 /\ r = Some ((k + length l1)%nat, y).
Proof.
  induction rest as [|b rest IH]; intros a k md pick; simpl; [now left|].
  set (smaller := match md with None => true | Some m => _ end).
  destruct smaller.
  - right. destruct (IH b (S k) (Some (diffBins a b w)) (Some (k, b)))
      as [Hr|(l1 & x & y & l2 & Hl & Hr)].
    + exists [], a, b, rest. split; [reflexivity|].
      simpl in Hr. rewrite Hr. simpl. f_equal. f_equal. lia.
    + exists (a :: l1), x, y, l2. split; [simpl; now rewrite Hl|].
      simpl in Hr. rewrite Hr. simpl. f_equal. f_equal. lia.
  - destruct (IH b (S k) md pick) as [Hr|(l1 & x & y & l2 & Hl & Hr)].
    + now left.
    + right. exists (a :: l1), x, y, l2. split; [simpl; now rewrite Hl|].
      simpl in Hr. rewrite Hr. simpl. f_equal. f_equal. lia.
Qed.

(** With [maxDiff] at [Infinity] and a second bin to read, the scan does
    pick a pair. *)
Lemma _compress_scan_picks (w : bool) (a b : Bin.t) (rest : list Bin.t)
    (pick : option ref) :
  exists l1 x y l2,
    a :: b :: rest = l1 ++ x :: y :: l2 /\
    StreamHist._compress_scan w a 0 (b :: rest) None pick = Some (length l1, y).
Proof.
  simpl.
  destruct (_compress_scan_spec w rest b 1 (Some (diffBins a b w)) (Some (0%nat, b)))
    as [Hr|(l1 & x & y & l2 & Hl & Hr)].
  - exists [], a, b, rest. split; [reflexivity | exact Hr].
  - exists (a :: l1), x, y, l2. split; [simpl; now rewrite Hl | exact Hr].
Qed.

Lemma same_scalars_set_bins (tr : list Bin.t) (s : Sketch) :
  same_scalars s (set_bins tr s).
Proof. repeat split. Qed.

Lemma same_scalars_trans (s1 s2 s3 : Sketch) :
  same_scalars s1 s2 -> same_scalars s2 s3 -> same_scalars s1 s3.
Proof.
  unfold same_scalars.
  intros (-> & -> & -> & -> & -> & H12) (-> & -> & -> & -> & -> & H23).
  repeat split; try reflexivity; eapply same_config_trans; eassumption.
Qed.

(** On a well-formed tree and with a capacity of at least one bin, the
    loop of [_compress] ends within its bound: it returns, the tree is
    still well formed and holds no more bins than the capacity, and the
    total count of the bins is what it was. *)
Lemma _compress_loop_spec (fuel : nat) :
  forall (pick : option ref) (s : Sketch),
    ordered (_bins s) -> positive_counts (_bins s) ->
    (1 <= _maxBins s)%Z ->
    (Z.of_nat (length (_bins s)) - _maxBins s <= Z.of_nat fuel)%Z ->
    exists s', StreamHist._compress_loop fuel pick s = (Ret tt, s') /\
      ordered (_bins s') /\ positive_counts (_bins s') /\
      (StreamHist.size s' <= _maxBins s')%Z /\
      (length (_bins s') <= length (_bins s))%nat /\
      ((StreamHist.size s <= _maxBins s)%Z -> _bins s' = _bins s) /\
      sum_counts (_bins s') == sum_counts (_bins s) /\
      same_scalars s s'.
Proof.
  induction fuel as [|fuel IH]; intros pick s Hs Hp Hmax Hfuel.
  - simpl. destruct (StreamHist.size s >? _maxBins s)%Z eqn:E.
    + apply Z.gtb_lt in E. unfold StreamHist.size, StreamHist.bins in E. lia.
    + exists s. rewrite Z.gtb_ltb, Z.ltb_ge in E.
      repeat split; auto; reflexivity.
  - simpl. destruct (StreamHist.size s >? _maxBins s)%Z eqn:E.
    + apply Z.gtb_lt in E. unfold StreamHist.size, StreamHist.bins in *.
      destruct (_bins s) as [|a [|b rest]] eqn:El; simpl length in E; try lia.
      destruct (_compress_scan_picks (_weighted s) a b rest pick)
        as (l1 & x & y & l2 & Hl & Hpick).
      rewrite Hpick, Hl, nth_error_app_mid.
      rewrite Hl in Hs, Hp.
      assert (Hx : 0 < Bin.count x /\ 0 < Bin.count y /\ Bin.mean x < Bin.mean y).
      { unfold positive_counts in Hp. rewrite Forall_app in Hp.
        destruct Hp as [_ Hp]. inversion Hp as [|? ? Hcx Hp']; subst.
        inversion Hp' as [|? ? Hcy _]; subst.
        apply ordered_app_inv in Hs. destruct Hs as (_ & Hs & _).
        apply StronglySorted_inv in Hs. destruct Hs as [_ Hs].
        inversion Hs; subst. auto. }
      destruct Hx as (Hcx & Hcy & Hxy).
      destruct (@combineBins_between x y Hcx Hcy Hxy) as (m & Hm & Hxm & Hmy & Hcm).
      rewrite Hm, update_app.
      destruct (@ordered_merge_pair l1 l2 x y m Hs Hxm Hmy) as [Hs' Hl1y].
      rewrite (@remove_after_merge y m l1 l2 Hl1y Hmy).
      set (s1 := set_bins (l1 ++ m :: l2) s).
      assert (Hp' : positive_counts (_bins s1)).
      { simpl. unfold positive_counts in *. rewrite Forall_app in *.
        destruct Hp as [Hp1 Hp2]. split; [assumption|].
        inversion Hp2 as [|? ? _ Hp3]; subst. inversion Hp3; subst.
        constructor; [rewrite Hcm; lra | assumption]. }
      assert (Hlen : length (_bins s1) = S (length l1 + length l2))
        by (simpl; rewrite length_app; simpl; lia).
      assert (Hlen0 : length (l1 ++ x :: y :: l2) = S (S (length l1 + length l2)))
        by (rewrite length_app; simpl; lia).
      assert (Hlen1 : S (S (length rest)) = S (S (length l1 + length l2)))
        by (rewrite <- Hlen0, <- Hl; reflexivity).
      simpl length in Hfuel.
      destruct (IH (Some (length l1, y)) s1) as (s' & Hrun & H1 & H2 & H3 & H4 & _ & H5 & H6);
        [exact Hs' | exact Hp' | exact Hmax | |].
      * change (_maxBins s1) with (_maxBins s). rewrite Hlen. lia.
      * exists s'. split; [exact Hrun|].
        split; [assumption|]. split; [assumption|]. split; [assumption|].
        split; [rewrite Hlen0; lia|].
        split; [intro Hle; rewrite Hlen0 in Hle; lia|].
        split.
        -- rewrite H5. simpl. rewrite !sum_counts_app. simpl.
           rewrite Hcm. ring.
        -- eapply same_scalars_trans; [apply same_scalars_set_bins | exact H6].
    + exists s. rewrite Z.gtb_ltb, Z.ltb_ge in E.
      repeat split; auto; reflexivity.
Qed.

Lemma _compress_spec (s : Sketch) :
  ordered (_bins s) -> positive_counts (_bins s) -> (1 <= _maxBins s)%Z ->
  exists s', StreamHist._compress s = (Ret tt, s') /\
    ordered (_bins s') /\ positive_counts (_bins s') /\
    (StreamHist.size s' <= _maxBins s')%Z /\
    (length (_bins s') <= length (_bins s))%nat /\
    ((StreamHist.size s <= _maxBins s)%Z -> _bins s' = _bins s) /\
    sum_counts (_bins s') == sum_counts (_bins s) /\
    same_scalars s s'.
Proof.
  intros Hs Hp Hmax. unfold StreamHist._compress.
  apply _compress_loop_spec; auto. unfold StreamHist.bins. lia.
Qed.

End Compression.

(** ** Pushing points *)

Lemma ordered_map (f : Bin.t -> Bin.t) (l : list Bin.t) :
  (forall b, Bin.mean (f b) = Bin.mean b) -> ordered l -> ordered (map f l).
Proof.
  intros Hf. induction l as [|x l IH]; simpl; intro Hs; [constructor|].
  apply StronglySorted_inv in Hs. destruct Hs as [Hl Hx].
  constructor; [apply IH, Hl|].
  rewrite Forall_map. eapply Forall_impl; [|exact Hx].
  unfold bin_lt. intros a. now rewrite !Hf.
Qed.

Section Pushing.
Context `{Mathjs}.

(** One turn of the loop of [push] on a well-formed sketch returns, keeps
    the sketch well formed and within its capacity, and raises [count()]
    by the weight; unless the turn ends in the warm-up reset, the total
    count of the bins rises by the weight too. *)
Lemma push_point_spec (x c : Q) (s : Sketch) :
  well_formed s -> 0 < c ->
  exists s', StreamHist.push_point x c s = (Ret tt, s') /\
    well_formed s' /\ (StreamHist.size s' <= _maxBins s')%Z /\
    same_config s s' /\ _count s' = _count s + c /\ _cumn s' = _cumn s /\
    (Qeq_bool (_count s + c) (inject_Z (_warmUp s)) = false ->
     sum_counts (_bins s') == sum_counts (_bins s) + c).
Proof.
  intros (Hs & Hp & Hmax) Hc. unfold StreamHist.push_point.
  destruct (_insert_spec x c s Hs Hp Hc)
    as (s1 & Hrun1 & Hs1 & Hp1 & _ & Hsum1 & Hcnt1 & Hcumn1 & Hcfg1).
  unfold bind at 1. rewrite Hrun1.
  assert (Hmax1 : (1 <= _maxBins s1)%Z) by (destruct Hcfg1 as [-> _]; exact Hmax).
  destruct (_compress_spec s1 Hs1 Hp1 Hmax1)
    as (s2 & Hrun2 & Hs2 & Hp2 & Hsize2 & _ & _ & Hsum2 & Hsc2).
  unfold bind at 1. rewrite Hrun2. unfold bind, get.
  destruct Hsc2 as (Hcnt2 & Hcumn2 & _ & _ & _ & Hcfg2).
  pose proof (same_config_trans _ _ _ Hcfg1 Hcfg2) as Hcfg.
  assert (Hmax2 : (1 <= _maxBins s2)%Z) by (destruct Hcfg as [-> _]; exact Hmax).
  unfold StreamHist.count.
  destruct (Qeq_bool (_count s2) (inject_Z (_warmUp s2))) eqn:Ewarm.
  - (* the warm-up reset *)
    eexists. split; [reflexivity|]. unfold StreamHist.bins.
    split; [split; [|split]|].
    + cbn [_bins set_bins]. apply ordered_map; [reflexivity | exact Hs2].
    + cbn [_bins set_bins]. unfold positive_counts. rewrite Forall_map.
      apply Forall_forall. intros b _. simpl. reflexivity.
    + exact Hmax2.
    + split; [|split; [|split; [|split]]].
      * unfold StreamHist.size, StreamHist.bins in *. cbn [_bins set_bins _maxBins].
        rewrite length_map. exact Hsize2.
      * exact Hcfg.
      * cbn [_count set_bins]. congruence.
      * cbn [_cumn set_bins]. congruence.
      * intro Hno. exfalso.
        rewrite Hcnt2, Hcnt1 in Ewarm.
        destruct Hcfg as (_ & _ & _ & Hw). rewrite Hw in Ewarm. congruence.
  - exists s2. split; [reflexivity|].
    split; [repeat split; assumption|].
    split; [exact Hsize2|]. split; [exact Hcfg|].
    split; [congruence|]. split; [congruence|].
    intros _. rewrite Hsum2. exact Hsum1.
Qed.

Lemma sum_counts_nonneg (l : list Bin.t) :
  positive_counts l -> 0 <= sum_counts l.
Proof.
  induction 1 as [|b l Hb _ IH]; simpl; [apply Qle_refl | lra].
Qed.

(** The accessor [maxBins] called with an argument that is not nullish. *)
Lemma maxBins_set_unfold (v : jsval) (s : Sketch) :
  not_nullish v = true ->
  StreamHist.maxBins v s =
  let s0 := set_maxBins (match Number_isInteger v with
                         | Some n => n
                         | None => 100%Z
                         end) s in
  if (StreamHist.size s0 >? _maxBins s0)%Z
  then match StreamHist._compress s0 with
       | (Ret _, s') => (Ret (_maxBins s'), s')
       | (Err e, s') => (Err e, s')
       end
  else (Ret (_maxBins s0), s0).
Proof.
  intro Hv. unfold StreamHist.maxBins. rewrite Hv.
  cbv [bind modify get ret]. cbv zeta.
  destruct (StreamHist.size _ >? _maxBins _)%Z; reflexivity.
Qed.

Lemma not_nullish_js_or (v d : jsval) :
  not_nullish d = true -> not_nullish (js_or v d) = true.
Proof.
  intro Hd. unfold js_or. destruct (truthy v) eqn:E; [|exact Hd].
  destruct v; simpl in *; congruence.
Qed.

(** The constructor returns an empty sketch whenever the capacity it
    settles on is not negative: the integer passed as [maxbins], or 100
    when [maxbins] is falsy or not an integer. *)
Lemma StreamHist_capacity (v w f wu : jsval) :
  let n := match Number_isInteger (js_or v (JNum 100)) with
           | Some n => n
           | None => 100%Z
           end in
  (0 <= n)%Z ->
  exists s, StreamHist.StreamHist v w f wu = (Ret tt, s) /\
    _bins s = [] /\ _maxBins s = n /\ _count s = 0 /\ _cumn s = 0 /\
    _warmUp s = match Number_isInteger (js_or wu (JNum 0)) with
                | Some n => n
                | None => 0%Z
                end.
Proof.
  intros n Hn. unfold StreamHist.StreamHist.
  unfold bind at 1.
  rewrite maxBins_set_unfold by (apply not_nullish_js_or; reflexivity).
  fold n. cbv zeta.
  change (StreamHist.size (set_maxBins n StreamHist.blank)) with 0%Z.
  change (_maxBins (set_maxBins n StreamHist.blank)) with n.
  replace (0 >? n)%Z with false by (symmetry; rewrite Z.gtb_ltb; apply Z.ltb_ge; lia).
  unfold StreamHist.weighted, StreamHist.freeze, StreamHist.warmUp, StreamHist.reset.
  rewrite !not_nullish_js_or by reflexivity.
  unfold bind, modify, get, ret.
  eexists. split; [reflexivity|]. cbn. repeat split; auto.
Qed.

(** The constructor, given a positive integer as [maxbins], returns an
    empty sketch with that capacity. *)
Lemma StreamHist_positive (q : Q) (w f wu : jsval) :
  Q_is_integer q = true -> 0 < q ->
  exists s, StreamHist.StreamHist (JNum q) w f wu = (Ret tt, s) /\
    _bins s = [] /\ _maxBins s = Q_to_Z q /\ (1 <= Q_to_Z q)%Z /\
    _count s = 0 /\ _cumn s = 0 /\
    _warmUp s = match Number_isInteger (js_or wu (JNum 0)) with
                | Some n => n
                | None => 0%Z
                end.
Proof.
  intros Hint Hpos.
  assert (Hz : (1 <= Q_to_Z q)%Z).
  { unfold Q_is_integer in Hint. apply Z.eqb_eq in Hint.
    unfold Q_to_Z. destruct q as [n d]. simpl in *.
    unfold Qlt in Hpos. simpl in Hpos.
    apply Z.mod_divide in Hint; [|lia]. destruct Hint as [k Hk].
    subst n. rewrite Z.div_mul by lia. nia. }
  assert (Ht : truthy (JNum q) = true).
  { simpl. destruct (Qeq_bool q 0) eqn:E; [|reflexivity].
    apply Qeq_bool_iff in E. lra. }
  pose proof (StreamHist_capacity (JNum q) w f wu) as Hcap.
  unfold js_or at 1 in Hcap. rewrite Ht in Hcap.
  cbn [Number_isInteger] in Hcap. rewrite Hint in Hcap. cbv zeta in Hcap.
  destruct Hcap as (s & Hrun & Hb & Hm & Hc & Hcu & Hwu); [lia|].
  exists s. repeat split; assumption.
Qed.

End Pushing.

(** ** Merging *)


Lemma Number_isInteger_inject_Z (n : Z) :
  Number_isInteger (JNum (inject_Z n)) = Some n.
Proof.
  unfold Number_isInteger, Q_is_integer, Q_to_Z. simpl.
  rewrite Z.mod_1_r, Z.div_1_r. reflexivity.
Qed.

Lemma fold_insert_spec (l2 : list Bin.t) :
  forall l1 : list Bin.t,
    ordered l2 ->
    (forall b, In b l2 -> mean_free (Bin.mean b) l1) ->
    Permutation (l1 ++ l2)
      (fold_left (fun tr item => RBTree.insert compareBins item tr) l2 l1).
Proof.
  induction l2 as [|b l2 IH]; intros l1 Hs Hfree; simpl.
  - rewrite app_nil_r. reflexivity.
  - apply StronglySorted_inv in Hs. destruct Hs as [Hs Hb].
    rewrite <- IH; [| exact Hs |].
    + rewrite <- (insert_fresh b l1) by (apply Hfree; now left).
      symmetry. apply Permutation_middle.
    + intros b' Hb'. unfold mean_free. rewrite Forall_forall. intros y Hy.
      destruct (insert_In _ _ _ Hy) as [->|Hy'].
      * rewrite Forall_forall in Hb. apply Qlt_not_eq, Hb, Hb'.
      * specialize (Hfree b' (or_intror Hb')). unfold mean_free in Hfree.
        rewrite Forall_forall in Hfree. apply Hfree, Hy'.
Qed.

Lemma fold_insert_ordered (l2 l1 : list Bin.t) :
  ordered l1 ->
  ordered (fold_left (fun tr item => RBTree.insert compareBins item tr) l2 l1).
Proof.
  revert l1. induction l2 as [|b l2 IH]; intros l1 Hs; simpl; [exact Hs|].
  apply IH, insert_ordered, Hs.
Qed.

Lemma fold_insert_positive (l2 l1 : list Bin.t) :
  positive_counts l1 -> positive_counts l2 ->
  positive_counts (fold_left (fun tr item => RBTree.insert compareBins item tr) l2 l1).
Proof.
  revert l1. induction l2 as [|b l2 IH]; intros l1 H1 H2; simpl; [exact H1|].
  inversion H2; subst. apply IH; [apply insert_positive|]; assumption.
Qed.

(** Inserting the bins of an ordered array into an empty tree rebuilds
    the array. *)
Lemma fold_insert_sorted (l2 : list Bin.t) :
  forall l1 : list Bin.t,
    ordered (l1 ++ l2) ->
    fold_left (fun tr item => RBTree.insert compareBins item tr) l2 l1 = l1 ++ l2.
Proof.
  induction l2 as [|b l2 IH]; intros l1 Hs; simpl.
  - now rewrite app_nil_r.
  - rewrite insert_last.
    + rewrite IH; rewrite <- app_assoc; [reflexivity | exact Hs].
    + apply ordered_app_inv in Hs. destruct Hs as (_ & _ & Hcross).
      rewrite Forall_forall. intros x Hx. apply Hcross; [exact Hx | now left].
Qed.

Section Merging.
Context `{Mathjs}.

(** Whatever its outcome, the loop of [_compress] touches the bins only. *)
Lemma _compress_loop_scalars (fuel : nat) :
  forall (pick : option ref) (s : Sketch),
    same_scalars s (snd (StreamHist._compress_loop fuel pick s)).
Proof.
  induction fuel as [|fuel IH]; intros pick s; simpl.
  - destruct (StreamHist.size s >? _maxBins s)%Z; repeat split.
  - destruct (StreamHist.size s >? _maxBins s)%Z; [|repeat split].
    destruct (match StreamHist.bins s with
              | [] => pick
              | a :: rest => StreamHist._compress_scan (_weighted s) a 0 rest None pick
              end) as [[i bi1]|]; [|repeat split].
    destruct (nth_error (StreamHist.bins s) i) as [bi|]; [|repeat split].
    destruct (combineBins bi bi1) as [merged|]; [|repeat split].
    eapply same_scalars_trans; [|apply IH]. apply same_scalars_set_bins.
Qed.



Lemma merge_scalars_unfold (that : Sketch) (mb : jsval) (s : Sketch) :
  StreamHist.merge_scalars that mb s =
  let s0 :=
    set_max (Some (Num.max (or_else NInf (_max s)) (or_else NInf (_max that))))
      (set_min (Some (Num.min (or_else PInf (_min s)) (or_else PInf (_min that))))
         (set_count (_count s + _count that) s)) in
  let n := Z.min (match Number_isInteger mb with
                  | Some n => n
                  | None => Z.min (_maxBins s) (_maxBins that)
                  end) (_maxBins s + _maxBins that) in
  match StreamHist.maxBins (JNum (inject_Z n)) s0 with
  | (Ret _, s') => (Ret tt, s')
  | (Err e, s') => (Err e, s')
  end.
Proof.
  cbv [StreamHist.merge_scalars bind modify get ret]. cbv zeta.
  reflexivity.
Qed.



End Merging.

(** ** Closed examples for pushing and merging *)




(** ** Snapshots *)

Section Snapshot.
Context `{Mathjs}.

Lemma StreamHist_default :
  StreamHist.StreamHist JUndefined JUndefined JUndefined JUndefined
  = (Ret tt, mkSketch [] 100 false 0 0 0 0 None None 0).
Proof. reflexivity. Qed.

(** X32. Restoring a sketch whose bins are in strictly increasing order
    of their means from its snapshot returns a sketch with the same
    array of bins (mean, count and tss, in order) and the same
    scalars. *)
Theorem fromJSON_toJSON_roundtrip (s : Sketch) :
  ordered (StreamHist.bins s) ->
  exists s', fromJSON (toJSON s) = (Ret tt, s') /\
    StreamHist.toArray s' = StreamHist.toArray s /\
    StreamHist.count s' = StreamHist.count s /\
    StreamHist.min s' = StreamHist.min s /\
    StreamHist.max s' = StreamHist.max s /\
    _maxBins s' = _maxBins s /\ _weighted s' = _weighted s /\
    _freeze s' = _freeze s /\ _warmUp s' = _warmUp s /\ _tss s' = _tss s.
Proof.
  intro Hs. unfold fromJSON. rewrite StreamHist_default.
  eexists. split; [reflexivity|].
  split; [|repeat split].
  unfold StreamHist.toArray, StreamHist.bins.
  cbn [_bins set_bins set_tss set_max set_min set_count set_warmUp set_freeze
       set_weighted set_maxBins toJSON JSON._bins].
  rewrite (fold_insert_sorted (StreamHist.toArray s) []).
  - unfold StreamHist.toArray, StreamHist.bins. simpl app. rewrite map_map.
    apply map_ext. reflexivity.
  - simpl app. unfold StreamHist.toArray. apply ordered_map; [reflexivity | exact Hs].
Qed.

End Snapshot.

(** X32 at the merged sketch of the examples. *)
Lemma fromJSON_toJSON_roundtrip_witness :
  exists s', fromJSON (H := example_math) (toJSON example_ab) = (Ret tt, s') /\
    StreamHist.toArray s' = StreamHist.toArray example_ab /\
    StreamHist.count s' = StreamHist.count example_ab /\
    StreamHist.min s' = StreamHist.min example_ab /\
    StreamHist.max s' = StreamHist.max example_ab /\
    _maxBins s' = _maxBins example_ab /\ _weighted s' = _weighted example_ab /\
    _freeze s' = _freeze example_ab /\ _warmUp s' = _warmUp example_ab /\
    _tss s' = _tss example_ab.
Proof.
  apply (fromJSON_toJSON_roundtrip (H := example_math) example_ab).
  vm_compute. repeat constructor.
Defined.

(** ** The capacity *)

Section Capacity.
Context `{Mathjs}.


End Capacity.



(** ** The lazy cumulative pass *)

Lemma readonly_ret {A : Type} (a : A) : readonly (ret a).
Proof. intro s. reflexivity. Qed.

Lemma readonly_fail {A : Type} (e : error) : readonly (@fail A e).
Proof. intro s. reflexivity. Qed.

Lemma readonly_get : readonly get.
Proof. intro s. reflexivity. Qed.

Lemma readonly_nonnull {A : Type} (o : option A) : readonly (nonnull o).
Proof. destruct o; intro s; reflexivity. Qed.

Lemma readonly_bind {A B : Type} (m : M A) (k : A -> M B) :
  readonly m -> (forall a, readonly (k a)) -> readonly (bind m k).
Proof.
  intros Hm Hk s. unfold bind. specialize (Hm s).
  destruct (m s) as [[a|e] s1]; simpl in Hm; subst s1; [apply Hk | reflexivity].
Qed.

Lemma readonly_if {A : Type} (c : bool) (m1 m2 : M A) :
  readonly m1 -> readonly m2 -> readonly (if c then m1 else m2).
Proof. destruct c; auto. Qed.

Create HintDb readonly.
#[local] Hint Resolve readonly_ret readonly_fail readonly_get readonly_nonnull
  readonly_if : readonly.

Lemma _bound_readonly (x : Q) : readonly (StreamHist._bound x).
Proof.
  unfold StreamHist._bound.
  apply readonly_bind; [auto with readonly|]. intro s.
  apply readonly_bind; auto with readonly.
Qed.

Lemma _boundCumn_readonly (x : Q) : readonly (StreamHist._boundCumn x).
Proof.
  unfold StreamHist._boundCumn.
  apply readonly_bind; [auto with readonly|]. intro s.
  apply readonly_if; auto with readonly.
Qed.

(** The pass of [_cumulate] returns the running total and changes no
    count. *)
Lemma cumulate_bins_spec (tr : list Bin.t) :
  forall cumn : Q,
    snd (StreamHist.cumulate_bins cumn tr) == cumn + sum_counts tr /\
    sum_counts (fst (StreamHist.cumulate_bins cumn tr)) == sum_counts tr.
Proof.
  induction tr as [|c tr IH]; intro cumn; simpl.
  - split; [ring | reflexivity].
  - specialize (IH (cumn + Bin.count c)).
    destruct (StreamHist.cumulate_bins (cumn + Bin.count c) tr) as [tr' total].
    simpl in *. destruct IH as [IH1 IH2]. rewrite IH1, IH2. split; ring.
Qed.

(** When the marker [_cumn] differs from [_count], [_cumulate] followed
    by a computation that only reads leaves [_count] at the total count
    of the bins. *)
Lemma _cumulate_then_readonly {A : Type} (k : M A) (s : Sketch) :
  readonly k ->
  Qeq_bool (_count s) (_cumn s) = false ->
  _count (snd (bind StreamHist._cumulate (fun _ => k) s)) == sum_counts (_bins s) /\
  sum_counts (_bins (snd (bind StreamHist._cumulate (fun _ => k) s)))
    == sum_counts (_bins s).
Proof.
  intros Hk Hstale. unfold StreamHist._cumulate.
  cbv [bind get]. rewrite Hstale.
  pose proof (cumulate_bins_spec (StreamHist.bins s) 0) as [Htotal Hsum].
  destruct (StreamHist.cumulate_bins 0 (StreamHist.bins s)) as [tr total].
  cbv [modify]. cbv zeta. rewrite Hk. simpl in *.
  unfold StreamHist.bins in *. rewrite Htotal. split; [ring | exact Hsum].
Qed.

Section Cumulate.
Context `{Mathjs}.

Lemma _quantile_tail_readonly (sv : Q) :
  readonly (bind (StreamHist._boundCumn sv) (fun x =>
    match x with
    | (lower, upper) =>
        bind (nonnull lower) (fun lower =>
          let lower := snd lower in
          let d := Num.sub (cumn_num lower) (Fin sv) in
          bind (nonnull upper) (fun upper =>
            let upper := snd upper in
            let a := Bin.count upper - Bin.count lower in
            let z :=
              if Qeq_bool a 0 then
                let b := Num.sub (cumn_num upper) (cumn_num lower) in
                if Num.eqb b (Fin 0) then Fin 0
                else Num.div (Num.sub (Fin sv) (cumn_num lower)) b
              else
                let b := 2 * Bin.count lower in
                let c := Num.mul (Fin 2) d in
                let disc := Num.sub (Fin (b * b)) (Num.mul (Fin (4 * a)) c) in
                let root := match disc with
                            | Fin x => math_sqrt x
                            | PInf => PInf
                            | _ => NaN
                            end in
                Num.div (Num.add (Fin (- b)) root) (Fin (2 * a)) in
            ret (Num (Num.add (Fin (Bin.mean lower))
                              (Num.mul (Fin (Bin.mean upper - Bin.mean lower)) z)))))
    end)).
Proof.
  apply readonly_bind; [apply _boundCumn_readonly|]. intros [lower upper].
  apply readonly_bind; [auto with readonly|]. intro lo.
  apply readonly_bind; [auto with readonly|]. intro up.
  apply readonly_ret.
Qed.

(** Past its early returns, [_quantile] is the cumulative pass followed
    by a computation that only reads. *)
Lemma _quantile_reaches_cumulate (q : Q) (s : Sketch) :
  _bins s <> [] -> 0 < q -> q < 1 ->
  exists k : M value,
    readonly k /\
    StreamHist._quantile q s = bind StreamHist._cumulate (fun _ => k) s.
Proof.
  intros Hne Hq0 Hq1. unfold StreamHist._quantile.
  unfold bind at 1, get at 1.
  assert (Hsize : (StreamHist.size s =? 0)%Z = false).
  { unfold StreamHist.size, StreamHist.bins.
    destruct (_bins s); [contradiction | reflexivity]. }
  rewrite Hsize.
  assert (Hle0 : Qle_bool q 0 = false).
  { destruct (Qle_bool q 0) eqn:E; [|reflexivity].
    apply Qle_bool_iff in E. lra. }
  assert (Hle1 : Qle_bool 1 q = false).
  { destruct (Qle_bool 1 q) eqn:E; [|reflexivity].
    apply Qle_bool_iff in E. lra. }
  rewrite Hle0, Hle1. cbv beta iota zeta.
  eexists. split; [|reflexivity].
  apply _quantile_tail_readonly.
Qed.

Lemma _quantile_cumulates (q : Q) (s : Sketch) :
  _bins s <> [] -> Qeq_bool (_count s) (_cumn s) = false ->
  0 < q -> q < 1 ->
  _count (snd (StreamHist._quantile q s)) == sum_counts (_bins s) /\
  sum_counts (_bins (snd (StreamHist._quantile q s))) == sum_counts (_bins s).
Proof.
  intros Hne Hstale Hq0 Hq1.
  destruct (_quantile_reaches_cumulate q s Hne Hq0 Hq1) as (k & Hk & ->).
  apply _cumulate_then_readonly; assumption.
Qed.

Lemma _sum_reaches_cumulate (b : Q) (s : Sketch) :
  _bins s <> [] ->
  Num.ltb (Fin b) (to_number (StreamHist.min s)) = false ->
  Num.geb (Fin b) (to_number (StreamHist.max s)) = false ->
  exists k : M value,
    readonly k /\
    StreamHist._sum b s = bind StreamHist._cumulate (fun _ => k) s.
Proof.
  intros Hne Hlo Hhi. unfold StreamHist._sum.
  unfold bind at 1, get at 1.
  assert (Hsize : (StreamHist.size s =? 0)%Z = false).
  { unfold StreamHist.size, StreamHist.bins.
    destruct (_bins s); [contradiction | reflexivity]. }
  rewrite Hsize, Hlo, Hhi. cbv beta iota zeta.
  eexists. split; [|reflexivity].
  apply readonly_bind; [apply _bound_readonly|]. intros [lower upper].
  apply readonly_bind; [auto with readonly|]. intro lo.
  apply readonly_bind; [auto with readonly|]. intro up.
  apply readonly_if; apply readonly_ret.
Qed.

Lemma _sum_cumulates (b : Q) (s : Sketch) :
  _bins s <> [] -> Qeq_bool (_count s) (_cumn s) = false ->
  Num.ltb (Fin b) (to_number (StreamHist.min s)) = false ->
  Num.geb (Fin b) (to_number (StreamHist.max s)) = false ->
  _count (snd (StreamHist._sum b s)) == sum_counts (_bins s) /\
  sum_counts (_bins (snd (StreamHist._sum b s))) == sum_counts (_bins s).
Proof.
  intros Hne Hstale Hlo Hhi.
  destruct (_sum_reaches_cumulate b s Hne Hlo Hhi) as (k & Hk & ->).
  apply _cumulate_then_readonly; assumption.
Qed.

(** [quantile(q)] for [q <= 0] or [q >= 1] returns before the cumulative
    pass and leaves the sketch as it is. *)
Lemma _quantile_early (q : Q) (s : Sketch) :
  q <= 0 \/ 1 <= q -> snd (StreamHist._quantile q s) = s.
Proof.
  intro Hq. unfold StreamHist._quantile, bind at 1, get at 1.
  destruct (StreamHist.size s =? 0)%Z; [reflexivity|].
  destruct (Qle_bool q 0) eqn:E0; [reflexivity|].
  destruct (Qle_bool 1 q) eqn:E1; [reflexivity|].
  exfalso. destruct Hq as [Hq|Hq]; apply Qle_bool_iff in Hq; congruence.
Qed.

(** [sum(b)] for [b] below [min()], or not below [max()], does too. *)
Lemma _sum_early (b : Q) (s : Sketch) :
  Num.ltb (Fin b) (to_number (StreamHist.min s)) = true \/
  Num.geb (Fin b) (to_number (StreamHist.max s)) = true ->
  snd (StreamHist._sum b s) = s.
Proof.
  intro Hb. unfold StreamHist._sum, bind at 1, get at 1.
  destruct (StreamHist.size s =? 0)%Z; [reflexivity|].
  destruct (Num.ltb (Fin b) (to_number (StreamHist.min s))); [reflexivity|].
  destruct (Num.geb (Fin b) (to_number (StreamHist.max s))); [reflexivity|].
  destruct Hb; discriminate.
Qed.

(** [median()] when [count()] does not exceed [size()] takes the exact
    branch: whatever it does to the bins and whatever its outcome, it
    leaves [count()] as it was. *)
Lemma median_exact_count (s : Sketch) :
  StreamHist.count s <= inject_Z (StreamHist.size s) ->
  StreamHist.count (snd (StreamHist.median s)) = StreamHist.count s.
Proof.
  intro Hle. unfold StreamHist.median, bind at 1, get at 1.
  rewrite (proj2 (Qlt_bool_false _ _) Hle).
  cbv [bind nonnull ret fail modify].
  repeat match goal with
         | |- context [if ?c then _ else _] => destruct c
         | |- context [match ?o with Some _ => _ | None => _ end] => destruct o
         end; reflexivity.
Qed.

(** C10, as the code has it. On a sketch with bins whose marker [_cumn]
    differs from [count()], a query that reaches the cumulative pass
    sets [count()] to the sum of the counts of the bins, which it leaves
    as they are: [quantile(q)] for [0 < q < 1], [sum(b)] for [b] not
    below [min()] and below [max()], and [median()] when [count()]
    exceeds [size()]. A query answered by an early return leaves
    [count()] as it was: [quantile(q)] for [q <= 0] or [q >= 1] and
    [sum(b)] for [b] below [min()] or not below [max()] leave the whole
    sketch untouched, and [median()] when [count()] does not exceed
    [size()] leaves [count()], whatever it does to the bins. *)
Theorem stale_count_overwritten_by_query (s : Sketch) (q b : Q) :
  StreamHist.bins s <> [] ->
  Qeq_bool (StreamHist.count s) (_cumn s) = false ->
  (0 < q -> q < 1 ->
   let s' := snd (StreamHist.quantile q s) in
   StreamHist.count s' == sum_counts (StreamHist.bins s) /\
   sum_counts (StreamHist.bins s') == sum_counts (StreamHist.bins s)) /\
  (Num.ltb (Fin b) (to_number (StreamHist.min s)) = false ->
   Num.geb (Fin b) (to_number (StreamHist.max s)) = false ->
   let s' := snd (StreamHist.sum b s) in
   StreamHist.count s' == sum_counts (StreamHist.bins s) /\
   sum_counts (StreamHist.bins s') == sum_counts (StreamHist.bins s)) /\
  (inject_Z (StreamHist.size s) < StreamHist.count s ->
   let s' := snd (StreamHist.median s) in
   StreamHist.count s' == sum_counts (StreamHist.bins s) /\
   sum_counts (StreamHist.bins s') == sum_counts (StreamHist.bins s)) /\
  (q <= 0 \/ 1 <= q -> snd (StreamHist.quantile q s) = s) /\
  (Num.ltb (Fin b) (to_number (StreamHist.min s)) = true \/
   Num.geb (Fin b) (to_number (StreamHist.max s)) = true ->
   snd (StreamHist.sum b s) = s) /\
  (StreamHist.count s <= inject_Z (StreamHist.size s) ->
   StreamHist.count (snd (StreamHist.median s)) = StreamHist.count s).
Proof.
  intros Hne Hstale. split; [|split; [|split; [|split; [|split]]]].
  - intros Hq0 Hq1. cbv zeta. apply _quantile_cumulates; assumption.
  - intros Hlo Hhi. cbv zeta. apply _sum_cumulates; assumption.
  - intro Hmerged. cbv zeta.
    assert (Hmedian : StreamHist.median s = StreamHist._quantile (1 # 2) s).
    { unfold StreamHist.median. unfold bind at 1, get at 1.
      apply Qlt_bool_iff in Hmerged. rewrite Hmerged. reflexivity. }
    rewrite Hmedian. apply _quantile_cumulates; try assumption; reflexivity.
  - apply _quantile_early.
  - apply _sum_early.
  - apply median_exact_count.
Qed.

End Cumulate.

(** C10 right after a warm-up reset, for [quantile(0.5)], [sum(2)] and
    [median()]. *)
Lemma stale_count_overwritten_by_query_witness :
  (0 < 1 # 2 -> 1 # 2 < 1 ->
   let s' := snd (StreamHist.quantile (H := example_math) (1 # 2) example_warm) in
   StreamHist.count s' == sum_counts (StreamHist.bins example_warm) /\
   sum_counts (StreamHist.bins s') == sum_counts (StreamHist.bins example_warm)) /\
  (Num.ltb (Fin 2) (to_number (StreamHist.min example_warm)) = false ->
   Num.geb (Fin 2) (to_number (StreamHist.max example_warm)) = false ->
   let s' := snd (StreamHist.sum 2 example_warm) in
   StreamHist.count s' == sum_counts (StreamHist.bins example_warm) /\
   sum_counts (StreamHist.bins s') == sum_counts (StreamHist.bins example_warm)) /\
  (inject_Z (StreamHist.size example_warm) < StreamHist.count example_warm ->
   let s' := snd (StreamHist.median (H := example_math) example_warm) in
   StreamHist.count s' == sum_counts (StreamHist.bins example_warm) /\
   sum_counts (StreamHist.bins s') == sum_counts (StreamHist.bins example_warm)) /\
  (1 # 2 <= 0 \/ 1 <= 1 # 2 ->
   snd (StreamHist.quantile (H := example_math) (1 # 2) example_warm) = example_warm) /\
  (Num.ltb (Fin 2) (to_number (StreamHist.min example_warm)) = true \/
   Num.geb (Fin 2) (to_number (StreamHist.max example_warm)) = true ->
   snd (StreamHist.sum 2 example_warm) = example_warm) /\
  (StreamHist.count example_warm <= inject_Z (StreamHist.size example_warm) ->
   StreamHist.count (snd (StreamHist.median (H := example_math) example_warm))
   = StreamHist.count example_warm).
Proof.
  apply (stale_count_overwritten_by_query (H := example_math) example_warm (1 # 2) 2).
  - vm_compute. discriminate.
  - vm_compute. reflexivity.
Defined.

(** C10 fails for a query answered by an early return: after the warm-up
    reset [count()] is 3 and the bins hold 2, and [quantile(0)] returns
    [min()] and leaves [count()] at 3. It also fails when [count()]
    differs from the bins but not from [_cumn]: in [example_median]
    [count()] and [_cumn] are 4 and the bins hold 5, and [sum(1)], which
    does call [_cumulate], leaves [count()] at 4. *)
Lemma stale_count_overwritten_by_query_counterexample :
  (StreamHist.count example_warm == 3 /\
   sum_counts (StreamHist.bins example_warm) == 2 /\
   fst (StreamHist.quantile (H := example_math) 0 example_warm) = Ret (Num (Fin 1)) /\
   StreamHist.count (snd (StreamHist.quantile (H := example_math) 0 example_warm)) == 3) /\
  (StreamHist.count example_median == 4 /\
   _cumn example_median == 4 /\
   sum_counts (StreamHist.bins example_median) == 5 /\
   Num.ltb (Fin 1) (to_number (StreamHist.min example_median)) = false /\
   Num.geb (Fin 1) (to_number (StreamHist.max example_median)) = false /\
   StreamHist.count (snd (StreamHist.sum 1 example_median)) == 4).
Proof.
  repeat split; vm_compute; reflexivity.
Qed.

(** ** Queries evaluated on small sketches *)

Section Evaluations.
Context `{Mathjs}.

(** C2 on the code. On a new, empty sketch [quantile], [sum], [density],
    [mean] and [variance] return [null] for every argument, but
    [median()] throws a TypeError: with [count()] and [size()] both 0 it
    takes the exact branch and hands two [null] bins to [combineBins]. *)
Theorem queries_on_empty_sketch (q b : Q) (fuel : nat) :
  StreamHist.size new_default = 0%Z /\
  StreamHist.quantile q new_default = (Ret Null, new_default) /\
  StreamHist.sum b new_default = (Ret Null, new_default) /\
  StreamHist.density fuel b new_default = (Ret Null, new_default) /\
  StreamHist.mean new_default = (Ret Null, new_default) /\
  StreamHist.variance new_default = (Ret Null, new_default) /\
  StreamHist.median new_default = (Err TypeError, new_default).
Proof.
  unfold new_default. rewrite StreamHist_default. cbn [snd].
  repeat split; try reflexivity.
  destruct fuel; reflexivity.
Qed.

(** C3 on the code. [median()] looks up [count()/2] among the bin means,
    not among the ranks. Pushing 0, 10 and 20 leaves three bins of one
    point each, and [median()] returns 0 where the median is 10. On the
    integers 0..14 means and ranks coincide and it returns 7, and after
    pushing 15 it returns 7.5. *)
Theorem median_looks_up_means :
  StreamHist.count (pushed [0; 10; 20]) == 3 /\
  StreamHist.size (pushed [0; 10; 20]) = 3%Z /\
  fst (StreamHist.median (pushed [0; 10; 20])) = Ret (Num (Fin 0)) /\
  fst (StreamHist.median (pushed [0; 1; 2; 3; 4; 5; 6; 7; 8; 9; 10; 11; 12; 13; 14]))
    = Ret (Num (Fin 7)) /\
  exists m,
    fst (StreamHist.median
           (pushed [0; 1; 2; 3; 4; 5; 6; 7; 8; 9; 10; 11; 12; 13; 14; 15]))
      = Ret (Num (Fin m)) /\
    m == 15 # 2.
Proof.
  repeat split; try (vm_compute; reflexivity).
  eexists. split; vm_compute; reflexivity.
Qed.

(** C4 on the code. With an even [count()] that does not exceed [size()],
    [median()] passes the lower of the two middle bins to [combineBins],
    which updates it in place: after [push([0, 1])], the call returns
    0.5 and the first bin, which was (0, 1, 0), has become
    (0.5, 2, 0.5). *)
Theorem median_combines_in_place :
  StreamHist.toArray (pushed [0; 1]) = [Bin.mk 0 1 0 None; Bin.mk 1 1 0 None] /\
  exists m b0 b1,
    fst (StreamHist.median (pushed [0; 1])) = Ret (Num (Fin m)) /\
    m == 1 # 2 /\
    StreamHist.toArray (snd (StreamHist.median (pushed [0; 1]))) = [b0; b1] /\
    Bin.mean b0 == 1 # 2 /\ Bin.count b0 == 2 /\ Bin.tss b0 == 1 # 2 /\
    b1 = Bin.mk 1 1 0 None.
Proof.
  split; [vm_compute; reflexivity|].
  do 3 eexists. repeat split; vm_compute; reflexivity.
Qed.

(** C8 on the code. [_boundCumn] compares the mean of the lower bin with
    the cumulative count it is given: after [push([1, 3])],
    [quantile(0.4)] is 1.6 and [quantile(0.5)] is 1. [_sum] extrapolates
    below the first bin: after [new StreamHist(2).push([0, 2])] and
    [push(100, 1000)] the bins are (1, 2) and (100, 1000) with [min()]
    at 0, and [sum(0)] is above [sum(1)], which is 1. *)
Theorem quantile_and_sum_not_monotone :
  (exists x y,
     fst (StreamHist.quantile (2 # 5) (pushed [1; 3])) = Ret (Num (Fin x)) /\
     fst (StreamHist.quantile (1 # 2)
            (snd (StreamHist.quantile (2 # 5) (pushed [1; 3])))) = Ret (Num (Fin y)) /\
     x == 8 # 5 /\ y == 1 /\ y < x) /\
  (let s := snd (StreamHist.push [100] (Some 1000)
                   (snd (StreamHist.push [0; 2] None
                           (snd (StreamHist.StreamHist (JNum 2) JUndefined
                                   JUndefined JUndefined))))) in
   exists x y,
     fst (StreamHist.sum 0 s) = Ret (Num (Fin x)) /\
     fst (StreamHist.sum 1 (snd (StreamHist.sum 0 s))) = Ret (Num (Fin y)) /\
     y == 1 /\ y < x).
Proof.
  split.
  - do 2 eexists. repeat split; vm_compute; reflexivity.
  - cbv zeta. do 2 eexists. repeat split; vm_compute; reflexivity.
Qed.

End Evaluations.

(** ** Further properties of the sketch *)

Section Further.
Context `{Mathjs}.

(** X2. On a sketch with bins, [quantile(0)] is [min()] and
    [quantile(1)] is [max()]; [sum(x)] is 0 below [min()] and [count()]
    from [max()] on. None of these calls changes the sketch. *)
Theorem quantile_and_sum_at_the_limits (s : Sketch) (x : Q) :
  StreamHist.bins s <> [] ->
  StreamHist.quantile 0 s = (Ret (of_null (StreamHist.min s)), s) /\
  StreamHist.quantile 1 s = (Ret (of_null (StreamHist.max s)), s) /\
  (Num.ltb (Fin x) (to_number (StreamHist.min s)) = true ->
   StreamHist.sum x s = (Ret (Num (Fin 0)), s)) /\
  (Num.ltb (Fin x) (to_number (StreamHist.min s)) = false ->
   Num.geb (Fin x) (to_number (StreamHist.max s)) = true ->
   StreamHist.sum x s = (Ret (Num (Fin (StreamHist.count s))), s)).
Proof.
  intro Hne.
  assert (Hsize : (StreamHist.size s =? 0)%Z = false).
  { unfold StreamHist.size, StreamHist.bins in *.
    destruct (_bins s); [contradiction | reflexivity]. }
  unfold StreamHist.quantile, StreamHist._quantile, StreamHist.sum, StreamHist._sum.
  unfold bind, get. rewrite Hsize. repeat split.
  - intros ->. reflexivity.
  - intros -> ->. reflexivity.
Qed.

(** X4. [density], [mean] and [variance] never change the sketch,
    whatever they return. *)
Theorem density_mean_variance_readonly (fuel : nat) (b : Q) (s : Sketch) :
  snd (StreamHist.density fuel b s) = s /\
  snd (StreamHist.mean s) = s /\
  snd (StreamHist.variance s) = s.
Proof.
  assert (Hmean : readonly StreamHist.mean).
  { unfold StreamHist.mean. apply readonly_bind; [apply readonly_get|].
    intro s0. apply readonly_if; apply readonly_ret. }
  split; [|split].
  - revert b s. induction fuel as [|fuel IH]; intros b s.
    + cbn [StreamHist.density].
      apply readonly_bind; [apply readonly_get|]. intro s0.
      repeat (apply readonly_if; [apply readonly_ret|]).
      apply readonly_bind; [apply _bound_readonly|]. intros [lower upper].
      apply readonly_bind; [apply readonly_nonnull|]. intro lo.
      apply readonly_bind; [apply readonly_nonnull|]. intro up.
      apply readonly_bind.
      * apply readonly_if; [apply readonly_fail | apply readonly_ret].
      * intro res. apply readonly_if; apply readonly_ret.
    + cbn [StreamHist.density].
      apply readonly_bind; [apply readonly_get|]. intro s0.
      repeat (apply readonly_if; [apply readonly_ret|]).
      apply readonly_bind; [apply _bound_readonly|]. intros [lower upper].
      apply readonly_bind; [apply readonly_nonnull|]. intro lo.
      apply readonly_bind; [apply readonly_nonnull|]. intro up.
      apply readonly_bind.
      * apply readonly_if; [|apply readonly_ret].
        destruct (Double.sub _ _); try apply readonly_fail.
        destruct (Double.add _ _); try apply readonly_fail.
        apply readonly_bind; [intro s1; apply IH|]. intro dlo.
        apply readonly_bind; [intro s1; apply IH|]. intro dhi.
        apply readonly_ret.
      * intro res. apply readonly_if; apply readonly_ret.
  - apply Hmean.
  - unfold StreamHist.variance. apply readonly_bind; [apply readonly_get|].
    intro s0. apply readonly_if; [apply readonly_ret|].
    apply readonly_bind; [exact Hmean|]. intro m. apply readonly_ret.
Qed.

(** X5. [reset()] empties the sketch and keeps its configuration. *)
Theorem reset_empties (s : Sketch) :
  exists s', StreamHist.reset s = (Ret tt, s') /\
    StreamHist.bins s' = [] /\ StreamHist.count s' = 0 /\
    StreamHist.min s' = None /\ StreamHist.max s' = None /\
    same_config s s'.
Proof.
  eexists. split; [reflexivity|]. repeat split.
Qed.

End Further.

(** X2 at the merged sketch of the examples and the value 0. *)
Lemma quantile_and_sum_at_the_limits_witness :
  StreamHist.quantile (H := example_math) 0 example_ab
    = (Ret (of_null (StreamHist.min example_ab)), example_ab) /\
  StreamHist.quantile (H := example_math) 1 example_ab
    = (Ret (of_null (StreamHist.max example_ab)), example_ab) /\
  (Num.ltb (Fin 0) (to_number (StreamHist.min example_ab)) = true ->
   StreamHist.sum 0 example_ab = (Ret (Num (Fin 0)), example_ab)) /\
  (Num.ltb (Fin 0) (to_number (StreamHist.min example_ab)) = false ->
   Num.geb (Fin 0) (to_number (StreamHist.max example_ab)) = true ->
   StreamHist.sum 0 example_ab = (Ret (Num (Fin (StreamHist.count example_ab))), example_ab)).
Proof.
  apply (quantile_and_sum_at_the_limits (H := example_math) example_ab 0).
  vm_compute. discriminate.
Defined.

(** ** The constructor *)

Section Construction.
Context `{Mathjs}.

Lemma StreamHist_state (v w f wu : jsval) :
  let n := match Number_isInteger (js_or v (JNum 100)) with
           | Some n => n
           | None => 100%Z
           end in
  let fz := match Number_isInteger (js_or f (JNum 0)) with
            | Some n => n
            | None => 0%Z
            end in
  let wz := match Number_isInteger (js_or wu (JNum 0)) with
            | Some n => n
            | None => 0%Z
            end in
  let wt := match w with JBool true => true | _ => false end in
  if (0 <=? n)%Z
  then StreamHist.StreamHist v w f wu
       = (Ret tt, mkSketch [] n wt fz wz 0 0 None None 0)
  else fst (StreamHist.StreamHist v w f wu) = Err TypeError.
Proof.
  intros n fz wz wt.
  assert (Hrun : StreamHist.StreamHist v w f wu =
    if (n <? 0)%Z
    then (Err TypeError, set_maxBins n StreamHist.blank)
    else (StreamHist.weighted (js_or w (JBool false)) ;;
          StreamHist.freeze (js_or f (JNum 0)) ;;
          StreamHist.warmUp (js_or wu (JNum 0)) ;;
          StreamHist.reset)%js (set_maxBins n StreamHist.blank)).
  { unfold StreamHist.StreamHist. unfold bind at 1.
    rewrite maxBins_set_unfold by (apply not_nullish_js_or; reflexivity).
    fold n. cbv zeta.
    change (StreamHist.size (set_maxBins n StreamHist.blank)) with 0%Z.
    change (_maxBins (set_maxBins n StreamHist.blank)) with n.
    rewrite Z.gtb_ltb. destruct (n <? 0)%Z eqn:E; [|reflexivity].
    unfold StreamHist._compress. cbn [StreamHist.bins _bins set_maxBins StreamHist.blank length].
    cbn [StreamHist._compress_loop].
    change (StreamHist.size (set_maxBins n StreamHist.blank)) with 0%Z.
    change (_maxBins (set_maxBins n StreamHist.blank)) with n.
    rewrite Z.gtb_ltb, E. reflexivity. }
  rewrite Hrun.
  destruct (0 <=? n)%Z eqn:E.
  - apply Z.leb_le in E.
    replace (n <? 0)%Z with false by (symmetry; apply Z.ltb_ge; lia).
    unfold StreamHist.weighted, StreamHist.freeze, StreamHist.warmUp, StreamHist.reset.
    rewrite !not_nullish_js_or by reflexivity.
    unfold bind, modify, get, ret. cbn.
    fold fz wz. f_equal. f_equal.
    subst wt. unfold js_or. destruct w as [| |[|]| | | |]; simpl; try reflexivity.
    + destruct (Qeq_bool q 0); reflexivity.
    + destruct (String.eqb s String.EmptyString); reflexivity.
  - apply Z.leb_gt in E.
    replace (n <? 0)%Z with true by (symmetry; apply Z.ltb_lt; lia).
    reflexivity.
Qed.

(** X6. The constructor settles on a capacity: the integer passed as
    [maxbins], or 100 when [maxbins] is falsy or not an integer. When it
    is not negative the constructor returns an empty sketch that stores
    it, with [weighted] true only for the boolean [true] and with [freeze]
    and [warmUp] the integers passed (0 for anything else). When it is
    negative the constructor throws a TypeError, from [_compress] on the
    empty tree. *)
Theorem constructor_settles_configuration (v w f wu : jsval) :
  let n := match Number_isInteger (js_or v (JNum 100)) with
           | Some n => n
           | None => 100%Z
           end in
  let fz := match Number_isInteger (js_or f (JNum 0)) with
            | Some n => n
            | None => 0%Z
            end in
  let wz := match Number_isInteger (js_or wu (JNum 0)) with
            | Some n => n
            | None => 0%Z
            end in
  let wt := match w with JBool true => true | _ => false end in
  if (0 <=? n)%Z
  then StreamHist.StreamHist v w f wu
       = (Ret tt, mkSketch [] n wt fz wz 0 0 None None 0)
  else fst (StreamHist.StreamHist v w f wu) = Err TypeError.
Proof. apply StreamHist_state. Qed.

(** The sketch [new StreamHist(q, w)] for a positive integer [q]: empty,
    with the capacity [q], never frozen and without warm-up. *)
Lemma StreamHist_fresh (q : Q) (w : jsval) :
  Q_is_integer q = true -> 0 < q ->
  exists s0,
    StreamHist.StreamHist (JNum q) w JUndefined JUndefined = (Ret tt, s0) /\
    _bins s0 = [] /\ _maxBins s0 = Q_to_Z q /\ (1 <= Q_to_Z q)%Z /\
    _freeze s0 = 0%Z /\ _warmUp s0 = 0%Z /\ _count s0 = 0 /\
    _min s0 = None /\ _max s0 = None.
Proof.
  intros Hint Hpos.
  destruct (StreamHist_positive q w JUndefined JUndefined Hint Hpos)
    as (s & Hrun & _ & _ & Hq & _).
  pose proof (StreamHist_state (JNum q) w JUndefined JUndefined) as Hst.
  cbv zeta in Hst.
  assert (Ht : truthy (JNum q) = true).
  { simpl. destruct (Qeq_bool q 0) eqn:E; [|reflexivity].
    apply Qeq_bool_iff in E. lra. }
  unfold js_or at 1 2 in Hst. rewrite Ht in Hst.
  cbn [Number_isInteger] in Hst. rewrite Hint in Hst.
  replace (0 <=? Q_to_Z q)%Z with true in Hst by (symmetry; apply Z.leb_le; lia).
  eexists. split; [exact Hst|]. cbn. repeat split; auto.
Qed.

End Construction.

Lemma Qabs_below (a p : Q) : a <= p -> Qabs (a - p) == p - a.
Proof. intro Hle. rewrite Qabs_neg by lra. ring. Qed.

Lemma Qabs_above (a p : Q) : p <= a -> Qabs (a - p) == a - p.
Proof. intro Hle. apply Qabs_pos. lra. Qed.

Lemma ordered_around (l1 l2 : list Bin.t) (d : Bin.t) :
  ordered (l1 ++ d :: l2) ->
  Forall (fun a => Bin.mean a < Bin.mean d) l1 /\
  Forall (fun b => Bin.mean d < Bin.mean b) l2.
Proof.
  intro Hs. apply ordered_app_inv in Hs. destruct Hs as (_ & Hd & Hcross).
  apply StronglySorted_inv in Hd. destruct Hd as [_ Hd]. split.
  - apply Forall_forall. intros a Ha. apply Hcross; [exact Ha | now left].
  - exact Hd.
Qed.

(** The bin at or after [p] and the bin before it: the closer of the two
    is the nearest of the tree. *)
Lemma nearest_choice (l1 l2 : list Bin.t) (b' d : Bin.t) (p : Q) :
  ordered ((l1 ++ [b']) ++ d :: l2) ->
  Bin.mean b' < p -> p <= Bin.mean d ->
  if Qlt_bool (Qabs (Bin.mean b' - p)) (Qabs (Bin.mean d - p))
  then nearest_to p b' ((l1 ++ [b']) ++ d :: l2)
  else nearest_to p d ((l1 ++ [b']) ++ d :: l2).
Proof.
  intros Hs Hb Hd.
  destruct (ordered_around _ _ _ Hs) as [Hbefore Hafter].
  rewrite <- app_assoc in Hs. simpl in Hs.
  destruct (ordered_around _ _ _ Hs) as [Hbefore' _].
  assert (Hl1 : Forall (fun a => Qabs (Bin.mean b' - p) <= Qabs (Bin.mean a - p)) l1).
  { eapply Forall_impl; [|exact Hbefore']. intros a Ha. cbv beta in Ha.
    rewrite !Qabs_below by lra. lra. }
  assert (Hl2 : Forall (fun a => Qabs (Bin.mean d - p) <= Qabs (Bin.mean a - p)) l2).
  { eapply Forall_impl; [|exact Hafter]. intros a Ha. cbv beta in Ha.
    rewrite !Qabs_above by lra. lra. }
  unfold nearest_to.
  destruct (Qlt_bool _ _) eqn:E.
  - apply Qlt_bool_iff in E. rewrite !Forall_app. repeat split.
    + exact Hl1.
    + constructor; [apply Qle_refl | constructor].
    + constructor; [apply Qlt_le_weak, E|].
      eapply Forall_impl; [|exact Hl2]. intros a Ha. cbv beta in Ha. lra.
  - apply Qlt_bool_false in E. rewrite !Forall_app. repeat split.
    + eapply Forall_impl; [|exact Hl1]. intros a Ha. cbv beta in Ha. lra.
    + constructor; [exact E | constructor].
    + constructor; [apply Qle_refl | exact Hl2].
Qed.

Lemma nearest_first (l2 : list Bin.t) (d : Bin.t) (p : Q) :
  ordered (d :: l2) -> p <= Bin.mean d -> nearest_to p d (d :: l2).
Proof.
  intros Hs Hd. apply StronglySorted_inv in Hs. destruct Hs as [_ Hafter].
  constructor; [apply Qle_refl|].
  eapply Forall_impl; [|exact Hafter]. intros a Ha. unfold bin_lt in Ha.
  rewrite !Qabs_above by lra. lra.
Qed.

Lemma nearest_last (l1 : list Bin.t) (d : Bin.t) (p : Q) :
  ordered (l1 ++ [d]) -> Bin.mean d < p -> nearest_to p d (l1 ++ [d]).
Proof.
  intros Hs Hd. destruct (ordered_around _ _ _ Hs) as [Hbefore _].
  unfold nearest_to. rewrite Forall_app. split.
  - eapply Forall_impl; [|exact Hbefore]. intros a Ha. cbv beta in Ha.
    rewrite !Qabs_below by lra. lra.
  - constructor; [apply Qle_refl | constructor].
Qed.

Lemma nearest_exact (b : Bin.t) (p : Q) (tr : list Bin.t) :
  Bin.mean b == p -> nearest_to p b tr.
Proof.
  intro Heq. apply Forall_forall. intros a _.
  assert (E : Bin.mean b - p == 0) by lra.
  rewrite E. apply Qabs_nonneg.
Qed.

Lemma snoc_or_nil (l : list Bin.t) : l = [] \/ exists l' b, l = l' ++ [b].
Proof.
  destruct l as [|x l]; [now left | right].
  destruct (exists_last (l:=x :: l)) as (l' & b & ->); [discriminate | eauto].
Qed.

Lemma prev_of_snoc (l1 l2 : list Bin.t) (b' : Bin.t) :
  deref ((l1 ++ [b']) ++ l2) (RBTree.prev ((l1 ++ [b']) ++ l2) (Some (length (l1 ++ [b']))))
  = Some (length l1, b').
Proof.
  rewrite length_app. simpl length. rewrite Nat.add_1_r. cbn [RBTree.prev].
  apply deref_Some. rewrite <- app_assoc. apply nth_error_app_mid.
Qed.

Lemma findNearest_nearest (p : Q) (s : Sketch) :
  ordered (_bins s) ->
  exists r, StreamHist.findNearest p s = (Ret r, s) /\
    match r with
    | None => _bins s = []
    | Some (i, b) =>
        nth_error (_bins s) i = Some b /\ nearest_to p b (_bins s)
    end.
Proof.
  intro Hs.
  unfold StreamHist.findNearest, bind, get, ret.
  unfold StreamHist.size, StreamHist.bins.
  destruct (_bins s) as [|b0 l0] eqn:El; [exists None; split; reflexivity|].
  rewrite <- El in *.
  replace (Z.of_nat (length (_bins s)) =? 0)%Z with false
    by (rewrite El; reflexivity).
  unfold RBTree.lowerBound.
  destruct (RBTree.lowerBound_from (compareBins (key_mean p)) (_bins s) 0)
    as [j|] eqn:Elb.
  - destruct (lowerBound_from_Some _ _ _ _ Elb) as (l1 & d & l2 & Hl & -> & Hl1 & Hd).
    change (0 + length l1)%nat with (length l1) in *.
    assert (Hnear : nth_error (_bins s) (length l1) = Some d)
      by (rewrite Hl; apply nth_error_app_mid).
    replace (RBTree.data (_bins s) (Some (length l1))) with (Some d)
      by (symmetry; exact Hnear).
    rewrite (deref_Some _ _ _ Hnear). simpl nonnull. unfold ret. cbn [snd].
    rewrite compare_key_mean_Gt in Hd. apply Qnot_lt_le in Hd.
    destruct (Qeq_bool (Bin.mean d) p) eqn:Eq.
    + eexists. split; [reflexivity|]. split; [exact Hnear|].
      apply nearest_exact, Qeq_bool_iff, Eq.
    + destruct (snoc_or_nil l1) as [->|(l1' & b' & ->)].
      * simpl in Hl. rewrite Hl. cbn [RBTree.prev deref].
        eexists. split; [reflexivity|]. split; [reflexivity|].
        rewrite Hl in Hs. apply nearest_first; assumption.
      * rewrite Hl in Hs |- *. rewrite prev_of_snoc.
        assert (Hb' : Bin.mean b' < p).
        { rewrite Forall_app in Hl1. destruct Hl1 as [_ Hb'].
          inversion Hb' as [|? ? Hgt _]; subst.
          apply compare_key_mean_Gt in Hgt. exact Hgt. }
        pose proof (nearest_choice l1' l2 b' d p Hs Hb' Hd) as Hchoice.
        cbn [snd].
        destruct (Qlt_bool _ _); eexists; (split; [reflexivity|]); split;
          try exact Hchoice.
        -- rewrite <- app_assoc. apply nth_error_app_mid.
        -- apply nth_error_app_mid.
  - pose proof (lowerBound_from_None _ _ _ Elb) as Hall.
    destruct (exists_last (l:=_bins s)) as (l' & d & Hl);
      [rewrite El; discriminate|].
    assert (Hlen : length (_bins s) = S (length l'))
      by (rewrite Hl, length_app; simpl; lia).
    assert (Hit : RBTree.prev (_bins s) None = Some (length l'))
      by (simpl; rewrite Hlen; reflexivity).
    cbn [RBTree.data]. rewrite !Hit.
    assert (Hnear : nth_error (_bins s) (length l') = Some d)
      by (rewrite Hl; apply nth_error_last).
    rewrite (deref_Some _ _ _ Hnear). simpl nonnull. unfold ret. cbn [snd].
    assert (Hd : Bin.mean d < p).
    { rewrite Hl, Forall_app in Hall. destruct Hall as [_ Hd].
      inversion Hd as [|? ? Hgt _]; subst.
      apply compare_key_mean_Gt in Hgt. exact Hgt. }
    assert (Hres : nearest_to p d (_bins s)).
    { rewrite Hl in Hs |- *. apply nearest_last; assumption. }
    destruct (Qeq_bool (Bin.mean d) p) eqn:Eq.
    + eexists. split; [reflexivity|]. split; assumption.
    + destruct (deref (_bins s) (RBTree.prev (_bins s) (Some (length l'))))
        as [[i' b']|] eqn:Ep.
      * assert (Hprev : nth_error (_bins s) i' = Some b' /\ S i' = length l').
        { unfold deref in Ep. destruct (length l') as [|k] eqn:Ek; [discriminate|].
          cbn [RBTree.prev] in Ep.
          destruct (nth_error (_bins s) k) eqn:En; [|discriminate].
          injection Ep as <- <-. split; [exact En | reflexivity]. }
        destruct Hprev as [Hprev Hi'].
        assert (Hfar : Qlt_bool (Qabs (Bin.mean b' - p)) (Qabs (Bin.mean d - p)) = false).
        { apply Qlt_bool_false.
          assert (Hb'd : Bin.mean b' < Bin.mean d).
          { rewrite Hl in Hs, Hprev. destruct (ordered_around _ _ _ Hs) as [Hbefore _].
            rewrite nth_error_app1 in Hprev by lia.
            apply nth_error_In in Hprev. rewrite Forall_forall in Hbefore.
            apply Hbefore, Hprev. }
          rewrite !Qabs_below by lra. lra. }
        cbn [snd]. rewrite Hfar.
        eexists. split; [reflexivity|]. split; assumption.
      * eexists. split; [reflexivity|]. split; assumption.
Qed.


(** ** The bracket of a value among the bin means *)


Lemma lowerBound_from_all (c : Bin.t -> comparison) (l : list Bin.t) (k : nat) :
  Forall (fun a => c a = Gt) l -> RBTree.lowerBound_from c l k = None.
Proof.
  revert k. induction l as [|a l IH]; simpl; intros k Hl; [reflexivity|].
  inversion Hl as [|? ? Ha Hl']; subst. rewrite Ha. apply IH, Hl'.
Qed.


(** [x] at or below the mean of the first bin: [lo] is the first bin, and
    [up] is the first bin again when its mean is [x] or it is the only
    bin, and the second bin otherwise. *)
Lemma _bound_first (x : Q) (s : Sketch) (d : Bin.t) (l2 : list Bin.t) :
  _bins s = d :: l2 -> x <= Bin.mean d ->
  StreamHist._bound x s =
  (Ret (Some (0%nat, d),
        if Qeq_bool (Bin.mean d) x then Some (0%nat, d)
        else match l2 with
             | [] => Some (0%nat, d)
             | e :: _ => Some (1%nat, e)
             end), s).
Proof.
  intros Hl Hd. unfold StreamHist._bound, bind, get, ret, StreamHist.bins.
  rewrite Hl. unfold RBTree.lowerBound. cbn [RBTree.lowerBound_from].
  assert (E : compareBins (key_mean x) d <> Gt).
  { rewrite compare_key_mean_Gt. apply Qle_not_lt, Hd. }
  destruct (compareBins (key_mean x) d); try congruence;
    cbn; destruct (Qeq_bool (Bin.mean d) x); cbn; try reflexivity;
    destruct l2; reflexivity.
Qed.


(** [x] above the mean of the last bin: [lo] and [up] are both the last
    bin. *)
Lemma _bound_last (x : Q) (s : Sketch) (l1 : list Bin.t) (d : Bin.t) :
  _bins s = l1 ++ [d] -> ordered (_bins s) -> Bin.mean d < x ->
  StreamHist._bound x s = (Ret (Some (length l1, d), Some (length l1, d)), s).
Proof.
  intros Hl Hs Hd. unfold StreamHist._bound, bind, get, ret, StreamHist.bins.
  rewrite Hl in Hs |- *.
  assert (Hall : Forall (fun a => compareBins (key_mean x) a = Gt) (l1 ++ [d])).
  { destruct (ordered_around _ _ _ Hs) as [Hbefore _].
    rewrite Forall_app. split.
    - eapply Forall_impl; [|exact Hbefore]. intros a Ha. cbv beta in Ha.
      apply compare_key_mean_Gt. lra.
    - constructor; [apply compare_key_mean_Gt, Hd | constructor]. }
  unfold RBTree.lowerBound. rewrite lowerBound_from_all by exact Hall.
  assert (Hlen : length (l1 ++ [d]) = S (length l1))
    by (rewrite length_app; simpl; lia).
  assert (Hmin : match l1 ++ [d] with [] => true | _ :: _ => false end = false)
    by (destruct l1; reflexivity).
  rewrite Hmin. cbn [RBTree.prev]. rewrite Hlen.
  rewrite (deref_Some _ _ _ (nth_error_last l1 d)). cbn [nonnull ret fst snd].
  rewrite Nat.eqb_refl, orb_true_r. reflexivity.
Qed.


(** ** The cumulative counts *)

Lemma cumulate_bins_mid (l1 l2 : list Bin.t) (d : Bin.t) :
  forall c : Q,
    fst (StreamHist.cumulate_bins c (l1 ++ d :: l2)) =
    fst (StreamHist.cumulate_bins c l1)
    ++ Bin.set_cumn (snd (StreamHist.cumulate_bins c l1) + Bin.count d / 2) d
    :: fst (StreamHist.cumulate_bins (snd (StreamHist.cumulate_bins c l1) + Bin.count d) l2).
Proof.
  induction l1 as [|a l1 IH]; intro c; simpl.
  - destruct (StreamHist.cumulate_bins (c + Bin.count d) l2). reflexivity.
  - specialize (IH (c + Bin.count a)).
    destruct (StreamHist.cumulate_bins (c + Bin.count a) (l1 ++ d :: l2)) as [r t].
    destruct (StreamHist.cumulate_bins (c + Bin.count a) l1) as [r1 t1].
    simpl in *. now rewrite IH.
Qed.


Lemma cumulate_bins_means (l : list Bin.t) :
  forall c : Q, map Bin.mean (fst (StreamHist.cumulate_bins c l)) = map Bin.mean l.
Proof.
  induction l as [|a l IH]; intro c; simpl; [reflexivity|].
  specialize (IH (c + Bin.count a)).
  destruct (StreamHist.cumulate_bins (c + Bin.count a) l). simpl in *. now rewrite IH.
Qed.


(** The order of the tree depends on the means only. *)
Lemma ordered_means (l l' : list Bin.t) :
  map Bin.mean l' = map Bin.mean l -> ordered l -> ordered l'.
Proof.
  revert l'. induction l as [|a l IH]; intros [|a' l'] Hm Hs; try discriminate;
    [constructor|].
  simpl in Hm. injection Hm as Ha Hl.
  apply StronglySorted_inv in Hs. destruct Hs as [Hs Hlt].
  constructor; [apply IH; assumption|].
  apply Forall_forall. intros b' Hb'.
  apply (in_map Bin.mean) in Hb'. rewrite Hl in Hb'.
  apply in_map_iff in Hb'. destruct Hb' as (b & Hb & Hin).
  rewrite Forall_forall in Hlt. specialize (Hlt b Hin).
  unfold bin_lt in *. now rewrite Ha, <- Hb.
Qed.

Lemma cumulate_bins_ordered (l : list Bin.t) (c : Q) :
  ordered l -> ordered (fst (StreamHist.cumulate_bins c l)).
Proof. apply ordered_means, cumulate_bins_means. Qed.





(** What [_cumulate] does when the marker differs from the count. *)
Lemma _cumulate_stale (s : Sketch) :
  Qeq_bool (_count s) (_cumn s) = false ->
  StreamHist._cumulate s =
  (Ret tt,
   set_count (snd (StreamHist.cumulate_bins 0 (_bins s)))
     (set_cumn (snd (StreamHist.cumulate_bins 0 (_bins s)))
        (set_bins (fst (StreamHist.cumulate_bins 0 (_bins s))) s))).
Proof.
  intro Hstale. unfold StreamHist._cumulate, bind, get. rewrite Hstale.
  unfold StreamHist.bins.
  destruct (StreamHist.cumulate_bins 0 (_bins s)) as [tr total]. reflexivity.
Qed.

Lemma _cumulate_fresh (s : Sketch) :
  Qeq_bool (_count s) (_cumn s) = true -> StreamHist._cumulate s = (Ret tt, s).
Proof.
  intro Hfresh. unfold StreamHist._cumulate, bind, get. now rewrite Hfresh.
Qed.


Section Quantiles.
Context `{Mathjs}.


End Quantiles.

(** ** The cumulative sum between two bins *)

Lemma _sum_past_guards (x : Q) (s : Sketch) :
  _bins s <> [] ->
  Num.ltb (Fin x) (to_number (StreamHist.min s)) = false ->
  Num.geb (Fin x) (to_number (StreamHist.max s)) = false ->
  StreamHist._sum x s =
  bind StreamHist._cumulate (fun _ =>
    bind (StreamHist._bound x) (fun bound =>
      match bound with
      | (lower, upper) =>
          bind (nonnull lower) (fun lower =>
            bind (nonnull upper) (fun upper =>
              let at_min := (fst lower =? 0)%nat in
              let lower := snd lower in
              let upper := snd upper in
              let pdiff := Bin.mean upper - Bin.mean lower in
              let bdiff := x - Bin.mean lower in
              if Qeq_bool bdiff 0 then ret (cumn_value lower)
              else
                let mdiff := Bin.count upper - Bin.count lower in
                let mb := Num.add (Fin (Bin.count lower))
                            (Num.mul (Num.div (Fin mdiff) (Fin pdiff)) (Fin bdiff)) in
                let sv := if at_min then Fin (Bin.count lower / 2) else cumn_num lower in
                ret (Num (Num.add sv
                            (Num.mul (Num.div (Num.add (Fin (Bin.count lower)) mb) (Fin 2))
                                     (Num.div (Fin bdiff) (Fin pdiff)))))))
      end)) s.
Proof.
  intros Hne Hlo Hhi. unfold StreamHist._sum.
  unfold bind at 1, get at 1.
  assert (Hsize : (StreamHist.size s =? 0)%Z = false).
  { unfold StreamHist.size, StreamHist.bins.
    destruct (_bins s); [contradiction | reflexivity]. }
  rewrite Hsize, Hlo, Hhi. reflexivity.
Qed.

Lemma Qeq_bool_false_neq (x y : Q) : ~ x == y -> Qeq_bool x y = false.
Proof.
  intro Hne. destruct (Qeq_bool x y) eqn:E; [|reflexivity].
  apply Qeq_bool_iff in E. contradiction.
Qed.






(** Whether or not it recomputes the cumulative counts, [_cumulate]
    returns and leaves the last bin with its mean and its count. *)
Lemma _cumulate_last (s : Sketch) (l1 : list Bin.t) (d : Bin.t) :
  _bins s = l1 ++ [d] -> ordered (_bins s) ->
  exists s1 r1 d',
    StreamHist._cumulate s = (Ret tt, s1) /\
    _bins s1 = r1 ++ [d'] /\ ordered (_bins s1) /\
    Bin.mean d' = Bin.mean d /\ Bin.count d' = Bin.count d.
Proof.
  intros Hl Hs. destruct (Qeq_bool (_count s) (_cumn s)) eqn:E.
  - exists s, l1, d. rewrite (_cumulate_fresh s E). auto.
  - rewrite (_cumulate_stale s E). do 3 eexists. split; [reflexivity|].
    cbn [_bins set_count set_cumn set_bins].
    split; [|split; [apply cumulate_bins_ordered, Hs|]].
    + rewrite Hl, cumulate_bins_mid. reflexivity.
    + split; reflexivity.
Qed.

(** X12. On an ordered sketch, [sum(x)] for [x] above the mean of the
    last bin and below [max()] is NaN: [_bound] gives the last bin as
    both ends and the interpolation divides zero by zero. *)
Theorem sum_above_last_bin_is_NaN (x : Q) (s : Sketch) (l1 : list Bin.t) (d : Bin.t) :
  StreamHist.bins s = l1 ++ [d] ->
  ordered (StreamHist.bins s) ->
  Bin.mean d < x ->
  Num.ltb (Fin x) (to_number (StreamHist.min s)) = false ->
  Num.geb (Fin x) (to_number (StreamHist.max s)) = false ->
  fst (StreamHist.sum x s) = Ret (Num NaN).
Proof.
  unfold StreamHist.bins, StreamHist.sum. intros Hl Hs Hd Hlo Hhi.
  assert (Hne : _bins s <> []) by (rewrite Hl; destruct l1; discriminate).
  rewrite (_sum_past_guards x s Hne Hlo Hhi).
  destruct (_cumulate_last s l1 d Hl Hs) as (s1 & r1 & d' & Hrun & Hl1 & Hs1 & Hm & Hc).
  unfold bind at 1. rewrite Hrun.
  unfold bind at 1.
  rewrite (_bound_last x s1 r1 d' Hl1 Hs1) by (rewrite Hm; exact Hd).
  cbn [bind nonnull ret fst snd]. unfold bind, ret. cbn [fst snd].
  rewrite (Qeq_bool_false_neq (x - Bin.mean d') 0) by (rewrite Hm; lra).
  cbn [Num.div].
  replace (Qeq_bool (Bin.mean d' - Bin.mean d') 0) with true
    by (symmetry; apply Qeq_bool_iff; ring).
  replace (Bin.count d' - Bin.count d' ?= 0) with Eq
    by (symmetry; apply Qeq_alt; ring).
  cbn [Num.inf_of Num.mul Num.sign Num.add Num.div].
  destruct (if (length r1 =? 0)%nat then Fin (Bin.count d' / 2) else cumn_num d');
    reflexivity.
Qed.

(** ** The cumulative sum is monotone between the bins *)













Lemma bind_run {A B : Type} (m : M A) (k : A -> M B) (s s' : Sketch) (a : A) :
  m s = (Ret a, s') -> bind m k s = k a s'.
Proof. intro Hm. unfold bind. now rewrite Hm. Qed.




(** ** What one insertion does *)

Section Insertion.
Context `{Mathjs}.

Lemma _insert_unfold (x c : Q) (s : Sketch) :
  StreamHist._insert x c s =
  match StreamHist.findNearest x (inserted x c s) with
  | (Ret nearest, s1) =>
      match nearest with
      | Some (i, b) =>
          if Qeq_bool (Bin.mean b) x
             || StreamHist.isFrozen s1 && (StreamHist.size s1 =? _maxBins s1)%Z
          then (Ret tt,
                set_bins (RBTree.update i (fun b => Bin.set_count (Bin.count b + c) b)
                            (_bins s1)) s1)
          else (Ret tt,
                set_bins (RBTree.insert compareBins (Bin.mk x c 0 None) (_bins s1)) s1)
      | None =>
          (Ret tt,
           set_bins (RBTree.insert compareBins (Bin.mk x c 0 None) (_bins s1)) s1)
      end
  | (Err e, s1) => (Err e, s1)
  end.
Proof.
  remember (inserted x c s) as s0 eqn:E0.
  unfold StreamHist._insert, bind at 1 2 3 4, modify. unfold bind at 1.
  match goal with
  | |- context [StreamHist.findNearest x ?st] => change st with (inserted x c s)
  end.
  rewrite <- E0.
  destruct (StreamHist.findNearest x s0) as [[[[i b]|]|e] s1];
    try reflexivity.
  unfold bind, get.
  destruct (Qeq_bool (Bin.mean b) x
            || StreamHist.isFrozen s1 && (StreamHist.size s1 =? _maxBins s1)%Z);
    reflexivity.
Qed.

(** [_insert] on an ordered tree: the weight goes to the bin whose mean is
    [x], or in a frozen and full sketch to a nearest bin, or else a new
    bin is inserted. *)
Lemma _insert_cases (x c : Q) (s : Sketch) :
  ordered (_bins s) ->
  (exists l1 b l2,
     _bins s = l1 ++ b :: l2 /\
     (Bin.mean b == x \/
      StreamHist.isFrozen (inserted x c s) = true /\
      StreamHist.size s = _maxBins s /\ nearest_to x b (_bins s)) /\
     StreamHist._insert x c s =
     (Ret tt, set_bins (l1 ++ Bin.set_count (Bin.count b + c) b :: l2) (inserted x c s)))
  \/
  (mean_free x (_bins s) /\
   (_bins s = [] \/
    StreamHist.isFrozen (inserted x c s) && (StreamHist.size s =? _maxBins s)%Z = false) /\
   StreamHist._insert x c s =
   (Ret tt, set_bins (RBTree.insert compareBins (Bin.mk x c 0 None) (_bins s))
              (inserted x c s))).
Proof.
  intro Hs. rewrite _insert_unfold.
  set (s1 := inserted x c s).
  assert (Hbins : _bins s1 = _bins s) by reflexivity.
  assert (Hsize : StreamHist.size s1 = StreamHist.size s) by reflexivity.
  assert (Hmax : _maxBins s1 = _maxBins s) by reflexivity.
  assert (Hs1 : ordered (_bins s1)) by (rewrite Hbins; exact Hs).
  destruct (findNearest_spec x s1 Hs1) as (r & Hr & Hspec).
  destruct (findNearest_nearest x s1 Hs1) as (r' & Hr' & Hnear).
  rewrite Hr in Hr'. injection Hr' as <-.
  rewrite Hr, Hsize, Hmax, Hbins. clearbody s1.
  destruct r as [[i b]|].
  - destruct Hspec as [Hnth Hmean]. destruct Hnear as [_ Hnear].
    rewrite Hbins in Hnth, Hmean, Hnear.
    destruct (nth_error_split _ _ Hnth) as (l1 & l2 & Hl & Hi).
    destruct (Qeq_bool (Bin.mean b) x) eqn:Eq; cbn [orb].
    + left. exists l1, b, l2. split; [exact Hl|].
      split; [left; apply Qeq_bool_iff, Eq|].
      rewrite Hl, <- Hi, update_app. reflexivity.
    + destruct (StreamHist.isFrozen s1 && (StreamHist.size s =? _maxBins s)%Z) eqn:Efz.
      * left. apply andb_true_iff in Efz. destruct Efz as [Efz Esz].
        apply Z.eqb_eq in Esz.
        exists l1, b, l2. split; [exact Hl|].
        split; [right; auto|].
        rewrite Hl, <- Hi, update_app. reflexivity.
      * right. split; [|split; [right; reflexivity | reflexivity]].
        destruct Hmean as [Heq|Hfree]; [|exact Hfree].
        apply Qeq_bool_iff in Heq. congruence.
  - right. rewrite Hbins in Hspec.
    split; [rewrite Hspec; constructor | split; [now left | reflexivity]].
Qed.

End Insertion.

(** ** What one pass of the compression does *)

Section CompressionSteps.
Context `{Mathjs}.

(** The three steps of one turn of [push]. *)
Lemma push_point_unfold (x c : Q) (s : Sketch) :
  StreamHist.push_point x c s =
  match StreamHist._insert x c s with
  | (Ret _, s1) =>
      match StreamHist._compress s1 with
      | (Ret _, s2) =>
          (Ret tt,
           if Qeq_bool (_count s2) (inject_Z (_warmUp s2))
           then set_bins (map warmed (_bins s2)) s2
           else s2)
      | (Err e, s2) => (Err e, s2)
      end
  | (Err e, s1) => (Err e, s1)
  end.
Proof.
  unfold StreamHist.push_point, bind at 1.
  destruct (StreamHist._insert x c s) as [[[]|e] s1]; [|reflexivity].
  unfold bind at 1.
  destruct (StreamHist._compress s1) as [[[]|e] s2]; [|reflexivity].
  unfold bind, get, StreamHist.count.
  destruct (Qeq_bool (_count s2) (inject_Z (_warmUp s2))); reflexivity.
Qed.

End CompressionSteps.

(** ** A frozen sketch *)

Section Frozen.
Context `{Mathjs}.

Lemma map_mean_replace (l1 l2 : list Bin.t) (b : Bin.t) (c : Q) :
  map Bin.mean (l1 ++ Bin.set_count c b :: l2) = map Bin.mean (l1 ++ b :: l2).
Proof. rewrite !map_app. reflexivity. Qed.

Lemma map_mean_warmed (l : list Bin.t) : map Bin.mean (map warmed l) = map Bin.mean l.
Proof. rewrite map_map. reflexivity. Qed.

Lemma isFrozen_iff (s : Sketch) :
  StreamHist.isFrozen s = true <->
  _freeze s <> 0%Z /\ inject_Z (_freeze s) < _count s.
Proof.
  unfold StreamHist.isFrozen, StreamHist.count.
  rewrite andb_true_iff, negb_true_iff, Z.eqb_neq, Qlt_bool_iff. reflexivity.
Qed.

(** One turn of [push] on a frozen sketch that is at its capacity: the
    weight is added to a bin nearest to the point, and no mean changes. *)
Lemma push_point_frozen (x c : Q) (s : Sketch) :
  well_formed s -> 0 < c ->
  StreamHist.isFrozen s = true -> StreamHist.size s = _maxBins s ->
  exists s',
    StreamHist.push_point x c s = (Ret tt, s') /\
    well_formed s' /\ StreamHist.isFrozen s' = true /\
    StreamHist.size s' = _maxBins s' /\
    map Bin.mean (_bins s') = map Bin.mean (_bins s).
Proof.
  intros (Hs & Hp & Hmax) Hc Hfz Hfull.
  apply isFrozen_iff in Hfz. destruct Hfz as [Hf0 Hf1].
  assert (Hfz1 : StreamHist.isFrozen (inserted x c s) = true).
  { apply isFrozen_iff. simpl. split; [exact Hf0 | lra]. }
  rewrite push_point_unfold.
  destruct (_insert_spec x c s Hs Hp Hc)
    as (s1 & Hrun1 & Hs1 & Hp1 & _ & _ & Hcnt1 & _ & Hcfg1).
  assert (Hmeans1 : map Bin.mean (_bins s1) = map Bin.mean (_bins s)).
  { destruct (_insert_cases x c s Hs)
      as [(l1 & b & l2 & Hl & _ & Hrun)|(_ & Hwhy & _)].
    - rewrite Hrun in Hrun1. injection Hrun1 as <-.
      cbn [_bins set_bins]. rewrite Hl. apply map_mean_replace.
    - exfalso. destruct Hwhy as [Hnil|Hnot].
      + unfold StreamHist.size, StreamHist.bins in Hfull. rewrite Hnil in Hfull.
        simpl in Hfull. lia.
      + rewrite Hfz1, Hfull, Z.eqb_refl in Hnot. discriminate. }
  rewrite Hrun1.
  assert (Hmax1 : (1 <= _maxBins s1)%Z) by (destruct Hcfg1 as [-> _]; exact Hmax).
  assert (Hlen1 : length (_bins s1) = length (_bins s)).
  { rewrite <- (length_map Bin.mean), Hmeans1, length_map. reflexivity. }
  assert (Hfit1 : (StreamHist.size s1 <= _maxBins s1)%Z).
  { unfold StreamHist.size, StreamHist.bins in *. destruct Hcfg1 as [-> _].
    rewrite Hlen1. lia. }
  destruct (_compress_spec s1 Hs1 Hp1 Hmax1)
    as (s2 & Hrun2 & Hs2 & Hp2 & _ & _ & Hsame & _ & Hsc2).
  rewrite Hrun2. specialize (Hsame Hfit1).
  destruct Hsc2 as (Hcnt2 & _ & _ & _ & _ & Hcfg2).
  pose proof (same_config_trans _ _ _ Hcfg1 Hcfg2) as (Hm & _ & Hf & _).
  eexists. split; [reflexivity|].
  assert (Hcount : forall tr, _count (if Qeq_bool (_count s2) (inject_Z (_warmUp s2))
                                      then set_bins tr s2 else s2) = _count s + c).
  { intro tr. destruct (Qeq_bool _ _); cbn [_count set_bins]; congruence. }
  destruct (Qeq_bool (_count s2) (inject_Z (_warmUp s2))) eqn:Ewarm.
  - unfold well_formed. cbn [_bins _maxBins set_bins].
    split; [split; [|split]|split; [|split]].
    + apply ordered_map; [reflexivity | exact Hs2].
    + unfold positive_counts. rewrite Forall_map.
      apply Forall_forall. intros b _. reflexivity.
    + lia.
    + apply isFrozen_iff. cbn [_freeze _count set_bins]. rewrite Hf, Hcnt2, Hcnt1.
      split; [exact Hf0 | lra].
    + unfold StreamHist.size, StreamHist.bins in *. cbn [_bins _maxBins set_bins].
      rewrite length_map, Hsame, Hlen1, Hm. exact Hfull.
    + rewrite map_mean_warmed, Hsame. exact Hmeans1.
  - split; [repeat split; try assumption; lia|].
    split; [|split].
    + apply isFrozen_iff. rewrite Hf, Hcnt2, Hcnt1. split; [exact Hf0 | lra].
    + unfold StreamHist.size, StreamHist.bins in *. rewrite Hsame, Hlen1, Hm.
      exact Hfull.
    + rewrite Hsame. exact Hmeans1.
Qed.

Lemma push_loop_frozen (p : list Q) (c : Q) :
  forall s : Sketch,
    well_formed s -> 0 < c ->
    StreamHist.isFrozen s = true -> StreamHist.size s = _maxBins s ->
    exists s',
      StreamHist.push_loop p c s = (Ret tt, s') /\
      StreamHist.isFrozen s' = true /\
      map Bin.mean (_bins s') = map Bin.mean (_bins s).
Proof.
  induction p as [|x p IH]; intros s Hwf Hc Hfz Hfull.
  - exists s. auto.
  - destruct (push_point_frozen x c s Hwf Hc Hfz Hfull)
      as (s1 & Hrun1 & Hwf1 & Hfz1 & Hfull1 & Hmeans1).
    destruct (IH s1 Hwf1 Hc Hfz1 Hfull1) as (s' & Hrun & Hfz' & Hmeans).
    exists s'. cbn [StreamHist.push_loop]. rewrite (bind_run _ _ _ _ _ Hrun1).
    split; [exact Hrun|]. split; [exact Hfz'|]. congruence.
Qed.

Lemma push_weight_positive (cnt : option Q) :
  weight_ok cnt ->
  0 < match cnt with
      | Some c => if Qeq_bool c 0 then 1 else c
      | None => 1
      end.
Proof.
  intro Hw. destruct cnt as [c|]; [|reflexivity]. simpl in Hw.
  destruct (Qeq_bool c 0) eqn:E; [reflexivity|].
  apply Qeq_bool_neq in E. lra.
Qed.

(** X14. On a well-formed sketch that is frozen and holds [maxBins()]
    bins, [push] (weight left out or not negative) returns, adds no bin
    and changes no mean, and the sketch stays frozen. *)
Theorem frozen_push_keeps_means (p : list Q) (cnt : option Q) (s : Sketch) :
  well_formed s -> weight_ok cnt ->
  StreamHist.isFrozen s = true -> StreamHist.size s = _maxBins s ->
  exists s',
    StreamHist.push p cnt s = (Ret tt, s') /\
    map Bin.mean (StreamHist.bins s') = map Bin.mean (StreamHist.bins s) /\
    StreamHist.size s' = StreamHist.size s /\
    StreamHist.isFrozen s' = true.
Proof.
  intros Hwf Hw Hfz Hfull. unfold StreamHist.push.
  destruct (push_loop_frozen p _ s Hwf (push_weight_positive cnt Hw) Hfz Hfull)
    as (s' & Hrun & Hfz' & Hmeans).
  exists s'. split; [exact Hrun|]. split; [exact Hmeans|]. split; [|exact Hfz'].
  unfold StreamHist.size, StreamHist.bins.
  rewrite <- (length_map Bin.mean (_bins s')), Hmeans, length_map. reflexivity.
Qed.

End Frozen.

(** ** The limits and the bin means *)

Lemma Num_min_Fin (a b : Q) :
  exists m, Num.min (Fin a) (Fin b) = Fin m /\ m <= a /\ m <= b /\ (m = a \/ m = b).
Proof.
  unfold Num.min, Num.compare. destruct (a ?= b) eqn:E.
  - apply Qeq_alt in E. exists a. repeat split; auto; lra.
  - apply Qlt_alt in E. exists a. repeat split; auto; lra.
  - apply Qgt_alt in E. exists b. repeat split; auto; lra.
Qed.

Lemma Num_max_Fin (a b : Q) :
  exists m, Num.max (Fin a) (Fin b) = Fin m /\ a <= m /\ b <= m /\ (m = a \/ m = b).
Proof.
  unfold Num.max, Num.compare. destruct (a ?= b) eqn:E.
  - apply Qeq_alt in E. exists a. repeat split; auto; lra.
  - apply Qlt_alt in E. exists b. repeat split; auto; lra.
  - apply Qgt_alt in E. exists a. repeat split; auto; lra.
Qed.

Lemma within_wider (lo hi lo' hi' : Q) (l : list Bin.t) :
  lo' <= lo -> hi <= hi' ->
  Forall (fun b => lo <= Bin.mean b /\ Bin.mean b <= hi) l ->
  Forall (fun b => lo' <= Bin.mean b /\ Bin.mean b <= hi') l.
Proof.
  intros Hlo Hhi Hl. eapply Forall_impl; [|exact Hl]. intros b Hb. cbv beta in Hb. lra.
Qed.

(** ** [fastHist] *)

Lemma toArray_ordered (s : Sketch) :
  ordered (_bins s) -> ordered (StreamHist.toArray s).
Proof. intro Hs. apply ordered_map; [reflexivity | exact Hs]. Qed.

Section FastHist.
Context `{Mathjs}.

(** One turn of [push] for a point that no bin has as its mean, on a
    sketch below its capacity: the point becomes a bin of its own. *)
Lemma push_point_fresh (x c : Q) (s : Sketch) :
  well_formed s -> 0 < c -> mean_free x (_bins s) ->
  (StreamHist.size s < _maxBins s)%Z ->
  Qeq_bool (_count s + c) (inject_Z (_warmUp s)) = false ->
  exists s',
    StreamHist.push_point x c s = (Ret tt, s') /\
    _bins s' = RBTree.insert compareBins (Bin.mk x c 0 None) (_bins s).
Proof.
  intros Hwf Hc Hfree Hroom Hwarm.
  destruct (push_point_spec x c s Hwf Hc) as (s' & Hrun & _).
  exists s'. split; [exact Hrun|].
  destruct Hwf as (Hs & Hp & Hmax).
  rewrite push_point_unfold in Hrun.
  destruct (_insert_spec x c s Hs Hp Hc)
    as (s1 & Hrun1 & Hs1 & Hp1 & Hlen1 & _ & Hcnt1 & _ & Hcfg1).
  assert (Hbins1 : _bins s1 = RBTree.insert compareBins (Bin.mk x c 0 None) (_bins s)).
  { destruct (_insert_cases x c s Hs)
      as [(l1 & b & l2 & Hl & Hwhy & _)|(_ & _ & Hrun0)].
    - exfalso. destruct Hwhy as [Hb|(_ & Hfull & _)]; [|lia].
      unfold mean_free in Hfree. rewrite Hl, Forall_app in Hfree.
      destruct Hfree as [_ Hfree]. inversion Hfree; subst. contradiction.
    - rewrite Hrun0 in Hrun1. injection Hrun1 as <-. reflexivity. }
  rewrite Hrun1 in Hrun.
  assert (Hcap1 : (1 <= _maxBins s1)%Z) by (destruct Hcfg1 as [-> _]; exact Hmax).
  assert (Hfit1 : (StreamHist.size s1 <= _maxBins s1)%Z).
  { unfold StreamHist.size, StreamHist.bins in *. destruct Hcfg1 as [-> _]. lia. }
  destruct (_compress_spec s1 Hs1 Hp1 Hcap1)
    as (s2 & Hrun2 & _ & _ & _ & _ & Hsame & _ & Hsc2).
  rewrite Hrun2 in Hrun. injection Hrun as <-.
  destruct Hsc2 as (Hcnt2 & _ & _ & _ & _ & Hcfg2).
  pose proof (same_config_trans _ _ _ Hcfg1 Hcfg2) as (_ & _ & _ & Hw).
  rewrite Hcnt2, Hcnt1, Hw, Hwarm, (Hsame Hfit1). exact Hbins1.
Qed.

Lemma mean_free_insert (y : Q) (d : Bin.t) (l : list Bin.t) :
  ~ Bin.mean d == y -> mean_free y l -> mean_free y (RBTree.insert compareBins d l).
Proof.
  intros Hd Hl. apply Forall_forall. intros b Hb.
  destruct (insert_In _ _ _ Hb) as [->|Hb']; [exact Hd|].
  unfold mean_free in Hl. rewrite Forall_forall in Hl. apply Hl, Hb'.
Qed.

(** Points that differ from one another and from every bin mean, pushed
    into a sketch with room for them all: each becomes a bin. *)
Lemma push_loop_fresh (p : list Q) (c : Q) :
  forall s : Sketch,
    well_formed s -> 0 < c -> _warmUp s = 0%Z -> counted s ->
    ForallOrdPairs (fun x y => ~ x == y) p ->
    Forall (fun x => mean_free x (_bins s)) p ->
    (StreamHist.size s + Z.of_nat (length p) <= _maxBins s)%Z ->
    exists s',
      StreamHist.push_loop p c s = (Ret tt, s') /\
      ordered (_bins s') /\
      Permutation (_bins s') (_bins s ++ map (fun x => Bin.mk x c 0 None) p).
Proof.
  induction p as [|x p IH]; intros s Hwf Hc Hwu Hcs Hdist Hfree Hroom.
  - exists s. split; [reflexivity|]. split; [apply Hwf|].
    simpl. rewrite app_nil_r. reflexivity.
  - inversion Hdist as [|? ? Hx Hdist']; subst.
    inversion Hfree as [|? ? Hfx Hfree']; subst.
    assert (Hno : Qeq_bool (_count s + c) (inject_Z (_warmUp s)) = false).
    { rewrite Hwu. apply Qeq_bool_false_neq.
      pose proof (sum_counts_nonneg _ (proj1 (proj2 Hwf))) as Hnn.
      unfold counted in Hcs. rewrite Hcs. change (inject_Z 0) with 0. lra. }
    cbn [length] in Hroom. rewrite Nat2Z.inj_succ in Hroom.
    destruct (push_point_spec x c s Hwf Hc)
      as (s1 & Hrun1 & Hwf1 & _ & Hcfg1 & Hcnt1 & _ & Hsum1).
    destruct (push_point_fresh x c s Hwf Hc Hfx) as (s1' & Hrun1' & Hbins1);
      [lia | exact Hno|].
    rewrite Hrun1 in Hrun1'. injection Hrun1' as <-.
    assert (Hcs1 : counted s1).
    { unfold counted in *. rewrite Hcnt1, (Hsum1 Hno), Hcs. reflexivity. }
    destruct Hcfg1 as (Hm1 & _ & _ & Hwu1).
    destruct (IH s1 Hwf1 Hc) as (s' & Hrun & Hs' & Hperm);
      [congruence | exact Hcs1 | exact Hdist' | |
       |].
    + rewrite Hbins1. rewrite Forall_forall in Hx, Hfree' |- *. intros y Hy.
      apply mean_free_insert; [simpl; apply Hx, Hy | apply Hfree', Hy].
    + unfold StreamHist.size, StreamHist.bins in *. rewrite Hm1, Hbins1.
      pose proof (insert_length_le (Bin.mk x c 0 None) (_bins s)). lia.
    + exists s'. cbn [StreamHist.push_loop]. rewrite (bind_run _ _ _ _ _ Hrun1).
      split; [exact Hrun|]. split; [exact Hs'|].
      rewrite Hperm, Hbins1.
      rewrite <- (insert_fresh (Bin.mk x c 0 None) (_bins s) Hfx).
      simpl. apply Permutation_middle.
Qed.

(** X19. [fastHist(input, q)] for a positive integer [q] and at most
    [q] input points, no two of them equal, returns one bin of count 1
    and tss 0 for each point, in increasing order. *)
Theorem fastHist_exact_below_capacity (q : Q) (input : list Q) :
  Q_is_integer q = true -> 0 < q ->
  (Z.of_nat (length input) <= Q_to_Z q)%Z ->
  ForallOrdPairs (fun x y => ~ x == y) input ->
  exists l,
    fastHist input (JNum q) = Ret l /\
    ordered l /\
    Permutation l (map (fun x => Bin.mk x 1 0 None) input).
Proof.
  intros Hint Hpos Hroom Hdist.
  destruct (StreamHist_fresh q JUndefined Hint Hpos)
    as (s0 & Hnew & Hbins & Hmax & Hq & Hfz & Hwu & Hcnt & _).
  assert (Hwf : well_formed s0).
  { unfold well_formed. rewrite Hbins, Hmax. repeat split; [constructor.. | exact Hq]. }
  assert (Hcs : counted s0) by (unfold counted; rewrite Hbins, Hcnt; reflexivity).
  destruct (push_loop_fresh input 1 s0 Hwf eq_refl Hwu Hcs Hdist) as (s' & Hrun & Hs' & Hperm).
  - rewrite Hbins. apply Forall_forall. intros x _. constructor.
  - unfold StreamHist.size, StreamHist.bins. rewrite Hbins, Hmax. simpl. lia.
  - exists (StreamHist.toArray s'). unfold fastHist. rewrite Hnew.
    unfold StreamHist.push. rewrite Hrun.
    split; [reflexivity|]. split; [apply toArray_ordered, Hs'|].
    unfold StreamHist.toArray, StreamHist.bins.
    rewrite Hperm, Hbins. simpl. rewrite map_map. reflexivity.
Qed.

End FastHist.

(** ** Merging within the capacity *)

Section MergeCapacity.
Context `{Mathjs}.

(** The setter of [maxBins] leaves the limits as they are, whether or not
    the compression it starts returns. *)
Lemma maxBins_set_limits (q : Q) (s : Sketch) :
  _min (snd (StreamHist.maxBins (JNum q) s)) = _min s /\
  _max (snd (StreamHist.maxBins (JNum q) s)) = _max s.
Proof.
  rewrite maxBins_set_unfold by reflexivity. cbv zeta.
  set (s0 := set_maxBins _ s).
  destruct (StreamHist.size s0 >? _maxBins s0)%Z; [|split; reflexivity].
  unfold StreamHist._compress.
  pose proof (_compress_loop_scalars (S (length (StreamHist.bins s0))) None s0) as Hsc.
  destruct (StreamHist._compress_loop _ None s0) as [[[]|e] s'];
    cbn [snd] in *; destruct Hsc as (_ & _ & Hmin & Hmax & _);
    rewrite Hmin, Hmax; split; reflexivity.
Qed.

(** The limits [merge] leaves, whether or not it returns. *)
Lemma merge_unfold (that : Sketch) (mb : jsval) (s : Sketch) :
  StreamHist.merge that mb s =
  let s0 :=
    set_max (Some (Num.max (or_else NInf (_max s)) (or_else NInf (_max that))))
      (set_min (Some (Num.min (or_else PInf (_min s)) (or_else PInf (_min that))))
         (set_count (_count s + _count that) s)) in
  let n := Z.min (match Number_isInteger mb with
                  | Some n => n
                  | None => Z.min (_maxBins s) (_maxBins that)
                  end) (_maxBins s + _maxBins that) in
  match StreamHist.maxBins (JNum (inject_Z n)) s0 with
  | (Ret _, s1) =>
      StreamHist._compress
        (set_bins (fold_left (fun tr item => RBTree.insert compareBins item tr)
                     (_bins that) (_bins s1)) s1)
  | (Err e, s1) => (Err e, s1)
  end.
Proof.
  unfold StreamHist.merge. unfold bind at 1.
  rewrite merge_scalars_unfold. cbv zeta.
  destruct (StreamHist.maxBins _ _) as [[r|e] s1]; reflexivity.
Qed.

Lemma merge_limits (that : Sketch) (mb : jsval) (s : Sketch) :
  _min (snd (StreamHist.merge that mb s))
    = Some (Num.min (or_else PInf (_min s)) (or_else PInf (_min that))) /\
  _max (snd (StreamHist.merge that mb s))
    = Some (Num.max (or_else NInf (_max s)) (or_else NInf (_max that))).
Proof.
  rewrite merge_unfold. cbv zeta.
  set (s0 := set_max _ _). set (n := Z.min _ _).
  destruct (maxBins_set_limits (inject_Z n) s0) as [Hmin1 Hmax1].
  destruct (StreamHist.maxBins (JNum (inject_Z n)) s0) as [[r|e] s1];
    cbn [snd] in *; [|split; [rewrite Hmin1 | rewrite Hmax1]; reflexivity].
  set (s2 := set_bins _ s1).
  unfold StreamHist._compress.
  pose proof (_compress_loop_scalars (S (length (StreamHist.bins s2))) None s2) as Hsc.
  destruct Hsc as (_ & _ & Hmin & Hmax & _).
  rewrite Hmin, Hmax. subst s2. cbn [_min _max set_bins].
  split; [rewrite Hmin1 | rewrite Hmax1]; reflexivity.
Qed.

(** X21. Merging a sketch whose limits are [null] into a sketch whose
    limits are [null] (two new sketches, for instance) leaves [min()] at
    [Infinity] and [max()] at [-Infinity], not at [null]. *)
Theorem merge_of_sketches_without_limits (that : Sketch) (mb : jsval) (s : Sketch) :
  StreamHist.min s = None -> StreamHist.max s = None ->
  StreamHist.min that = None -> StreamHist.max that = None ->
  StreamHist.min (snd (StreamHist.merge that mb s)) = Some PInf /\
  StreamHist.max (snd (StreamHist.merge that mb s)) = Some NInf.
Proof.
  unfold StreamHist.min, StreamHist.max. intros Hmin Hmax Hmin' Hmax'.
  destruct (merge_limits that mb s) as [-> ->].
  rewrite Hmin, Hmax, Hmin', Hmax'. split; reflexivity.
Qed.

End MergeCapacity.

(** ** The cached sum of squares *)

Lemma findNearest_readonly (p : Q) : readonly (StreamHist.findNearest p).
Proof.
  unfold StreamHist.findNearest.
  apply readonly_bind; [apply readonly_get|]. intro s.
  apply readonly_if; [apply readonly_ret|].
  apply readonly_bind; [apply readonly_nonnull|]. intro nearest.
  apply readonly_if; [apply readonly_ret|].
  destruct (deref _ _) as [prev|]; [|apply readonly_ret].
  apply readonly_if; apply readonly_ret.
Qed.

Section Tss.
Context `{Mathjs}.

(** [_insert] zeroes the cached sum, and nothing else in a turn of [push]
    writes it: the cache is 0 after a turn, however the turn ends. *)
Lemma push_point_tss (x c : Q) (s : Sketch) :
  _tss (snd (StreamHist.push_point x c s)) = 0.
Proof.
  rewrite push_point_unfold.
  assert (H1 : _tss (snd (StreamHist._insert x c s)) = 0).
  { rewrite _insert_unfold.
    pose proof (findNearest_readonly x (inserted x c s)) as Hro.
    destruct (StreamHist.findNearest x (inserted x c s)) as [[[[i b]|]|e] s1];
      cbn [snd] in Hro; subst s1; try reflexivity.
    destruct (Qeq_bool (Bin.mean b) x || _); reflexivity. }
  destruct (StreamHist._insert x c s) as [[[]|e] s1]; cbn [snd] in H1; [|exact H1].
  pose proof (_compress_loop_scalars (S (length (StreamHist.bins s1))) None s1) as Hsc.
  fold (StreamHist._compress s1) in Hsc.
  destruct (StreamHist._compress s1) as [[[]|e] s2]; cbn [snd] in *;
    destruct Hsc as (_ & _ & _ & _ & Htss & _).
  - destruct (Qeq_bool (_count s2) (inject_Z (_warmUp s2))); cbn [_tss set_bins];
      congruence.
  - congruence.
Qed.

Lemma push_loop_tss (p : list Q) (c : Q) :
  forall s : Sketch, _tss s = 0 -> _tss (snd (StreamHist.push_loop p c s)) = 0.
Proof.
  induction p as [|x p IH]; intros s Hs; [exact Hs|].
  cbn [StreamHist.push_loop]. unfold bind.
  pose proof (push_point_tss x c s) as H1.
  destruct (StreamHist.push_point x c s) as [[[]|e] s1]; cbn [snd] in *;
    [apply IH, H1 | exact H1].
Qed.

(** X23. After any [push] of at least one point the cached [_tss] is 0,
    so that [tss()] recomputes it: the call returns the sum of the [tss]
    fields of the bins and stores it, and a second call returns the same
    and changes nothing more. *)
Theorem tss_after_push (x : Q) (p : list Q) (cnt : option Q) (s : Sketch) :
  let s' := snd (StreamHist.push (x :: p) cnt s) in
  let t := fold_left (fun tss b => tss + Bin.tss b) (StreamHist.bins s') 0 in
  StreamHist.tss s' = (Ret t, set_tss t s') /\
  StreamHist.tss (set_tss t s') = (Ret t, set_tss t s').
Proof.
  intros s' t.
  assert (Hz : _tss s' = 0).
  { subst s'. unfold StreamHist.push. cbn [StreamHist.push_loop]. unfold bind.
    pose proof (push_point_tss x (match cnt with
                                  | Some c => if Qeq_bool c 0 then 1 else c
                                  | None => 1
                                  end) s) as H1.
    destruct (StreamHist.push_point x _ s) as [[[]|e] s1]; cbn [snd] in *;
      [apply push_loop_tss, H1 | exact H1]. }
  split.
  - unfold StreamHist.tss, bind, get, ret, modify. rewrite Hz. reflexivity.
  - unfold StreamHist.tss, bind, get, ret, modify. cbn [_tss set_tss].
    destruct (Qeq_bool t 0) eqn:E; [|reflexivity].
    cbn [_tss set_tss StreamHist.bins _bins]. reflexivity.
Qed.

End Tss.

(** ** [_addWeight] *)


(** ** [summary] *)

Section Summaries.
Context `{Mathjs}.

(** X25. On any sketch, [reset()] returns and [summary()] called next
    throws a TypeError (from [median()], on the empty tree) and changes
    nothing. *)
Theorem summary_throws_after_reset (s : Sketch) :
  exists s',
    StreamHist.reset s = (Ret tt, s') /\
    StreamHist.summary s' = (Err TypeError, s').
Proof.
  eexists. split; [reflexivity|]. reflexivity.
Qed.

End Summaries.

(** ** [itemByIndex] *)

Section ItemByIndex.
Context {A : Type}.

Lemma RBTree_max_cons (d : A) (tr : list A) :
  RBTree.max (d :: tr)
  = match RBTree.max tr with Some x => Some x | None => Some d end.
Proof.
  unfold RBTree.max. destruct tr as [|x tr]; [reflexivity|].
  simpl length. simpl pred. change (nth_error (d :: x :: tr) (S (length tr)))
    with (nth_error (x :: tr) (length tr)).
  destruct (nth_error (x :: tr) (length tr)) eqn:E; [reflexivity|].
  apply nth_error_None in E. simpl in E. lia.
Qed.

(** Once [j] has reached [i] it stays there, and every further item is
    assigned: the last one is left. *)
Lemma itemByIndex_each_found (tr : list A) :
  forall (i : nat) (item : option A),
    RBTree.itemByIndex_each tr i i item
    = match RBTree.max tr with Some d => Some d | None => item end.
Proof.
  induction tr as [|d tr IH]; intros i item; [reflexivity|].
  simpl RBTree.itemByIndex_each. rewrite Nat.eqb_refl, IH, RBTree_max_cons.
  destruct (RBTree.max tr); reflexivity.
Qed.

Lemma itemByIndex_each_spec (tr : list A) :
  forall (j i : nat) (item : option A),
    (j <= i)%nat ->
    RBTree.itemByIndex_each tr j i item
    = if (i <? j + length tr)%nat then RBTree.max tr else item.
Proof.
  induction tr as [|d tr IH]; intros j i item Hji.
  - simpl. replace (i <? j + 0)%nat with false; [reflexivity|].
    symmetry. apply Nat.ltb_ge. lia.
  - simpl RBTree.itemByIndex_each. destruct (j =? i)%nat eqn:E.
    + apply Nat.eqb_eq in E. subst j. rewrite itemByIndex_each_found.
      replace (i <? i + length (d :: tr))%nat with true
        by (symmetry; apply Nat.ltb_lt; simpl; lia).
      rewrite RBTree_max_cons. reflexivity.
    + apply Nat.eqb_neq in E. rewrite IH by lia.
      replace (S j + length tr)%nat with (j + length (d :: tr))%nat by (simpl; lia).
      destruct (i <? j + length (d :: tr))%nat eqn:El; [|reflexivity].
      apply Nat.ltb_lt in El. rewrite RBTree_max_cons.
      destruct (RBTree.max tr) eqn:Em; [reflexivity|].
      unfold RBTree.max in Em. apply nth_error_None in Em. simpl in El.
      destruct tr; simpl in *; lia.
Qed.

(** X26. [itemByIndex(i)] returns the last item of the tree, which is
    [max()], for every [i] below the number of items, and [undefined]
    for every other [i]: the [each] of the tree goes on after the
    callback has returned [false]. It is the item at position [i] only
    for the last position. *)
Theorem itemByIndex_returns_the_last_item (tr : list A) (i : nat) :
  RBTree.itemByIndex tr i = (if (i <? length tr)%nat then RBTree.max tr else None) /\
  (RBTree.itemByIndex tr i = None <-> (length tr <= i)%nat) /\
  RBTree.itemByIndex tr (pred (length tr)) = nth_error tr (pred (length tr)).
Proof.
  assert (E : forall k, RBTree.itemByIndex tr k
                        = if (k <? length tr)%nat then RBTree.max tr else None).
  { intro k. unfold RBTree.itemByIndex. rewrite itemByIndex_each_spec by lia.
    reflexivity. }
  split; [apply E|]. split.
  - rewrite E. destruct (Nat.ltb_spec i (length tr)) as [Hlt|Hge].
    + unfold RBTree.max. rewrite nth_error_None. lia.
    + split; [intros _; exact Hge | reflexivity].
  - rewrite E. unfold RBTree.max.
    destruct (Nat.ltb_spec (pred (length tr)) (length tr)) as [Hlt|Hge]; [reflexivity|].
    symmetry. apply nth_error_None. lia.
Qed.

End ItemByIndex.

(** ** The top of the quantiles *)



Section TopQuantile.
Context `{Mathjs}.


End TopQuantile.

(** ** Reading a sketch from JSON *)

Lemma fold_insert_In (l2 : list Bin.t) :
  forall (l1 : list Bin.t) (b : Bin.t),
    In b (fold_left (fun tr item => RBTree.insert compareBins item tr) l2 l1) ->
    In b l1 \/ In b l2.
Proof.
  induction l2 as [|d l2 IH]; intros l1 b Hb; simpl in *; [now left|].
  destruct (IH _ _ Hb) as [Hin|Hin]; [|right; now right].
  destruct (insert_In _ _ _ Hin) as [->|Hin']; [right; now left | now left].
Qed.

Section FromJSON.
Context `{Mathjs}.

(** X28. [fromJSON(json)] returns for every [json]: a sketch whose tree
    is ordered by mean whatever the order of [json._bins], whose bins all
    come from [json._bins] (a bin whose mean is already in the tree is
    left out), and whose count, limits and configuration are those of
    [json]. *)
Theorem fromJSON_builds_ordered_tree (json : JSON.t) :
  exists s,
    fromJSON json = (Ret tt, s) /\
    ordered (StreamHist.bins s) /\
    (forall b, In b (StreamHist.bins s) -> In b (JSON._bins json)) /\
    (StreamHist.size s <= Z.of_nat (length (JSON._bins json)))%Z /\
    StreamHist.count s = JSON._count json /\
    StreamHist.min s = JSON._min json /\ StreamHist.max s = JSON._max json /\
    _maxBins s = JSON._maxBins json /\ _weighted s = JSON._weighted json /\
    _freeze s = JSON._freeze json /\ _warmUp s = JSON._warmUp json.
Proof.
  unfold fromJSON. rewrite StreamHist_default.
  eexists. split; [reflexivity|].
  unfold StreamHist.bins, StreamHist.size, StreamHist.bins.
  cbn [_bins _count _min _max _maxBins _weighted _freeze _warmUp
       set_bins set_tss set_max set_min set_count set_warmUp set_freeze
       set_weighted set_maxBins StreamHist.count StreamHist.min StreamHist.max].
  split; [apply fold_insert_ordered; constructor|].
  split.
  { intros b Hb. destruct (fold_insert_In _ _ _ Hb) as [[]|Hin]. exact Hin. }
  split; [|repeat split].
  assert (Hlen : forall l2 l1 : list Bin.t,
    (length (fold_left (fun tr item => RBTree.insert compareBins item tr) l2 l1)
     <= length l1 + length l2)%nat).
  { induction l2 as [|d l2 IH]; intro l1; simpl; [lia|].
    specialize (IH (RBTree.insert compareBins d l1)).
    pose proof (insert_length_le d l1). lia. }
  specialize (Hlen (JSON._bins json) []). simpl in Hlen. lia.
Qed.

End FromJSON.

(** ** [density] at the mean of the first bin *)

(** X33. [density(b)] never returns when [b] is the mean of the first bin,
    lies at or above [min()] and below [max()], and is so large that
    [b - Number.EPSILON*10] and [b + Number.EPSILON*10] are both rounded
    to [b]: the function calls itself on [b] again. Whatever the depth
    allowed, the run ends out of it, as the code ends in a RangeError. *)
Theorem density_at_first_mean_never_returns (fuel : nat) (b lo hi : Q) (s : Sketch)
    (d : Bin.t) (l : list Bin.t) :
  StreamHist.bins s = d :: l -> Bin.mean d == b ->
  StreamHist.min s = Some (Fin lo) -> StreamHist.max s = Some (Fin hi) ->
  lo <= b -> b < hi ->
  Double.sub (Fin b) (Double.mul (Fin Number_EPSILON) (Fin 10)) = Fin b ->
  Double.add (Fin b) (Double.mul (Fin Number_EPSILON) (Fin 10)) = Fin b ->
  StreamHist.density fuel b s = (Err NoTermination, s).
Proof.
  intros Hbins Hd Hmin Hmax Hlo Hhi Hsub Hadd.
  assert (Hsize : (StreamHist.size s =? 0)%Z = false).
  { unfold StreamHist.size. unfold StreamHist.bins in Hbins. rewrite Hbins.
    apply Z.eqb_neq. simpl length. lia. }
  assert (Hbound : StreamHist._bound b s = (Ret (Some (0%nat, d), Some (0%nat, d)), s)).
  { rewrite (_bound_first b s d l Hbins) by (rewrite Hd; apply Qle_refl).
    replace (Qeq_bool (Bin.mean d) b) with true
      by (symmetry; apply Qeq_bool_iff, Hd).
    reflexivity. }
  assert (Hg1 : Num.ltb (Fin b) (to_number (StreamHist.min s)) = false).
  { rewrite Hmin. unfold to_number, or_else, Num.ltb, Num.compare.
    destruct (b ?= lo) eqn:E; try reflexivity.
    apply Qlt_alt in E. lra. }
  assert (Hg2 : Num.gtb (Fin b) (to_number (StreamHist.max s)) = false).
  { rewrite Hmax. unfold to_number, or_else, Num.gtb, Num.ltb, Num.compare.
    destruct (hi ?= b) eqn:E; try reflexivity.
    apply Qlt_alt in E. lra. }
  assert (Hg3 : Num.eqb (Fin b) (Fin hi) = false).
  { unfold Num.eqb, Num.compare. destruct (b ?= hi) eqn:E; try reflexivity.
    apply Qeq_alt in E. lra. }
  induction fuel as [|fuel IH].
  - cbn [StreamHist.density]. unfold bind at 1, get at 1.
    rewrite Hsize, Hg1, Hg2. cbn [orb]. rewrite Hmin, Hmax, Hg3, andb_false_r.
    unfold bind at 1. rewrite Hbound. cbn [bind nonnull ret snd fst].
    replace (Qeq_bool (Bin.mean d) b) with true
      by (symmetry; apply Qeq_bool_iff, Hd).
    reflexivity.
  - cbn [StreamHist.density]. unfold bind at 1, get at 1.
    rewrite Hsize, Hg1, Hg2. cbn [orb]. rewrite Hmin, Hmax, Hg3, andb_false_r.
    unfold bind at 1. rewrite Hbound. cbn [bind nonnull ret snd fst].
    replace (Qeq_bool (Bin.mean d) b) with true
      by (symmetry; apply Qeq_bool_iff, Hd).
    cbn [andb]. rewrite Hsub, Hadd. unfold bind. rewrite IH. reflexivity.
Qed.

(** ** The sketch in double precision: compression *)

Lemma Qle_bool_true (x y : Q) : Qle_bool x y = true -> x <= y.
Proof. apply Qle_bool_iff. Qed.

(** The tree stays in order when two neighbours are replaced by a bin
    whose mean is at or above the first's and below the second's. *)
Lemma ordered_merge_pair_le (l1 l2 : list Bin.t) (x y m : Bin.t) :
  ordered (l1 ++ x :: y :: l2) ->
  Bin.mean x <= Bin.mean m -> Bin.mean m < Bin.mean y ->
  ordered (l1 ++ m :: l2) /\ Forall (fun a => bin_lt a y) l1.
Proof.
  intros Hs Hxm Hmy.
  apply ordered_app_inv in Hs. destruct Hs as (Hl1 & Hxy & Hcross).
  apply StronglySorted_inv in Hxy. destruct Hxy as [Hyl2 Hx].
  apply StronglySorted_inv in Hyl2. destruct Hyl2 as [Hl2 Hy].
  rewrite Forall_forall in Hy. split.
  - apply ordered_app; [assumption | |].
    + constructor; [assumption|]. rewrite Forall_forall. intros b Hb.
      unfold bin_lt in *. apply Qlt_trans with (Bin.mean y); auto.
    + intros a b Ha [<-|Hb].
      * unfold bin_lt. apply Qlt_le_trans with (Bin.mean x); [|assumption].
        apply Hcross; [assumption | now left].
      * apply Hcross; [assumption | right; now right].
  - rewrite Forall_forall. intros a Ha.
    apply Hcross; [assumption | right; now left].
Qed.

Section RoundedCompression.
Context `{Mathjs}.

(** The pair a scan picks does not depend on what [bi] and [bi1] held
    before it. *)
Lemma scan_from_None (w : bool) (rest : list Bin.t) :
  forall (a : Bin.t) (k : nat) (md : num) (pick : option ref),
    Rounded._compress_scan w a k rest md pick
    = match Rounded._compress_scan w a k rest md None with
      | Some r => Some r
      | None => pick
      end.
Proof.
  induction rest as [|b rest IH]; intros a k md pick; simpl; [reflexivity|].
  destruct (Num.ltb (Rounded.diffBins a b w) md).
  - rewrite (IH b (S k) _ (Some (k, b))).
    destruct (Rounded._compress_scan w b (S k) rest _ None); reflexivity.
  - apply IH.
Qed.

(** A pair picked by the scan is a pair of neighbours. *)
Lemma scan_neighbours (w : bool) (rest : list Bin.t) :
  forall (a : Bin.t) (k : nat) (md : num) (i : nat) (bi1 : Bin.t),
    Rounded._compress_scan w a k rest md None = Some (i, bi1) ->
    exists l1 x l2,
      a :: rest = l1 ++ x :: bi1 :: l2 /\ i = (k + length l1)%nat.
Proof.
  induction rest as [|b rest IH]; intros a k md i bi1; simpl; [discriminate|].
  destruct (Num.ltb (Rounded.diffBins a b w) md).
  - rewrite scan_from_None.
    destruct (Rounded._compress_scan w b (S k) rest _ None) as [[j y]|] eqn:E.
    + intro Hr. injection Hr as -> ->.
      destruct (IH _ _ _ _ _ E) as (l1 & x & l2 & Hl & ->).
      exists (a :: l1), x, l2. split; [simpl; now rewrite Hl | simpl; lia].
    + intro Hr. injection Hr as <- <-.
      exists [], a, rest. split; [reflexivity | simpl; lia].
  - intro E. destruct (IH _ _ _ _ _ E) as (l1 & x & l2 & Hl & ->).
    exists (a :: l1), x, l2. split; [simpl; now rewrite Hl | simpl; lia].
Qed.

(** What a clean pass does: two neighbours [x] and [y] are replaced by
    one bin that carries both counts, [y] being the bin unlinked. *)
Lemma clean_pass_spec (s : Sketch) :
  ordered (_bins s) -> clean_pass s = true ->
  exists l1 x y l2 m,
    _bins s = l1 ++ x :: y :: l2 /\
    Rounded.combineBins x y = Some m /\
    Bin.count m == Bin.count x + Bin.count y /\
    Bin.mean x <= Bin.mean m /\ Bin.mean m < Bin.mean y /\
    forall pick,
      Rounded._compress_pass pick s
      = (Ret (Some (length l1, y)), set_bins (l1 ++ m :: l2) s).
Proof.
  intros Hs Hc. unfold clean_pass, picked_pair, StreamHist.bins in Hc.
  destruct (_bins s) as [|a rest] eqn:El; [discriminate|].
  destruct (Rounded._compress_scan (_weighted s) a 0 rest PInf None)
    as [[i bi1]|] eqn:Escan; [|discriminate].
  destruct (scan_neighbours _ _ _ _ _ _ _ Escan) as (l1 & x & l2 & Hl & ->).
  simpl Nat.add in *. rewrite Hl, nth_error_app_mid in Hc.
  destruct (Rounded.combineBins x bi1) as [m|] eqn:Em; [|discriminate].
  apply andb_prop in Hc. destruct Hc as [Hc Hlt].
  apply andb_prop in Hc. destruct Hc as [Hcnt Hle].
  apply Qeq_bool_iff in Hcnt. apply Qle_bool_true in Hle.
  apply Qlt_bool_iff in Hlt.
  exists l1, x, bi1, l2, m. repeat (split; [assumption|]).
  intro pick. unfold Rounded._compress_pass, StreamHist.bins.
  rewrite El, scan_from_None, Escan, Hl, nth_error_app_mid, Em, update_app.
  rewrite Hl in Hs.
  destruct (ordered_merge_pair_le l1 l2 x bi1 m Hs Hle Hlt) as [_ Hl1].
  rewrite (remove_after_merge bi1 m l1 l2 Hl1 Hlt). reflexivity.
Qed.

(** A clean run of the loop of [_compress] returns; the tree is still in
    order, holds no more bins than the capacity and carries the same
    total count, and every bin mean lies within the bounds the means had
    before. *)
Lemma clean_loop_spec (fuel : nat) :
  forall (pick : option ref) (s : Sketch),
    ordered (_bins s) -> positive_counts (_bins s) ->
    clean_loop fuel s = true ->
    exists s', Rounded._compress_loop fuel pick s = (Ret tt, s') /\
      ordered (_bins s') /\ positive_counts (_bins s') /\
      (StreamHist.size s' <= _maxBins s')%Z /\
      (length (_bins s') <= length (_bins s))%nat /\
      ((StreamHist.size s <= _maxBins s)%Z -> s' = s) /\
      sum_counts (_bins s') == sum_counts (_bins s) /\
      same_scalars s s' /\
      (forall lo hi : Q,
         Forall (fun b => lo <= Bin.mean b /\ Bin.mean b <= hi) (_bins s) ->
         Forall (fun b => lo <= Bin.mean b /\ Bin.mean b <= hi) (_bins s')).
Proof.
  induction fuel as [|fuel IH]; intros pick s Hs Hp Hc; simpl in Hc |- *;
    destruct (StreamHist.size s >? _maxBins s)%Z eqn:E; try discriminate.
  - exists s. rewrite Z.gtb_ltb, Z.ltb_ge in E.
    repeat split; auto; reflexivity.
  - apply andb_prop in Hc. destruct Hc as [Hpass Hrest].
    destruct (clean_pass_spec s Hs Hpass)
      as (l1 & x & y & l2 & m & Hl & _ & Hcm & Hxm & Hmy & Hrun).
    rewrite (Hrun None) in Hrest. cbn [snd] in Hrest. rewrite (Hrun pick).
    set (s1 := set_bins (l1 ++ m :: l2) s) in *.
    rewrite Hl in Hs, Hp.
    destruct (ordered_merge_pair_le l1 l2 x y m Hs Hxm Hmy) as [Hs1 _].
    assert (Hcx : 0 < Bin.count x /\ 0 < Bin.count y).
    { unfold positive_counts in Hp. rewrite Forall_app in Hp.
      destruct Hp as [_ Hp]. inversion Hp as [|? ? Hcx Hp']; subst.
      inversion Hp'; subst. auto. }
    assert (Hp1 : positive_counts (_bins s1)).
    { simpl. unfold positive_counts in *. rewrite Forall_app in *.
      destruct Hp as [Hp1 Hp2]. split; [assumption|].
      inversion Hp2 as [|? ? _ Hp3]; subst. inversion Hp3; subst.
      constructor; [rewrite Hcm; lra | assumption]. }
    destruct (IH (Some (length l1, y)) s1 Hs1 Hp1 Hrest)
      as (s' & Hrun' & H1 & H2 & H3 & H4 & _ & H5 & H6 & H7).
    exists s'. split; [exact Hrun'|].
    split; [assumption|]. split; [assumption|]. split; [assumption|].
    assert (Hlen : length (_bins s1) = S (length l1 + length l2))
      by (simpl; rewrite length_app; simpl; lia).
    assert (Hlen0 : length (_bins s) = S (S (length l1 + length l2)))
      by (rewrite Hl, length_app; simpl; lia).
    split; [lia|].
    split.
    { intro Hle. apply Z.gtb_lt in E. lia. }
    split.
    { rewrite H5, Hl. simpl. rewrite !sum_counts_app. simpl. rewrite Hcm. ring. }
    split.
    { eapply same_scalars_trans; [apply same_scalars_set_bins | exact H6]. }
    intros lo hi Hb. apply H7. rewrite Hl in Hb. simpl.
    rewrite Forall_app in Hb |- *. destruct Hb as [Hb1 Hb2]. split; [assumption|].
    inversion Hb2 as [|? ? Hx Hb3]; subst. inversion Hb3 as [|? ? Hy Hb4]; subst.
    constructor; [|assumption]. split; [lra|]. apply Qlt_le_weak. lra.
  - exists s. rewrite Z.gtb_ltb, Z.ltb_ge in E.
    repeat split; auto; reflexivity.
Qed.

Lemma clean_compress_spec (s : Sketch) :
  ordered (_bins s) -> positive_counts (_bins s) ->
  clean_compress s = true ->
  exists s', Rounded._compress s = (Ret tt, s') /\
    ordered (_bins s') /\ positive_counts (_bins s') /\
    (StreamHist.size s' <= _maxBins s')%Z /\
    (length (_bins s') <= length (_bins s))%nat /\
    ((StreamHist.size s <= _maxBins s)%Z -> s' = s) /\
    sum_counts (_bins s') == sum_counts (_bins s) /\
    same_scalars s s' /\
    (forall lo hi : Q,
       Forall (fun b => lo <= Bin.mean b /\ Bin.mean b <= hi) (_bins s) ->
       Forall (fun b => lo <= Bin.mean b /\ Bin.mean b <= hi) (_bins s')).
Proof.
  intros Hs Hp Hc. unfold Rounded._compress. apply clean_loop_spec; assumption.
Qed.

End RoundedCompression.

Lemma nth_error_below (l1 l2 : list Bin.t) (P : Bin.t -> Prop) (j : nat) (a : Bin.t) :
  Forall P l1 -> (j < length l1)%nat -> nth_error (l1 ++ l2) j = Some a -> P a.
Proof.
  intros Hl Hj Hn. rewrite nth_error_app1 in Hn by exact Hj.
  rewrite Forall_forall in Hl. apply Hl. eapply nth_error_In, Hn.
Qed.

Lemma nth_error_above (l1 l2 : list Bin.t) (P : Bin.t -> Prop) (j : nat) (a : Bin.t) :
  Forall P l2 -> (length l1 <= j)%nat -> nth_error (l1 ++ l2) j = Some a -> P a.
Proof.
  intros Hl Hj Hn. rewrite nth_error_app2 in Hn by exact Hj.
  rewrite Forall_forall in Hl. apply Hl. eapply nth_error_In, Hn.
Qed.

(** ** The sketch in double precision: insertion *)

Section RoundedInsertion.
Context `{Mathjs}.

(** [findNearest] in double precision leaves the sketch as it is and
    returns [null] on an empty tree only. A bin it returns is a bin of the
    tree next to [p]; when its mean is not [p], no bin of the tree has the
    mean [p]. *)
Lemma findNearest_rounded (p : Q) (s : Sketch) :
  ordered (_bins s) ->
  exists r, Rounded.findNearest p s = (Ret r, s) /\
    match r with
    | None => _bins s = []
    | Some (i, b) =>
        nth_error (_bins s) i = Some b /\
        (Bin.mean b == p \/ mean_free p (_bins s)) /\
        beside p i (_bins s)
    end.
Proof.
  intro Hs. unfold Rounded.findNearest, bind, get, ret.
  unfold StreamHist.size, StreamHist.bins.
  destruct (_bins s) as [|b0 l0] eqn:El; [exists None; split; reflexivity|].
  rewrite <- El in *.
  replace (Z.of_nat (length (_bins s)) =? 0)%Z with false
    by (rewrite El; reflexivity).
  unfold RBTree.lowerBound.
  destruct (RBTree.lowerBound_from (compareBins (key_mean p)) (_bins s) 0)
    as [j|] eqn:Elb.
  - (* the iterator stands on a bin at or after [p] *)
    destruct (lowerBound_from_Some _ _ _ _ Elb) as (l1 & d & l2 & Hl & -> & Hl1 & Hd).
    change (0 + length l1)%nat with (length l1) in *.
    assert (Hnear : nth_error (_bins s) (length l1) = Some d)
      by (rewrite Hl; apply nth_error_app_mid).
    replace (RBTree.data (_bins s) (Some (length l1))) with (Some d)
      by (symmetry; exact Hnear).
    rewrite (deref_Some _ _ _ Hnear). simpl nonnull. unfold ret. cbn [snd].
    assert (Hpd : p <= Bin.mean d)
      by (rewrite compare_key_mean_Gt in Hd; apply Qnot_lt_le, Hd).
    assert (Hbelow : Forall (fun a => Bin.mean a < p) l1).
    { eapply Forall_impl; [|exact Hl1]. intros a Ha.
      apply compare_key_mean_Gt, Ha. }
    assert (Habove : Forall (fun a => p < Bin.mean a) l2).
    { rewrite Hl in Hs. apply ordered_app_inv in Hs.
      destruct Hs as (_ & Hs2 & _). apply StronglySorted_inv in Hs2.
      destruct Hs2 as [_ Hd2]. eapply Forall_impl; [|exact Hd2].
      unfold bin_lt. intros a Ha. apply Qle_lt_trans with (Bin.mean d); assumption. }
    assert (Hfree : Qeq_bool (Bin.mean d) p = false -> mean_free p (_bins s)).
    { intro Hne. apply Qeq_bool_neq in Hne.
      rewrite Hl. unfold mean_free. rewrite Forall_app. split.
      - eapply Forall_impl; [|exact Hbelow]. intros a Ha. apply Qlt_not_eq, Ha.
      - constructor; [exact Hne|].
        eapply Forall_impl; [|exact Habove]. intros a Ha Heq.
        simpl in Ha. lra. }
    assert (Hbeside : beside p (length l1) (_bins s)).
    { rewrite Hl. split; intros k a Hk Hn.
      - apply (nth_error_below l1 (d :: l2) _ k a Hbelow Hk Hn).
      - apply (nth_error_above (l1 ++ [d]) l2 (fun a => p < Bin.mean a) k a Habove).
        + rewrite length_app. simpl. lia.
        + rewrite <- app_assoc. exact Hn. }
    destruct (Qeq_bool (Bin.mean d) p) eqn:Eq.
    + eexists. split; [reflexivity|]. split; [exact Hnear|].
      split; [left; apply Qeq_bool_iff, Eq | exact Hbeside].
    + destruct (deref (_bins s) (RBTree.prev (_bins s) (Some (length l1))))
        as [[i' b']|] eqn:Ep.
      * assert (Hprev : nth_error (_bins s) i' = Some b' /\ S i' = length l1).
        { unfold deref in Ep. destruct l1 as [|x l1]; [discriminate|].
          simpl in Ep. rewrite El in Ep, Hl. rewrite El.
          destruct (nth_error (b0 :: l0) (length l1)) eqn:En; [|discriminate].
          injection Ep as <- <-. split; [exact En | reflexivity]. }
        destruct Hprev as [Hprev Hi'].
        assert (Hbeside' : beside p i' (_bins s)).
        { rewrite Hl. split; intros k a Hk Hn.
          - apply (nth_error_below l1 (d :: l2) _ k a Hbelow); [lia | exact Hn].
          - apply (nth_error_above (l1 ++ [d]) l2 (fun a => p < Bin.mean a) k a Habove).
            + rewrite length_app. simpl. lia.
            + rewrite <- app_assoc. exact Hn. }
        destruct (Num.ltb _ _); eexists; (split; [reflexivity|]).
        -- split; [exact Hprev|]. split; [right; auto | exact Hbeside'].
        -- split; [exact Hnear|]. split; [right; auto | exact Hbeside].
      * eexists. split; [reflexivity|]. split; [exact Hnear|].
        split; [right; auto | exact Hbeside].
  - (* every bin is below [p]: the iterator is stepped back to the last *)
    pose proof (lowerBound_from_None _ _ _ Elb) as Hall.
    assert (Hbelow : Forall (fun a => Bin.mean a < p) (_bins s)).
    { eapply Forall_impl; [|exact Hall]. intros a Ha.
      apply compare_key_mean_Gt, Ha. }
    assert (Hfree : mean_free p (_bins s)).
    { eapply Forall_impl; [|exact Hbelow]. intros a Ha. apply Qlt_not_eq, Ha. }
    destruct (exists_last (l:=_bins s)) as (l' & d & Hl);
      [rewrite El; discriminate|].
    assert (Hlen : length (_bins s) = S (length l'))
      by (rewrite Hl, length_app; simpl; lia).
    assert (Hbeside : forall i, (length l' <= S i)%nat -> beside p i (_bins s)).
    { intros i Hi. split; intros k a Hk Hn.
      - rewrite Forall_forall in Hbelow. apply Hbelow. eapply nth_error_In, Hn.
      - exfalso. assert (Hsome : nth_error (_bins s) k <> None) by congruence.
        apply nth_error_Some in Hsome. lia. }
    assert (Hit : RBTree.prev (_bins s) None = Some (length l'))
      by (simpl; rewrite Hlen; reflexivity).
    cbn [RBTree.data]. rewrite !Hit.
    assert (Hnear : nth_error (_bins s) (length l') = Some d)
      by (rewrite Hl; apply nth_error_last).
    rewrite (deref_Some _ _ _ Hnear). simpl nonnull. unfold ret. cbn [snd].
    destruct (Qeq_bool (Bin.mean d) p) eqn:Eq.
    + eexists. split; [reflexivity|]. split; [exact Hnear|].
      split; [right; exact Hfree | apply Hbeside; lia].
    + destruct (deref (_bins s) (RBTree.prev (_bins s) (Some (length l'))))
        as [[i' b']|] eqn:Ep.
      * assert (Hprev : nth_error (_bins s) i' = Some b' /\ S i' = length l').
        { unfold deref in Ep. destruct l' as [|x l']; [discriminate|].
          simpl in Ep. rewrite El in Ep. rewrite El.
          destruct (nth_error (b0 :: l0) (length l')) eqn:En; [|discriminate].
          injection Ep as <- <-. split; [exact En | reflexivity]. }
        destruct Hprev as [Hprev Hi'].
        destruct (Num.ltb _ _); eexists; (split; [reflexivity|]).
        -- split; [exact Hprev|]. split; [right; auto | apply Hbeside; lia].
        -- split; [exact Hnear|]. split; [right; auto | apply Hbeside; lia].
      * eexists. split; [reflexivity|]. split; [exact Hnear|].
        split; [right; auto | apply Hbeside; lia].
Qed.

(** What [findNearest] returns depends on the bins only. *)
Lemma findNearest_rounded_fst (p : Q) (s s' : Sketch) :
  _bins s = _bins s' ->
  fst (Rounded.findNearest p s) = fst (Rounded.findNearest p s').
Proof.
  intro Hb. unfold Rounded.findNearest, StreamHist.size, StreamHist.bins.
  cbv [bind get ret nonnull fail]. rewrite Hb.
  repeat match goal with
         | |- context [if ?c then _ else _] => destruct c
         | |- context [match ?o with Some _ => _ | None => _ end] => destruct o
         end; reflexivity.
Qed.

(** A clean [_insert] adds the weight [c] to the bins: to the bin whose
    mean is [x] (or, in a frozen, full sketch, to the bin [findNearest]
    returns) or as a new bin. The order of the bins and the sign of their
    counts are kept. *)
Lemma _insert_rounded (x c : Q) (s : Sketch) :
  ordered (_bins s) -> positive_counts (_bins s) -> 0 < c ->
  clean_insert x c s = true ->
  exists s', Rounded._insert x c s = (Ret tt, s') /\
    ordered (_bins s') /\ positive_counts (_bins s') /\
    (length (_bins s') <= S (length (_bins s)))%nat /\
    sum_counts (_bins s') == sum_counts (_bins s) + c /\
    _count s' == _count s + c /\ _cumn s' = _cumn s /\ same_config s s' /\
    _min s' = Some (Num.min (or_else PInf (_min s)) (Fin x)) /\
    _max s' = Some (Num.max (or_else NInf (_max s)) (Fin x)) /\
    (forall lo hi : Q, lo <= x -> x <= hi ->
       Forall (fun b => lo <= Bin.mean b /\ Bin.mean b <= hi) (_bins s) ->
       Forall (fun b => lo <= Bin.mean b /\ Bin.mean b <= hi) (_bins s')).
Proof.
  intros Hs Hp Hc Hclean. unfold clean_insert in Hclean.
  unfold Rounded._insert, bind at 1 2 3, modify, get.
  cbn [_count set_max set_min].
  destruct (Double.add (Fin (_count s)) (Fin c)) as [count| | |] eqn:Ecount;
    try discriminate.
  apply andb_prop in Hclean. destruct Hclean as [Hcount Hclean].
  apply Qeq_bool_iff in Hcount.
  unfold Rounded.finite at 1, bind at 1, ret at 1. unfold bind at 1 2.
  set (s1 := set_tss 0 _).
  assert (Hbins : _bins s1 = _bins s) by reflexivity.
  assert (Hs1 : ordered (_bins s1)) by (rewrite Hbins; exact Hs).
  destruct (findNearest_rounded x s1 Hs1) as (r & Hr & Hspec).
  assert (Hr0 : fst (Rounded.findNearest x s) = Ret r).
  { rewrite (findNearest_rounded_fst x s s1) by reflexivity. now rewrite Hr. }
  rewrite Hr0 in Hclean.
  unfold bind at 1. rewrite Hr. unfold bind at 1, get.
  assert (Hnew : mean_free x (_bins s) ->
    exists s', StreamHist._newBin x c s1 = (Ret tt, s') /\
      ordered (_bins s') /\ positive_counts (_bins s') /\
      (length (_bins s') <= S (length (_bins s)))%nat /\
      sum_counts (_bins s') == sum_counts (_bins s) + c /\
      _count s' == _count s + c /\ _cumn s' = _cumn s /\ same_config s s' /\
      _min s' = Some (Num.min (or_else PInf (_min s)) (Fin x)) /\
      _max s' = Some (Num.max (or_else NInf (_max s)) (Fin x)) /\
      (forall lo hi : Q, lo <= x -> x <= hi ->
         Forall (fun b => lo <= Bin.mean b /\ Bin.mean b <= hi) (_bins s) ->
         Forall (fun b => lo <= Bin.mean b /\ Bin.mean b <= hi) (_bins s'))).
  { intro Hfree. eexists. split; [reflexivity|].
    unfold StreamHist.bins. rewrite Hbins. cbn [_bins set_bins].
    split; [apply insert_ordered, Hs|].
    split; [apply insert_positive; assumption|].
    split; [apply insert_length_le|].
    split.
    { rewrite <- (sum_counts_perm _ _ (insert_fresh (Bin.mk x c 0 None) (_bins s) Hfree)).
      simpl. ring. }
    split; [exact Hcount|]. split; [reflexivity|]. split; [repeat split|].
    split; [reflexivity|]. split; [reflexivity|].
    intros lo hi Hlo Hhi Hb. rewrite Forall_forall in Hb |- *. intros y Hy.
    destruct (insert_In _ _ _ Hy) as [->|Hy']; [simpl; split; assumption | auto]. }
  destruct r as [[i b]|].
  - destruct Hspec as (Hnth & Hmean & _). rewrite Hbins in Hnth, Hmean.
    change (Rounded.joins x b (set_count count s)) with (Rounded.joins x b s1) in Hclean.
    destruct (Rounded.joins x b s1) eqn:Econd.
    + (* the weight goes to an existing bin *)
      unfold Double.exact_sum in Hclean.
      destruct (Double.add (Fin (Bin.count b)) (Fin c)) as [cb| | |]; try discriminate.
      apply Qeq_bool_iff in Hclean.
      unfold bind, Rounded.finite, ret, modify.
      eexists. split; [reflexivity|].
      unfold StreamHist.bins. rewrite Hbins. cbn [_bins set_bins].
      destruct (nth_error_split _ _ Hnth) as (l1 & l2 & Hl & Hi).
      rewrite Hl, <- Hi, update_app.
      rewrite Hl in Hs, Hp.
      split; [|split; [|split; [|split; [|split; [|split; [|split; [|split; [|split]]]]]]]].
      * eapply ordered_replace; [exact Hs | |]; unfold bin_lt; simpl; auto.
      * eapply positive_counts_replace; [exact Hp|]. simpl.
        unfold positive_counts in Hp. rewrite Forall_app in Hp.
        destruct Hp as [_ Hp]. inversion Hp; subst. rewrite Hclean. lra.
      * rewrite !length_app. simpl. lia.
      * apply sum_counts_replace. simpl. exact Hclean.
      * exact Hcount.
      * reflexivity.
      * repeat split.
      * reflexivity.
      * reflexivity.
      * intros lo hi _ _ Hb. rewrite Forall_app in Hb |- *.
        destruct Hb as [Hb1 Hb2]. split; [assumption|].
        inversion Hb2; subst. constructor; assumption.
    + unfold Rounded.joins in Econd.
      apply orb_false_iff in Econd. destruct Econd as [Ene _].
      apply Hnew. destruct Hmean as [Heq|Hfree]; [|exact Hfree].
      apply Qeq_bool_iff in Heq. congruence.
  - rewrite Hbins in Hspec. apply Hnew. rewrite Hspec. constructor.
Qed.

End RoundedInsertion.

Lemma Qeq_bool_comp (x y z : Q) : x == y -> Qeq_bool x z = Qeq_bool y z.
Proof.
  intro Hxy. destruct (Qeq_bool y z) eqn:E.
  - apply Qeq_bool_iff. apply Qeq_bool_iff in E. now rewrite Hxy.
  - apply Qeq_bool_neq in E. destruct (Qeq_bool x z) eqn:E'; [|reflexivity].
    apply Qeq_bool_iff in E'. exfalso. apply E. now rewrite <- Hxy.
Qed.

(** ** The sketch in double precision: pushing points *)

Section RoundedPushing.
Context `{Mathjs}.

(** One clean turn of the loop of [push] on a well-formed sketch returns,
    keeps the sketch well formed and within its capacity, and raises
    [count()] by the weight; unless the turn ends in the warm-up reset,
    the total count of the bins rises by the weight too. *)
Lemma push_point_rounded (x c : Q) (s : Sketch) :
  well_formed s -> 0 < c -> clean_point x c s = true ->
  exists s', Rounded.push_point x c s = (Ret tt, s') /\
    well_formed s' /\ (StreamHist.size s' <= _maxBins s')%Z /\
    same_config s s' /\ _count s' == _count s + c /\ _cumn s' = _cumn s /\
    (Qeq_bool (_count s + c) (inject_Z (_warmUp s)) = false ->
     sum_counts (_bins s') == sum_counts (_bins s) + c) /\
    _min s' = Some (Num.min (or_else PInf (_min s)) (Fin x)) /\
    _max s' = Some (Num.max (or_else NInf (_max s)) (Fin x)) /\
    (forall lo hi : Q, lo <= x -> x <= hi ->
       Forall (fun b => lo <= Bin.mean b /\ Bin.mean b <= hi) (_bins s) ->
       Forall (fun b => lo <= Bin.mean b /\ Bin.mean b <= hi) (_bins s')).
Proof.
  intros (Hs & Hp & Hmax) Hc Hclean. unfold clean_point in Hclean.
  apply andb_prop in Hclean. destruct Hclean as [Hins Hcomp].
  unfold Rounded.push_point.
  destruct (_insert_rounded x c s Hs Hp Hc Hins)
    as (s1 & Hrun1 & Hs1 & Hp1 & _ & Hsum1 & Hcnt1 & Hcumn1 & Hcfg1 & Hmin1 & Hmax1 & Hin1).
  rewrite Hrun1 in Hcomp. cbn [snd] in Hcomp.
  unfold bind at 1. rewrite Hrun1.
  destruct (clean_compress_spec s1 Hs1 Hp1 Hcomp)
    as (s2 & Hrun2 & Hs2 & Hp2 & Hsize2 & _ & _ & Hsum2 & Hsc2 & Hin2).
  unfold bind at 1. rewrite Hrun2. unfold bind, get.
  destruct Hsc2 as (Hcnt2 & Hcumn2 & Hmin2 & Hmax2 & _ & Hcfg2).
  pose proof (same_config_trans _ _ _ Hcfg1 Hcfg2) as Hcfg.
  assert (Hcap : (1 <= _maxBins s2)%Z) by (destruct Hcfg as [-> _]; exact Hmax).
  assert (Hwarm : Qeq_bool (_count s2) (inject_Z (_warmUp s2))
                  = Qeq_bool (_count s + c) (inject_Z (_warmUp s))).
  { destruct Hcfg as (_ & _ & _ & ->). apply Qeq_bool_comp.
    rewrite Hcnt2. exact Hcnt1. }
  unfold StreamHist.count. rewrite Hwarm.
  destruct (Qeq_bool (_count s + c) (inject_Z (_warmUp s))) eqn:Ewarm.
  - (* the warm-up reset *)
    eexists. split; [reflexivity|]. unfold StreamHist.bins.
    split; [split; [|split]|].
    + cbn [_bins set_bins]. apply ordered_map; [reflexivity | exact Hs2].
    + cbn [_bins set_bins]. unfold positive_counts. rewrite Forall_map.
      apply Forall_forall. intros b _. simpl. reflexivity.
    + exact Hcap.
    + split; [|split; [|split; [|split; [|split; [|split; [|split]]]]]].
      * unfold StreamHist.size, StreamHist.bins in *. cbn [_bins set_bins _maxBins].
        rewrite length_map. exact Hsize2.
      * exact Hcfg.
      * cbn [_count set_bins]. rewrite Hcnt2. exact Hcnt1.
      * cbn [_cumn set_bins]. congruence.
      * discriminate.
      * cbn [_min set_bins]. congruence.
      * cbn [_max set_bins]. congruence.
      * intros lo hi Hlo Hhi Hb. cbn [_bins set_bins]. rewrite Forall_map.
        simpl. apply Hin2. apply (Hin1 lo hi Hlo Hhi Hb).
  - exists s2. split; [reflexivity|].
    split; [repeat split; assumption|].
    split; [exact Hsize2|]. split; [exact Hcfg|].
    split; [rewrite Hcnt2; exact Hcnt1|]. split; [congruence|].
    split; [intros _; rewrite Hsum2; exact Hsum1|].
    split; [congruence|]. split; [congruence|].
    intros lo hi Hlo Hhi Hb. apply Hin2. apply (Hin1 lo hi Hlo Hhi Hb).
Qed.

Lemma clean_push_loop_cons (x : Q) (p : list Q) (c : Q) (s : Sketch) :
  clean_push_loop (x :: p) c s = true ->
  clean_point x c s = true /\
  clean_push_loop p c (snd (Rounded.push_point x c s)) = true.
Proof. simpl. intro Hc. apply andb_prop in Hc. exact Hc. Qed.

Lemma push_loop_rounded (p : list Q) (c : Q) :
  forall s : Sketch,
    well_formed s -> 0 < c -> clean_push_loop p c s = true ->
    exists s', Rounded.push_loop p c s = (Ret tt, s') /\
      well_formed s' /\
      ((StreamHist.size s <= _maxBins s)%Z -> (StreamHist.size s' <= _maxBins s')%Z) /\
      same_config s s' /\
      _count s' == _count s + c * inject_Z (Z.of_nat (length p)) /\
      (_warmUp s = 0%Z -> 0 <= _count s ->
       sum_counts (_bins s')
         == sum_counts (_bins s) + c * inject_Z (Z.of_nat (length p))).
Proof.
  induction p as [|x p IH]; intros s Hwf Hc Hclean.
  - exists s. split; [reflexivity|]. split; [exact Hwf|]. split; [auto|].
    split; [apply same_config_refl|]. simpl. split; [ring | intros _ _; ring].
  - apply clean_push_loop_cons in Hclean. destruct Hclean as [Hpt Hrest].
    destruct (push_point_rounded x c s Hwf Hc Hpt)
      as (s1 & Hrun1 & Hwf1 & Hsize1 & Hcfg1 & Hcnt1 & _ & Hsum1 & _).
    rewrite Hrun1 in Hrest. cbn [snd] in Hrest.
    destruct (IH s1 Hwf1 Hc Hrest) as (s' & Hrun & Hwf' & Hsize' & Hcfg' & Hcnt' & Hsum').
    exists s'. cbn [Rounded.push_loop]. rewrite (bind_run _ _ _ _ _ Hrun1).
    split; [exact Hrun|]. split; [exact Hwf'|].
    split; [auto|]. split; [eapply same_config_trans; eassumption|].
    assert (Hlen : inject_Z (Z.of_nat (length (x :: p)))
                   == 1 + inject_Z (Z.of_nat (length p))).
    { simpl length. rewrite Nat2Z.inj_succ, <- Z.add_1_l, inject_Z_plus. reflexivity. }
    split.
    + rewrite Hcnt', Hcnt1, Hlen. ring.
    + intros Hw Hnn.
      assert (Hno : Qeq_bool (_count s + c) (inject_Z (_warmUp s)) = false).
      { rewrite Hw. destruct (Qeq_bool (_count s + c) (inject_Z 0)) eqn:E;
          [|reflexivity].
        apply Qeq_bool_iff in E. change (inject_Z 0) with 0 in E. lra. }
      rewrite Hsum', (Hsum1 Hno), Hlen; [ring | |].
      * destruct Hcfg1 as (_ & _ & _ & ->). exact Hw.
      * rewrite Hcnt1. lra.
Qed.

Lemma weight_positive (cnt : option Q) : weight_ok cnt -> 0 < Rounded.weight cnt.
Proof.
  intro Hw. unfold Rounded.weight. destruct cnt as [c|]; [|reflexivity].
  simpl in Hw. destruct (Qeq_bool c 0) eqn:E; [reflexivity|].
  apply Qeq_bool_neq in E. apply Qle_lteq in Hw.
  destruct Hw as [Hw|Hw]; [exact Hw|]. exfalso. apply E. symmetry. exact Hw.
Qed.

End RoundedPushing.

Lemma disjoint_means_free (that tr : list Bin.t) :
  disjoint_means that tr = true ->
  forall b, In b that -> mean_free (Bin.mean b) tr.
Proof.
  unfold disjoint_means. rewrite forallb_forall. intros Hd b Hb.
  specialize (Hd b Hb). rewrite forallb_forall in Hd.
  unfold mean_free. rewrite Forall_forall. intros a Ha.
  specialize (Hd a Ha). apply negb_true_iff in Hd. apply Qeq_bool_neq, Hd.
Qed.

(** ** The sketch in double precision: merging *)

Section RoundedMerging.
Context `{Mathjs}.

Lemma maxBins_rounded_unfold (v : jsval) (s : Sketch) :
  not_nullish v = true ->
  Rounded.maxBins v s =
  let s0 := set_maxBins (match Number_isInteger v with
                         | Some n => n
                         | None => 100%Z
                         end) s in
  if (StreamHist.size s0 >? _maxBins s0)%Z
  then match Rounded._compress s0 with
       | (Ret _, s') => (Ret (_maxBins s'), s')
       | (Err e, s') => (Err e, s')
       end
  else (Ret (_maxBins s0), s0).
Proof.
  intro Hv. unfold Rounded.maxBins. rewrite Hv.
  cbv [bind modify get ret]. cbv zeta.
  destruct (StreamHist.size _ >? _maxBins _)%Z; reflexivity.
Qed.

(** The accessor [maxBins(n)] in double precision, for an integer [n],
    when the compression it may start is clean. *)
Lemma maxBins_set_rounded (n : Z) (s : Sketch) :
  ordered (_bins s) -> positive_counts (_bins s) ->
  clean_compress (set_maxBins n s) = true ->
  exists s', Rounded.maxBins (JNum (inject_Z n)) s = (Ret n, s') /\
    ordered (_bins s') /\ positive_counts (_bins s') /\ _maxBins s' = n /\
    (StreamHist.size s' <= n)%Z /\
    (length (_bins s') <= length (_bins s))%nat /\
    ((StreamHist.size s <= n)%Z -> _bins s' = _bins s) /\
    sum_counts (_bins s') == sum_counts (_bins s) /\
    _count s' = _count s /\ _cumn s' = _cumn s /\ _min s' = _min s /\
    _max s' = _max s /\ _tss s' = _tss s /\ _weighted s' = _weighted s /\
    _freeze s' = _freeze s /\ _warmUp s' = _warmUp s /\
    (forall lo hi : Q,
       Forall (fun b => lo <= Bin.mean b /\ Bin.mean b <= hi) (_bins s) ->
       Forall (fun b => lo <= Bin.mean b /\ Bin.mean b <= hi) (_bins s')).
Proof.
  intros Hs Hp Hclean. rewrite maxBins_rounded_unfold by reflexivity.
  rewrite Number_isInteger_inject_Z. cbv zeta.
  set (s0 := set_maxBins n s) in *.
  destruct (clean_compress_spec s0 Hs Hp Hclean)
    as (s' & Hrun & Hs' & Hp' & Hsize & Hlen & Hsame & Hsum & Hsc & Hin).
  destruct Hsc as (Hc & Hcu & Hmi & Hma & Ht & Hm & Hw & Hf & Hwu).
  change (_maxBins s0) with n in *.
  change (StreamHist.size s0) with (StreamHist.size s) in *.
  assert (Hres : (if (StreamHist.size s >? n)%Z
                  then match Rounded._compress s0 with
                       | (Ret _, s') => (Ret (_maxBins s'), s')
                       | (Err e, s') => (Err e, s')
                       end
                  else (Ret n, s0)) = (Ret n, s')).
  { destruct (StreamHist.size s >? n)%Z eqn:E.
    - rewrite Hrun, Hm. reflexivity.
    - rewrite Z.gtb_ltb, Z.ltb_ge in E. rewrite (Hsame E). reflexivity. }
  rewrite Hres. exists s'. split; [reflexivity|].
  rewrite Hm in Hsize.
  repeat split; auto.
  intro Hle. rewrite (Hsame Hle). reflexivity.
Qed.

(** [merge(that, maxBins)] in double precision, when it is clean: it
    returns, the receiver is well formed and within the capacity the call
    settles on, [count()] is the sum of the two counts and the bins hold
    the two total counts together. *)
Lemma merge_rounded (that : Sketch) (mb : jsval) (s : Sketch) :
  ordered (_bins s) -> positive_counts (_bins s) ->
  ordered (_bins that) -> positive_counts (_bins that) ->
  clean_merge that mb s = true ->
  exists s', Rounded.merge that mb s = (Ret tt, s') /\
    well_formed s' /\
    _maxBins s' = Rounded.merge_capacity that mb s /\
    (StreamHist.size s' <= _maxBins s')%Z /\
    _count s' == _count s + _count that /\
    sum_counts (_bins s') == sum_counts (_bins s) + sum_counts (_bins that) /\
    _min s' = Some (Num.min (or_else PInf (_min s)) (or_else PInf (_min that))) /\
    _max s' = Some (Num.max (or_else NInf (_max s)) (or_else NInf (_max that))) /\
    _weighted s' = _weighted s /\ _freeze s' = _freeze s /\ _warmUp s' = _warmUp s.
Proof.
  intros Hs Hp Hts Htp Hclean. unfold clean_merge in Hclean.
  apply andb_prop in Hclean. destruct Hclean as [Hsum Hclean].
  unfold Double.exact_sum in Hsum.
  assert (Htot : exists count,
    count == _count s + _count that /\
    Rounded.merge_totals that s =
    (Ret tt,
     set_max (Some (Num.max (or_else NInf (_max s)) (or_else NInf (_max that))))
       (set_min (Some (Num.min (or_else PInf (_min s)) (or_else PInf (_min that))))
          (set_count count s)))).
  { unfold Rounded.merge_totals, StreamHist.count in *.
    cbv [bind get modify]. 
    destruct (Double.add (Fin (_count s)) (Fin (_count that))) as [count| | |];
      try discriminate.
    apply Qeq_bool_iff in Hsum. exists count. split; [exact Hsum|]. reflexivity. }
  destruct Htot as (count & Hcount & Htot).
  rewrite Htot in Hclean. cbn [snd] in Hclean. cbv zeta in Hclean.
  set (s0 := set_max _ _) in *.
  change (Rounded.merge_capacity that mb s0) with (Rounded.merge_capacity that mb s) in Hclean.
  set (n := Rounded.merge_capacity that mb s) in *.
  apply andb_prop in Hclean. destruct Hclean as [Hclean Hrest].
  apply andb_prop in Hclean. destruct Hclean as [Hn Hacc].
  apply Z.leb_le in Hn.
  destruct (maxBins_set_rounded n s0 Hs Hp Hacc)
    as (s1 & Hrun1 & Hs1 & Hp1 & Hm1 & _ & _ & _ & Hsum1 & Hc1 & _ & Hmi1 & Hma1
        & _ & Hw1 & Hf1 & Hwu1 & _).
  assert (Hsc : Rounded.merge_scalars that mb s = (Ret tt, s1)).
  { unfold Rounded.merge_scalars. rewrite (bind_run _ _ _ _ _ Htot).
    unfold bind at 1, get.
    change (Rounded.merge_capacity that mb s0) with n.
    rewrite (bind_run _ _ _ _ _ Hrun1). reflexivity. }
  rewrite Hsc in Hrest. cbn [snd] in Hrest.
  apply andb_prop in Hrest. destruct Hrest as [Hdis Hcomp].
  pose proof (disjoint_means_free _ _ Hdis) as Hfree.
  cbv [StreamHist.merge_bins modify] in Hcomp. cbn [snd] in Hcomp.
  set (s2 := set_bins _ s1) in Hcomp.
  assert (Hs2 : ordered (_bins s2)) by (apply fold_insert_ordered, Hs1).
  assert (Hp2 : positive_counts (_bins s2))
    by (apply fold_insert_positive; assumption).
  destruct (clean_compress_spec s2 Hs2 Hp2 Hcomp)
    as (s' & Hrun & Hs' & Hp' & Hsize & _ & _ & Hsum' & Hsc' & _).
  destruct Hsc' as (Hc' & _ & Hmi' & Hma' & _ & Hm' & Hw' & Hf' & Hwu').
  exists s'. split.
  { unfold Rounded.merge. rewrite (bind_run _ _ _ _ _ Hsc).
    unfold bind at 1. cbv [StreamHist.merge_bins modify]. exact Hrun. }
  change (_maxBins s2) with (_maxBins s1) in Hm'.
  split; [repeat split; try assumption; rewrite Hm', Hm1; exact Hn|].
  split; [rewrite Hm', Hm1; reflexivity|].
  split; [exact Hsize|].
  split; [rewrite Hc'; cbn [_count set_bins s2]; rewrite Hc1; exact Hcount|].
  split.
  { rewrite Hsum'. cbn [_bins set_bins s2].
    rewrite <- (sum_counts_perm _ _
                  (fold_insert_spec (_bins that) (_bins s1) Hts Hfree)).
    rewrite sum_counts_app, Hsum1. reflexivity. }
  split; [rewrite Hmi'; cbn [_min set_bins s2]; rewrite Hmi1; reflexivity|].
  split; [rewrite Hma'; cbn [_max set_bins s2]; rewrite Hma1; reflexivity|].
  split; [rewrite Hw'; cbn [_weighted set_bins s2]; rewrite Hw1; reflexivity|].
  split; [rewrite Hf'; cbn [_freeze set_bins s2]; rewrite Hf1; reflexivity|].
  rewrite Hwu'. cbn [_warmUp set_bins s2]. rewrite Hwu1. reflexivity.
Qed.

End RoundedMerging.

(** ** The sketch in double precision: counts and capacity *)

Section RoundedClaims.
Context `{Mathjs}.




(** X1. In double precision, a clean [push] (weight left out or not
    negative) on a well-formed sketch returns without throwing and leaves
    the sketch well formed, with its configuration as it was and, when it
    was within its capacity, within its capacity again. *)
Theorem push_keeps_well_formed (p : list Q) (cnt : option Q) (s : Sketch) :
  well_formed s -> weight_ok cnt -> clean_push p cnt s = true ->
  exists s', Rounded.push p cnt s = (Ret tt, s') /\
    well_formed s' /\ same_config s s' /\
    ((StreamHist.size s <= _maxBins s)%Z -> (StreamHist.size s' <= _maxBins s')%Z).
Proof.
  intros Hwf Hw Hclean.
  destruct (push_loop_rounded p (Rounded.weight cnt) s Hwf (weight_positive cnt Hw) Hclean)
    as (s' & Hrun & Hwf' & Hsize & Hcfg & _).
  exists s'. split; [exact Hrun|]. split; [exact Hwf'|].
  split; [exact Hcfg | exact Hsize].
Qed.

(** X3. In double precision, a clean [_compress] on a sketch whose bins
    are in order with positive counts returns with at most [maxBins()]
    bins, still in order with positive counts, and with the same total
    count; it changes nothing when the sketch is within its capacity. *)
Theorem compress_keeps_total_count (s : Sketch) :
  ordered (StreamHist.bins s) -> positive_counts (StreamHist.bins s) ->
  clean_compress s = true ->
  exists s', Rounded._compress s = (Ret tt, s') /\
    ordered (StreamHist.bins s') /\ positive_counts (StreamHist.bins s') /\
    (StreamHist.size s' <= _maxBins s')%Z /\
    sum_counts (StreamHist.bins s') == sum_counts (StreamHist.bins s) /\
    StreamHist.count s' = StreamHist.count s /\
    ((StreamHist.size s <= _maxBins s)%Z -> s' = s).
Proof.
  unfold StreamHist.bins, StreamHist.count. intros Hs Hp Hclean.
  destruct (clean_compress_spec s Hs Hp Hclean)
    as (s' & Hrun & Hs' & Hp' & Hsize & _ & Hsame & Hsum & Hsc & _).
  exists s'. repeat split; try assumption. apply Hsc.
Qed.

(** X7. On a tree ordered by mean, [findNearest(p)] in double precision
    changes nothing and returns [null] exactly when there is no bin.
    Otherwise it returns a bin of the tree: the bin of mean [p] when the
    tree holds one, and in any case a bin next to [p] in the order of the
    tree: every bin before it is below [p], and every bin after it, the
    next one excepted, is above [p]. It need not be the nearer of the
    two neighbours of [p], as the distances it compares are rounded. *)
Theorem findNearest_returns_a_neighbour (p : Q) (s : Sketch) :
  ordered (StreamHist.bins s) ->
  exists r, Rounded.findNearest p s = (Ret r, s) /\
    match r with
    | None => StreamHist.bins s = []
    | Some (i, b) =>
        nth_error (StreamHist.bins s) i = Some b /\
        (Bin.mean b == p \/ mean_free p (StreamHist.bins s)) /\
        beside p i (StreamHist.bins s)
    end.
Proof. unfold StreamHist.bins. apply findNearest_rounded. Qed.


(** X20. In double precision, a clean [merge(that, maxBins)] on a receiver
    and a [that] whose bins are in order with positive counts returns;
    the receiver is well formed, [maxBins()] is the capacity the call
    settles on ([maxBins] if an integer, else the smaller of the two
    capacities, and never more than their sum) and [size()] does not
    exceed it, [count()] is the sum of the two counts, the bins hold the
    two total counts together, and [min()] and [max()] are the extremes
    of the two pairs of limits. *)
Theorem merge_respects_capacity (that : Sketch) (mb : jsval) (s : Sketch) :
  ordered (StreamHist.bins s) -> positive_counts (StreamHist.bins s) ->
  ordered (StreamHist.bins that) -> positive_counts (StreamHist.bins that) ->
  clean_merge that mb s = true ->
  let n := Z.min (match Number_isInteger mb with
                  | Some n => n
                  | None => Z.min (_maxBins s) (_maxBins that)
                  end) (_maxBins s + _maxBins that) in
  exists s',
    Rounded.merge that mb s = (Ret tt, s') /\
    well_formed s' /\
    Rounded.maxBins JUndefined s' = (Ret n, s') /\
    (StreamHist.size s' <= n)%Z /\
    StreamHist.count s' == StreamHist.count s + StreamHist.count that /\
    sum_counts (StreamHist.bins s')
      == sum_counts (StreamHist.bins s) + sum_counts (StreamHist.bins that) /\
    StreamHist.min s'
      = Some (Num.min (or_else PInf (StreamHist.min s)) (or_else PInf (StreamHist.min that))) /\
    StreamHist.max s'
      = Some (Num.max (or_else NInf (StreamHist.max s)) (or_else NInf (StreamHist.max that))).
Proof.
  intros Hs Hp Hts Htp Hclean n.
  unfold StreamHist.bins, StreamHist.count, StreamHist.min, StreamHist.max in *.
  destruct (merge_rounded that mb s Hs Hp Hts Htp Hclean)
    as (s' & Hrun & Hwf & Hm & Hsize & Hcnt & Hsum & Hmin & Hmax & _).
  change (Rounded.merge_capacity that mb s) with n in Hm.
  exists s'. split; [exact Hrun|]. split; [exact Hwf|].
  split; [unfold Rounded.maxBins, bind, get, ret; simpl; now rewrite Hm|].
  split; [rewrite <- Hm; exact Hsize|].
  repeat split; assumption.
Qed.

(** X22. In double precision, the setter [maxBins(n)] for an integer
    [n >= 1], when the compression it may start is clean, on a sketch
    whose bins are in order with positive counts: it returns [n], and
    [maxBins()] returns [n] afterwards; the sketch holds at most [n]
    bins, and its bins are left as they are when they were no more than
    [n]. The total count of the bins and [count()] do not change. *)
Theorem maxBins_setter_compresses (n : Z) (s : Sketch) :
  ordered (StreamHist.bins s) -> positive_counts (StreamHist.bins s) ->
  (1 <= n)%Z -> clean_compress (set_maxBins n s) = true ->
  exists s',
    Rounded.maxBins (JNum (inject_Z n)) s = (Ret n, s') /\
    well_formed s' /\
    Rounded.maxBins JUndefined s' = (Ret n, s') /\
    (StreamHist.size s' <= n)%Z /\
    ((StreamHist.size s <= n)%Z -> StreamHist.bins s' = StreamHist.bins s) /\
    sum_counts (StreamHist.bins s') == sum_counts (StreamHist.bins s) /\
    StreamHist.count s' = StreamHist.count s.
Proof.
  unfold StreamHist.bins, StreamHist.count. intros Hs Hp Hn Hclean.
  destruct (maxBins_set_rounded n s Hs Hp Hclean)
    as (s' & Hrun & Hs' & Hp' & Hm & Hsize & _ & Hsame & Hsum & Hc & _).
  exists s'. split; [exact Hrun|].
  split; [repeat split; try assumption; rewrite Hm; exact Hn|].
  split; [unfold Rounded.maxBins, bind, get, ret; simpl; now rewrite Hm|].
  repeat split; assumption.
Qed.

End RoundedClaims.

(** ** The sketch in double precision: the limits, and a lost bin *)

Section RoundedLimits.
Context `{Mathjs}.

(** One clean turn of [push]: the limits are finite afterwards and hold
    the point and every bin mean between them; they are the point itself
    when the sketch had no limits, and otherwise the old limits, each
    replaced by the point when the point is beyond it. *)
Lemma push_point_limits_rounded (x c : Q) (s : Sketch) :
  well_formed s -> 0 < c -> finite_limits s -> clean_point x c s = true ->
  exists s' lo hi,
    Rounded.push_point x c s = (Ret tt, s') /\
    well_formed s' /\ finite_limits s' /\
    _min s' = Some (Fin lo) /\ _max s' = Some (Fin hi) /\
    lo <= x /\ x <= hi /\
    match _min s, _max s with
    | Some (Fin lo0), Some (Fin hi0) =>
        lo <= lo0 /\ hi0 <= hi /\ (lo = lo0 \/ lo = x) /\ (hi = hi0 \/ hi = x)
    | _, _ => lo = x /\ hi = x
    end.
Proof.
  intros Hwf Hc Hfl Hclean.
  destruct (push_point_rounded x c s Hwf Hc Hclean)
    as (s' & Hrun & Hwf' & _ & _ & _ & _ & _ & Hmin & Hmax & Hin).
  assert (Hlim : exists lo hi,
    Num.min (or_else PInf (_min s)) (Fin x) = Fin lo /\
    Num.max (or_else NInf (_max s)) (Fin x) = Fin hi /\
    lo <= x /\ x <= hi /\
    Forall (fun b => lo <= Bin.mean b /\ Bin.mean b <= hi) (_bins s) /\
    match _min s, _max s with
    | Some (Fin lo0), Some (Fin hi0) =>
        lo <= lo0 /\ hi0 <= hi /\ (lo = lo0 \/ lo = x) /\ (hi = hi0 \/ hi = x)
    | _, _ => lo = x /\ hi = x
    end).
  { unfold finite_limits in Hfl.
    destruct (_min s) as [[lo0| | |]|]; destruct (_max s) as [[hi0| | |]|];
      try contradiction.
    - cbn [or_else].
      destruct (Num_min_Fin lo0 x) as (lo & -> & Hl1 & Hl2 & Hl3).
      destruct (Num_max_Fin hi0 x) as (hi & -> & Hh1 & Hh2 & Hh3).
      exists lo, hi. repeat split; try assumption.
      eapply within_wider; [| |exact Hfl]; assumption.
    - exists x, x. rewrite Hfl. cbn. repeat split; try apply Qle_refl. constructor. }
  destruct Hlim as (lo & hi & Hlo & Hhi & Hxlo & Hxhi & Hold & Hrel).
  rewrite Hlo in Hmin. rewrite Hhi in Hmax.
  exists s', lo, hi. split; [exact Hrun|]. split; [exact Hwf'|].
  split.
  { unfold finite_limits. rewrite Hmin, Hmax. apply (Hin lo hi Hxlo Hxhi Hold). }
  repeat split; assumption.
Qed.

Lemma push_loop_limits_rounded (p : list Q) (c : Q) :
  forall (s : Sketch) (lo0 hi0 : Q),
    well_formed s -> 0 < c -> finite_limits s ->
    _min s = Some (Fin lo0) -> _max s = Some (Fin hi0) ->
    clean_push_loop p c s = true ->
    exists s' lo hi,
      Rounded.push_loop p c s = (Ret tt, s') /\
      finite_limits s' /\
      _min s' = Some (Fin lo) /\ _max s' = Some (Fin hi) /\
      lo <= lo0 /\ hi0 <= hi /\
      Forall (fun y => lo <= y /\ y <= hi) p /\
      (lo = lo0 \/ In lo p) /\ (hi = hi0 \/ In hi p).
Proof.
  induction p as [|x p IH]; intros s lo0 hi0 Hwf Hc Hfl Hmin Hmax Hclean.
  - exists s, lo0, hi0. repeat split; auto; try apply Qle_refl.
  - apply clean_push_loop_cons in Hclean. destruct Hclean as [Hpt Hrest].
    destruct (push_point_limits_rounded x c s Hwf Hc Hfl Hpt)
      as (s1 & lo1 & hi1 & Hrun1 & Hwf1 & Hfl1 & Hmin1 & Hmax1 & Hlo1 & Hhi1 & Hrel).
    rewrite Hrun1 in Hrest. cbn [snd] in Hrest.
    rewrite Hmin, Hmax in Hrel. destruct Hrel as (Hl & Hh & Hlx & Hhx).
    destruct (IH s1 lo1 hi1 Hwf1 Hc Hfl1 Hmin1 Hmax1 Hrest)
      as (s' & lo & hi & Hrun & Hfl' & Hmin' & Hmax' & Hlo & Hhi & Hall & Hlin & Hhin).
    exists s', lo, hi. cbn [Rounded.push_loop]. rewrite (bind_run _ _ _ _ _ Hrun1).
    split; [exact Hrun|]. split; [exact Hfl'|].
    split; [exact Hmin'|]. split; [exact Hmax'|].
    split; [lra|]. split; [lra|].
    split; [constructor; [lra | exact Hall]|].
    split.
    + destruct Hlin as [->|Hin]; [|right; now right].
      destruct Hlx as [->| ->]; [now left | right; now left].
    + destruct Hhin as [->|Hin]; [|right; now right].
      destruct Hhx as [->| ->]; [now left | right; now left].
Qed.

(** X15. In double precision, on a well-formed sketch whose limits are
    both [null] with no bin, or finite with every bin mean between them,
    a clean [push] of at least one point leaves finite limits with every
    bin mean and every pushed point between them. Each limit is the old
    one or one of the points pushed, and is one of the points when there
    was no limit before. *)
Theorem push_tracks_limits (x : Q) (p : list Q) (cnt : option Q) (s : Sketch) :
  well_formed s -> finite_limits s -> weight_ok cnt ->
  clean_push (x :: p) cnt s = true ->
  exists s' lo hi,
    Rounded.push (x :: p) cnt s = (Ret tt, s') /\
    finite_limits s' /\
    StreamHist.min s' = Some (Fin lo) /\ StreamHist.max s' = Some (Fin hi) /\
    Forall (fun y => lo <= y /\ y <= hi) (x :: p) /\
    match StreamHist.min s, StreamHist.max s with
    | Some (Fin lo0), Some (Fin hi0) =>
        lo <= lo0 /\ hi0 <= hi /\
        (lo = lo0 \/ In lo (x :: p)) /\ (hi = hi0 \/ In hi (x :: p))
    | _, _ => In lo (x :: p) /\ In hi (x :: p)
    end.
Proof.
  unfold StreamHist.min, StreamHist.max. intros Hwf Hfl Hw Hclean.
  pose proof (weight_positive cnt Hw) as Hc.
  unfold Rounded.push. unfold clean_push in Hclean.
  set (c := Rounded.weight cnt) in *.
  apply clean_push_loop_cons in Hclean. destruct Hclean as [Hpt Hrest].
  destruct (push_point_limits_rounded x c s Hwf Hc Hfl Hpt)
    as (s1 & lo1 & hi1 & Hrun1 & Hwf1 & Hfl1 & Hmin1 & Hmax1 & Hlo1 & Hhi1 & Hrel).
  rewrite Hrun1 in Hrest. cbn [snd] in Hrest.
  destruct (push_loop_limits_rounded p c s1 lo1 hi1 Hwf1 Hc Hfl1 Hmin1 Hmax1 Hrest)
    as (s' & lo & hi & Hrun & Hfl' & Hmin' & Hmax' & Hlo & Hhi & Hall & Hlin & Hhin).
  exists s', lo, hi. cbn [Rounded.push_loop]. rewrite (bind_run _ _ _ _ _ Hrun1).
  split; [exact Hrun|]. split; [exact Hfl'|].
  split; [exact Hmin'|]. split; [exact Hmax'|].
  split; [constructor; [lra | exact Hall]|].
  assert (Hlo_in : lo = lo1 \/ In lo (x :: p)).
  { destruct Hlin as [->|Hin]; [now left | right; now right]. }
  assert (Hhi_in : hi = hi1 \/ In hi (x :: p)).
  { destruct Hhin as [->|Hin]; [now left | right; now right]. }
  destruct (_min s) as [[lo0| | |]|]; destruct (_max s) as [[hi0| | |]|];
    try (destruct Hrel as [-> ->];
         split; [destruct Hlo_in as [->|Hin]; [now left | exact Hin]
                |destruct Hhi_in as [->|Hin]; [now left | exact Hin]]).
  destruct Hrel as (Hl & Hh & Hlx & Hhx).
  split; [lra|]. split; [lra|]. split.
  - destruct Hlo_in as [->|Hin]; [|now right].
    destruct Hlx as [->| ->]; [now left | right; now left].
  - destruct Hhi_in as [->|Hin]; [|now right].
    destruct Hhx as [->| ->]; [now left | right; now left].
Qed.

(** X31. What a pass of [_compress] does when the mean it computes for
    the combined bin is the mean of the second bin of the pair: [remove]
    then unlinks the combined bin, the first it finds with that mean, and
    the second bin stays as it was. The total count of the bins drops by
    the count of the first bin, and [count()] is not touched. *)
Theorem compress_drops_the_combined_bin (s : Sketch) (l1 l2 : list Bin.t)
    (x y m : Bin.t) (pick : option ref) :
  ordered (StreamHist.bins s) ->
  StreamHist.bins s = l1 ++ x :: y :: l2 ->
  picked_pair s = Some (length l1, y) ->
  Rounded.combineBins x y = Some m -> Bin.mean m == Bin.mean y ->
  Rounded._compress_pass pick s
    = (Ret (Some (length l1, y)), set_bins (l1 ++ y :: l2) s) /\
  sum_counts (l1 ++ y :: l2) == sum_counts (StreamHist.bins s) - Bin.count x.
Proof.
  unfold picked_pair, StreamHist.bins. intros Hs Hl Hscan Hm Heq. split.
  - unfold Rounded._compress_pass, StreamHist.bins.
    destruct (_bins s) as [|a rest] eqn:El; [discriminate|].
    rewrite scan_from_None, Hscan, Hl, nth_error_app_mid, Hm, update_app.
    f_equal. f_equal.
    rewrite Hl in Hs. apply ordered_app_inv in Hs.
    destruct Hs as (_ & _ & Hcross).
    assert (Hl1 : Forall (fun a => bin_lt a y) l1).
    { rewrite Forall_forall. intros b Hb. apply Hcross; [exact Hb | right; now left]. }
    clear - Hl1 Heq. induction l1 as [|b l1 IH]; simpl.
    + assert (E : compareBins y m = Eq) by (apply compareBins_Eq; symmetry; exact Heq).
      now rewrite E.
    + inversion Hl1 as [|? ? Hb Hl1']; subst.
      assert (E : compareBins y b = Gt) by (apply compareBins_Gt, Hb).
      rewrite E, IH; auto.
  - rewrite Hl, !sum_counts_app. simpl. ring.
Qed.

End RoundedLimits.

(** ** The claims on the sketches of the examples in double precision *)

(** The arithmetic of doubles on some numbers: 0.1 + 0.2 is
    0.30000000000000004; the mean of 1.1 and 1.3 is 1.2000000000000002
    and not 1.2; a sum halfway between two doubles goes to the even one;
    the weighted mean of three points at 0.7000000000000001 and three at
    0.7 is below both; the distances from -0.5 to -2^53 and to 2^53 are
    the same; a result too large is an infinity and one too small is
    zero; 0/0 and Infinity - Infinity are NaN. *)
Lemma Double_examples :
  Double.add (Fin (Double.literal 0.1)) (Fin (Double.literal 0.2))
    = Fin (Double.literal 0.30000000000000004) /\
  Double.div (Double.add (Fin (Double.literal 1.3)) (Fin (Double.literal 1.1))) (Fin 2)
    = Fin (Double.literal 1.2000000000000002) /\
  Double.literal 1.2 < Double.literal 1.2000000000000002 /\
  Double.add (Fin (inject_Z (2 ^ 53))) (Fin 1) = Fin (inject_Z (2 ^ 53)) /\
  Double.add (Fin (inject_Z (2 ^ 53))) (Fin 3) = Fin (inject_Z (2 ^ 53 + 4)) /\
  Double.div (Fin 1) (Fin 3) = Fin (Double.literal 0.3333333333333333) /\
  Double.div (Double.add (Double.mul (Fin (Double.literal 0.7000000000000001)) (Fin 3))
                         (Double.mul (Fin (Double.literal 0.7)) (Fin 3))) (Fin 6)
    = Fin (Double.literal 0.6999999999999998) /\
  Double.abs (Double.sub (Fin (inject_Z (- 2 ^ 53))) (Fin (- (1 # 2))))
    = Double.abs (Double.sub (Fin (inject_Z (2 ^ 53))) (Fin (- (1 # 2)))) /\
  Double.pow2 (Fin (Double.literal 2e200)) = PInf /\
  Double.mul (Fin (Double.literal 1e308)) (Fin 10) = PInf /\
  Double.div (Fin (Double.literal 5e-324)) (Fin 2) = Fin 0 /\
  Double.div (Fin 0) (Fin 0) = NaN /\
  Double.sub PInf PInf = NaN.
Proof. repeat split; vm_compute; reflexivity. Qed.





(** C6 on the code. [new StreamHist(1).push([-1e200, 1e200])]: the square
    of the gap between the two bins is an infinity, which is not below
    the [Infinity] the scan of [_compress] starts from; no pair is picked
    and [combineBins(undefined, undefined)] throws. The sketch is left
    with two bins for a capacity of one. *)
Theorem push_throws_over_capacity :
  let run := Rounded.push (H := example_math)
               [Double.literal (-1e200); Double.literal 1e200] None
               (example_new (JNum 1) JUndefined) in
  Rounded.diffBins (H := example_math)
    (Bin.mk (Double.literal (-1e200)) 1 0 None)
    (Bin.mk (Double.literal 1e200) 1 0 None) false = PInf /\
  fst run = Err TypeError /\
  map Bin.mean (StreamHist.bins (snd run))
    = [Double.literal (-1e200); Double.literal 1e200] /\
  StreamHist.size (snd run) = 2%Z /\
  Rounded.maxBins (H := example_math) JUndefined (snd run) = (Ret 1%Z, snd run).
Proof. cbv zeta. repeat split; vm_compute; reflexivity. Qed.

(** C7 on the code. After
    [h = new StreamHist().push([0.9999999999999999, 1]); h.median()] the
    sketch holds two bins of mean 1: [median()] has combined the two bins
    in place, and the mean of 0.9999999999999999 and 1 is rounded to 1.
    The snapshot lists both bins, and [fromJSON], which inserts them into
    a tree, keeps the first only: the restored sketch has one bin where
    the sketch has two. *)
Theorem fromJSON_drops_a_bin_of_equal_mean :
  map Bin.mean (StreamHist.toArray rounded_twins) = [1; 1] /\
  map Bin.count (StreamHist.toArray rounded_twins) = [2; 1] /\
  fst (fromJSON (H := example_math) (toJSON rounded_twins)) = Ret tt /\
  map Bin.count
    (StreamHist.toArray (snd (fromJSON (H := example_math) (toJSON rounded_twins)))) = [2] /\
  StreamHist.toArray (snd (fromJSON (H := example_math) (toJSON rounded_twins)))
    <> StreamHist.toArray rounded_twins.
Proof.
  repeat (split; [vm_compute; reflexivity|]).
  intro Heq. apply (f_equal (@length Bin.t)) in Heq. vm_compute in Heq. discriminate.
Qed.

(** X1 at [new StreamHist(2)] and [push([0.1, 0.2, 0.4])]. *)
Lemma push_keeps_well_formed_witness :
  exists s',
    Rounded.push (H := example_math)
      [Double.literal 0.1; Double.literal 0.2; Double.literal 0.4] None
      (example_new (JNum 2) JUndefined) = (Ret tt, s') /\
    well_formed s' /\ same_config (example_new (JNum 2) JUndefined) s' /\
    ((StreamHist.size (example_new (JNum 2) JUndefined)
      <= _maxBins (example_new (JNum 2) JUndefined))%Z ->
     (StreamHist.size s' <= _maxBins s')%Z).
Proof.
  apply (push_keeps_well_formed (H := example_math)).
  - vm_compute. repeat constructor. discriminate.
  - exact I.
  - vm_compute. reflexivity.
Defined.

(** X3 at the merged sketch of the examples with its capacity set to 1. *)
Lemma compress_keeps_total_count_witness :
  exists s', Rounded._compress (H := example_math) (set_maxBins 1 rounded_ab) = (Ret tt, s') /\
    ordered (StreamHist.bins s') /\ positive_counts (StreamHist.bins s') /\
    (StreamHist.size s' <= _maxBins s')%Z /\
    sum_counts (StreamHist.bins s') == sum_counts (StreamHist.bins (set_maxBins 1 rounded_ab)) /\
    StreamHist.count s' = StreamHist.count (set_maxBins 1 rounded_ab) /\
    ((StreamHist.size (set_maxBins 1 rounded_ab) <= _maxBins (set_maxBins 1 rounded_ab))%Z ->
     s' = set_maxBins 1 rounded_ab).
Proof.
  apply (compress_keeps_total_count (H := example_math)).
  - vm_compute. repeat constructor.
  - vm_compute. repeat constructor.
  - vm_compute. reflexivity.
Defined.

(** X7 at the merged sketch of the examples and the point 0.3. *)
Lemma findNearest_returns_a_neighbour_witness :
  exists r, Rounded.findNearest (Double.literal 0.3) rounded_ab = (Ret r, rounded_ab) /\
    match r with
    | None => StreamHist.bins rounded_ab = []
    | Some (i, b) =>
        nth_error (StreamHist.bins rounded_ab) i = Some b /\
        (Bin.mean b == Double.literal 0.3
         \/ mean_free (Double.literal 0.3) (StreamHist.bins rounded_ab)) /\
        beside (Double.literal 0.3) i (StreamHist.bins rounded_ab)
    end.
Proof.
  apply (findNearest_returns_a_neighbour (Double.literal 0.3) rounded_ab).
  vm_compute. repeat constructor.
Defined.

(** X15 at [rounded_a] and [push([0.05, 0.3])]. *)
Lemma push_tracks_limits_witness :
  exists s' lo hi,
    Rounded.push (H := example_math) [Double.literal 0.05; Double.literal 0.3] None rounded_a
      = (Ret tt, s') /\
    finite_limits s' /\
    StreamHist.min s' = Some (Fin lo) /\ StreamHist.max s' = Some (Fin hi) /\
    Forall (fun y => lo <= y /\ y <= hi) [Double.literal 0.05; Double.literal 0.3] /\
    match StreamHist.min rounded_a, StreamHist.max rounded_a with
    | Some (Fin lo0), Some (Fin hi0) =>
        lo <= lo0 /\ hi0 <= hi /\
        (lo = lo0 \/ In lo [Double.literal 0.05; Double.literal 0.3]) /\
        (hi = hi0 \/ In hi [Double.literal 0.05; Double.literal 0.3])
    | _, _ => In lo [Double.literal 0.05; Double.literal 0.3]
              /\ In hi [Double.literal 0.05; Double.literal 0.3]
    end.
Proof.
  apply (push_tracks_limits (H := example_math)).
  - vm_compute. repeat constructor. discriminate.
  - vm_compute. repeat constructor; discriminate.
  - exact I.
  - vm_compute. reflexivity.
Defined.


(** X20 at the two sketches of the examples. *)
Lemma merge_respects_capacity_witness :
  let n := Z.min (match Number_isInteger JUndefined with
                  | Some n => n
                  | None => Z.min (_maxBins rounded_a) (_maxBins rounded_b)
                  end) (_maxBins rounded_a + _maxBins rounded_b) in
  exists s',
    Rounded.merge (H := example_math) rounded_b JUndefined rounded_a = (Ret tt, s') /\
    well_formed s' /\
    Rounded.maxBins (H := example_math) JUndefined s' = (Ret n, s') /\
    (StreamHist.size s' <= n)%Z /\
    StreamHist.count s' == StreamHist.count rounded_a + StreamHist.count rounded_b /\
    sum_counts (StreamHist.bins s')
      == sum_counts (StreamHist.bins rounded_a) + sum_counts (StreamHist.bins rounded_b) /\
    StreamHist.min s'
      = Some (Num.min (or_else PInf (StreamHist.min rounded_a))
                      (or_else PInf (StreamHist.min rounded_b))) /\
    StreamHist.max s'
      = Some (Num.max (or_else NInf (StreamHist.max rounded_a))
                      (or_else NInf (StreamHist.max rounded_b))).
Proof.
  apply (merge_respects_capacity (H := example_math) rounded_b JUndefined rounded_a).
  - vm_compute. repeat constructor.
  - vm_compute. repeat constructor.
  - vm_compute. repeat constructor.
  - vm_compute. repeat constructor.
  - vm_compute. reflexivity.
Defined.

(** X22 at [rounded_b] and [maxBins(1)]. *)
Lemma maxBins_setter_compresses_witness :
  exists s',
    Rounded.maxBins (H := example_math) (JNum (inject_Z 1)) rounded_b = (Ret 1%Z, s') /\
    well_formed s' /\
    Rounded.maxBins (H := example_math) JUndefined s' = (Ret 1%Z, s') /\
    (StreamHist.size s' <= 1)%Z /\
    ((StreamHist.size rounded_b <= 1)%Z -> StreamHist.bins s' = StreamHist.bins rounded_b) /\
    sum_counts (StreamHist.bins s') == sum_counts (StreamHist.bins rounded_b) /\
    StreamHist.count s' = StreamHist.count rounded_b.
Proof.
  apply (maxBins_setter_compresses (H := example_math) 1 rounded_b).
  - vm_compute. repeat constructor.
  - vm_compute. repeat constructor.
  - vm_compute. discriminate.
  - vm_compute. reflexivity.
Defined.

(** X31 at the pass of [_compress] that follows [_insert(1.2, 1)] in
    [new StreamHist(1).push([1.1, 1.3]).push(1.2)]: the bins of means 1.2
    (count 1) and 1.2000000000000002 (count 2) combine to the mean
    1.2000000000000002, and the bin left is the second, of count 2, for
    a [count()] of 3. *)
Lemma compress_drops_the_combined_bin_witness :
  let x := Bin.mk (Double.literal 1.2) 1 0 None in
  let y := Bin.mk (Double.literal 1.2000000000000002) 2
                  (Double.literal 0.01999999999999999) None in
  let m := Bin.mk (Double.literal 1.2000000000000002) 3
                  (Double.literal 0.01999999999999999) None in
  StreamHist.bins rounded_full = [x; y] /\
  Rounded._compress_pass (H := example_math) None rounded_full
    = (Ret (Some (0%nat, y)), set_bins [y] rounded_full) /\
  sum_counts [y] == sum_counts (StreamHist.bins rounded_full) - Bin.count x /\
  StreamHist.count rounded_full == 3.
Proof.
  cbv zeta. split; [vm_compute; reflexivity|].
  split; [|split; [|vm_compute; reflexivity]].
  - apply (compress_drops_the_combined_bin (H := example_math) rounded_full [] []
             (Bin.mk (Double.literal 1.2) 1 0 None)
             (Bin.mk (Double.literal 1.2000000000000002) 2
                     (Double.literal 0.01999999999999999) None)
             (Bin.mk (Double.literal 1.2000000000000002) 3
                     (Double.literal 0.01999999999999999) None) None).
    + vm_compute. repeat constructor.
    + vm_compute. reflexivity.
    + vm_compute. reflexivity.
    + vm_compute. reflexivity.
    + vm_compute. reflexivity.
  - apply (compress_drops_the_combined_bin (H := example_math) rounded_full [] []
             (Bin.mk (Double.literal 1.2) 1 0 None)
             (Bin.mk (Double.literal 1.2000000000000002) 2
                     (Double.literal 0.01999999999999999) None)
             (Bin.mk (Double.literal 1.2000000000000002) 3
                     (Double.literal 0.01999999999999999) None) None).
    + vm_compute. repeat constructor.
    + vm_compute. reflexivity.
    + vm_compute. reflexivity.
    + vm_compute. reflexivity.
    + vm_compute. reflexivity.
Defined.

(** X33 at [new StreamHist().push([64, 128])] and [density(64)]. *)
Lemma density_at_first_mean_never_returns_witness :
  StreamHist.density 5 64 (pushed (H := example_math) [64; 128])
  = (Err NoTermination, pushed (H := example_math) [64; 128]).
Proof.
  apply (density_at_first_mean_never_returns 5 64 64 128
           (pushed (H := example_math) [64; 128])
           (Bin.mk 64 1 0 None) [Bin.mk 128 1 0 None]).
  - vm_compute. reflexivity.
  - reflexivity.
  - vm_compute. reflexivity.
  - vm_compute. reflexivity.
  - vm_compute. discriminate.
  - vm_compute. reflexivity.
  - vm_compute. reflexivity.
  - vm_compute. reflexivity.
Defined.

(** ** The further properties on the sketches of the examples *)






(** X12 at the frozen sketch of the examples: [sum(2.5)], between the
    last mean, 2, and [max()], 3. *)
Lemma sum_above_last_bin_is_NaN_witness :
  fst (StreamHist.sum (5 # 2) example_frozen) = Ret (Num NaN).
Proof.
  apply (sum_above_last_bin_is_NaN (5 # 2) example_frozen [Bin.mk 1 1 0 None]
           (Bin.mk 2 2 0 None)).
  - vm_compute. reflexivity.
  - vm_compute. repeat constructor.
  - reflexivity.
  - vm_compute. reflexivity.
  - vm_compute. reflexivity.
Defined.


(** X14 at the frozen sketch of the examples, pushing 7. *)
Lemma frozen_push_keeps_means_witness :
  exists s',
    StreamHist.push (H := example_math) [7] None example_frozen = (Ret tt, s') /\
    map Bin.mean (StreamHist.bins s') = map Bin.mean (StreamHist.bins example_frozen) /\
    StreamHist.size s' = StreamHist.size example_frozen /\
    StreamHist.isFrozen s' = true.
Proof.
  apply (frozen_push_keeps_means (H := example_math) [7] None example_frozen).
  - vm_compute. repeat constructor. discriminate.
  - exact I.
  - vm_compute. reflexivity.
  - vm_compute. reflexivity.
Defined.

(** X19 at [fastHist([3, 1, 2], 5)]. *)
Lemma fastHist_exact_below_capacity_witness :
  exists l,
    fastHist (H := example_math) [3; 1; 2] (JNum 5) = Ret l /\
    ordered l /\
    Permutation l (map (fun x => Bin.mk x 1 0 None) [3; 1; 2]).
Proof.
  apply (fastHist_exact_below_capacity (H := example_math) 5 [3; 1; 2]).
  - reflexivity.
  - reflexivity.
  - vm_compute. discriminate.
  - repeat constructor; intro E; discriminate E.
Defined.

(** X21 at two new sketches. *)
Lemma merge_of_sketches_without_limits_witness :
  StreamHist.min (snd (StreamHist.merge (H := example_math)
                         (example_new JUndefined JUndefined) JUndefined
                         (example_new JUndefined JUndefined))) = Some PInf /\
  StreamHist.max (snd (StreamHist.merge (H := example_math)
                         (example_new JUndefined JUndefined) JUndefined
                         (example_new JUndefined JUndefined))) = Some NInf.
Proof.
  apply (merge_of_sketches_without_limits (H := example_math)
           (example_new JUndefined JUndefined) JUndefined
           (example_new JUndefined JUndefined)); reflexivity.
Defined.

